(** * Email productivity dashboard: credential, sync, enrichment and reply-draft logic

    A shallow embedding of [src/email-productivity-dashboard.tsx]: the
    reply envelope ([extractEmailAddress], [getReplyEnvelope],
    [buildReplyMessage]), message normalisation ([normalizeMessage] and
    its helpers), the sync cycle and the credential recovery
    ([fetchEmails], [handle401Error], [refreshAccessToken],
    [interpretGmailError]), the reply drafts ([patchReplyDraft],
    [handleDraftContentChange], [saveDraftEdits], [sendReply]) and the
    enrichment ([runAnalysis] and the effect that schedules it).

    Conventions of the embedding.
    - A JavaScript string is a [string]; each [ascii] stands for one code
      unit below 256 (the Latin-1 part of UTF-16), so [trim] and
      [toLowerCase] are those of JavaScript restricted to that range.
    - A value is "truthy" as in JavaScript: the empty string and
      [undefined]/[null] (here [None]) are falsy.
    - React state is one record, [Dashboard]; every [setX(prev => ...)] is a
      function on it, and a function reads the state of the render in
      which it is called.  [localStorage] is a finite map.
    - An [async] function takes the answers of the outside world (HTTP
      replies, the clock) as an argument and returns the state reached when
      its promise settles.  Since a 401 makes [fetchEmails] call itself
      through the recovery, the answers form a tree, [InboxWorld], and
      [fetchEmails] recurses on it.  The tree is finite: it is the course
      of a run that ends, and the state returned is the state at that
      end.  The code itself puts no bound on the chain of a 401, a granted
      refresh and a new cycle.  Outbound HTTP calls are appended to the
      [net] log of the state, in the order in which they are issued.
    - [runAnalysis] is split at its [await]: other events happen between
      the start of a call and its answer.  The calls that await their
      answer are kept in [pending].
    - [decodeBase64Url] (built on [atob]), [JSON.parse] and the constants
      of [config.ts] are parameters. *)

From Stdlib Require Import ZArith Ascii String List Bool Lia.
From stdpp Require Import base option list strings gmap.

Open Scope string_scope.
Open Scope list_scope.

(** ** JavaScript string primitives *)

Module Js.

(** [Boolean(s)] for a string. *)
Definition truthy (s : string) : bool :=
  match s with
  | EmptyString => false
  | String _ _ => true
  end.

(** [o || d] where [o] is a possibly missing string. *)
Definition or_else (o : option string) (d : string) : string :=
  match o with
  | Some s => if truthy s then s else d
  | None => d
  end.

(** [Boolean(o)] for a possibly missing string. *)
Definition present (o : option string) : bool :=
  match o with
  | Some s => truthy s
  | None => false
  end.

(** White space of [String.prototype.trim] and of the regular expression
    class [\s], below code unit 256: TAB, LF, VT, FF, CR, SP, NBSP. *)
Definition is_space (c : ascii) : bool :=
  let n := nat_of_ascii c in
  (((9 <=? n) && (n <=? 13)) || (n =? 32) || (n =? 160))%nat.

Fixpoint trimStart (s : string) : string :=
  match s with
  | EmptyString => EmptyString
  | String c r => if is_space c then trimStart r else s
  end.

Fixpoint trimEnd (s : string) : string :=
  match s with
  | EmptyString => EmptyString
  | String c r =>
      match trimEnd r with
      | EmptyString => if is_space c then EmptyString else String c EmptyString
      | String _ _ as r' => String c r'
      end
  end.

Definition trim (s : string) : string := trimEnd (trimStart s).

(** [toLowerCase] on one code unit below 256. *)
Definition lower_char (c : ascii) : ascii :=
  let n := nat_of_ascii c in
  if (((65 <=? n) && (n <=? 90))
      || ((192 <=? n) && (n <=? 222) && negb (n =? 215)))%nat
  then ascii_of_nat (n + 32)
  else c.

Fixpoint toLowerCase (s : string) : string :=
  match s with
  | EmptyString => EmptyString
  | String c r => String (lower_char c) (toLowerCase r)
  end.

Definition startsWith (s p : string) : bool := String.prefix p s.

(** [s.includes(c)] for a one-character needle. *)
Fixpoint includes_char (c : ascii) (s : string) : bool :=
  match s with
  | EmptyString => false
  | String d r => Ascii.eqb c d || includes_char c r
  end.

(** [s.includes(p)] for any needle. *)
Fixpoint includes (p s : string) : bool :=
  String.prefix p s ||
  match s with
  | EmptyString => false
  | String _ r => includes p r
  end.

(** [s.split(/\s+/)]: the fields between maximal runs of white space;
    [in_sep] tells that the previous character was white space.  The head
    of the result is the field under construction. *)
Fixpoint split_spaces_from (in_sep : bool) (s : string) : list string :=
  match s with
  | EmptyString => [EmptyString]
  | String c r =>
      if is_space c then
        if in_sep then split_spaces_from true r
        else EmptyString :: split_spaces_from true r
      else
        match split_spaces_from false r with
        | f :: fs => String c f :: fs
        | [] => [String c EmptyString]
        end
  end.

Definition split_spaces (s : string) : list string := split_spaces_from false s.

(** [s.replace(/[<>,]/g, '')]. *)
Fixpoint strip_brackets_commas (s : string) : string :=
  match s with
  | EmptyString => EmptyString
  | String c r =>
      if Ascii.eqb c "<" || Ascii.eqb c ">" || Ascii.eqb c ","
      then strip_brackets_commas r
      else String c (strip_brackets_commas r)
  end.

(** The longest run of characters other than [>] at the start of [s],
    and whether a [>] follows it: the part [[^>]+>] of the pattern. *)
Fixpoint run_to_gt (s : string) : string * bool :=
  match s with
  | EmptyString => (EmptyString, false)
  | String c r =>
      if Ascii.eqb c ">" then (EmptyString, true)
      else let '(run, closed) := run_to_gt r in (String c run, closed)
  end.

(** [s.match(/<([^>]+)>/)?.[1]]: the capture of the leftmost match. *)
Fixpoint match_angle (s : string) : option string :=
  match s with
  | EmptyString => None
  | String c r =>
      if Ascii.eqb c "<" then
        match run_to_gt r with
        | (String _ _ as g, true) => Some g
        | _ => match_angle r
        end
      else match_angle r
  end.

(** No white space at the front. *)
Definition starts_clean (s : string) : Prop :=
  match s with
  | EmptyString => True
  | String c _ => is_space c = false
  end.

End Js.

(** ** Data model *)

Record GmailEmail := mkEmail {
  id : string;
  threadId : option string;
  messageId : option string;
  subject : string;
  sender : string;
  snippet : string;
  body : string;
  internalDate : option string
}.

(** ** Reply envelope *)

Definition address_like (part : string) : bool :=
  Js.includes_char "@" part && Js.includes_char "." part.

Definition extractEmailAddress (value : string) : string :=
  if negb (Js.truthy value) then ""
  else
    match Js.match_angle value with
    | Some g => Js.trim g
    | None =>
        let trimmed := Js.trim value in
        if Js.includes_char " " trimmed then
          match List.find address_like (Js.split_spaces trimmed) with
          | Some emailLike => Js.strip_brackets_commas emailLike
          | None => ""
          end
        else trimmed
    end.

Record ReplyEnvelope := mkEnvelope {
  recipient : string;
  replySubject : string
}.

(** The subject line computed by [getReplyEnvelope]. *)
Definition normalizeSubject (subject : string) : string :=
  let subjectBase := Js.or_else (Some (Js.trim subject)) "(no subject)" in
  if Js.startsWith (Js.toLowerCase subjectBase) "re:" then subjectBase
  else "Re: " +:+ subjectBase.

(** A thrown [Error] is its message: [inl msg]. *)
Definition getReplyEnvelope (email : GmailEmail) : string + ReplyEnvelope :=
  let recipient := extractEmailAddress (sender email) in
  if negb (Js.truthy recipient) then inl "Unable to parse sender email address."
  else inr (mkEnvelope recipient (normalizeSubject (subject email))).


Definition CRLF : string := String "013" (String "010" EmptyString).
Definition dquote : string := String "034" EmptyString.

(** [buildReplyMessage], up to the final [encodeBase64Url]: the RFC 822
    text whose base64url form is the [raw] field of the request. *)
Definition buildReplyMessage (to subject body : string) (inReplyTo : option string) : string :=
  let headers :=
    [ Some ("To: " +:+ to);
      Some ("Subject: " +:+ subject);
      (if Js.present inReplyTo then Some ("In-Reply-To: " +:+ default "" inReplyTo) else None);
      (if Js.present inReplyTo then Some ("References: " +:+ default "" inReplyTo) else None);
      Some ("Content-Type: text/plain; charset=" +:+ dquote +:+ "UTF-8" +:+ dquote) ] in
  String.concat CRLF [String.concat CRLF (omap (fun h => h) headers); ""; body].

(** ** JSON values and insight records *)

#[local] Set Warnings "-register-all".

Inductive Json :=
| JNull
| JBool (b : bool)
| JNumber (n : Z)
| JString (s : string)
| JArray (items : list Json)
| JObject (fields : list (string * Json)).

(** [o[k]] on a parsed value; only objects have named properties. *)
Fixpoint assoc (k : string) (fields : list (string * Json)) : option Json :=
  match fields with
  | [] => None
  | (k', v) :: rest => if String.eqb k k' then Some v else assoc k rest
  end.

Definition property (k : string) (o : Json) : option Json :=
  match o with
  | JObject fields => assoc k fields
  | _ => None
  end.

(** The six properties that the type [EmailAnalysis] names; at run time
    each holds whatever the response held. *)
Record EmailAnalysis := mkAnalysis {
  summary : Json;
  category : Json;
  priority : Json;
  action_items : Json;
  deadlines : Json;
  key_points : Json
}.

Definition defaultAnalysis : EmailAnalysis :=
  mkAnalysis (JString "") (JString "FYI") (JNumber 5) (JArray []) (JArray []) (JArray []).

(** [{ ...base, ...o }], read through the six properties. *)
Definition spread_over (base : EmailAnalysis) (o : Json) : EmailAnalysis :=
  mkAnalysis
    (default (summary base) (property "summary" o))
    (default (category base) (property "category" o))
    (default (priority base) (property "priority" o))
    (default (action_items base) (property "action_items" o))
    (default (deadlines base) (property "deadlines" o))
    (default (key_points base) (property "key_points" o)).

(** ** Component state *)

Record GmailStatus := mkStatus {
  loading : bool;
  connected : bool;
  error : string;
  profile : option string;
  lastSync : option string
}.

(** An entry of [analysisState]: [{ loading, error? }]. *)
Record AnalysisFlag := mkFlag {
  a_loading : bool;
  a_error : option string
}.

Record ReplyDraftState := mkDraft {
  d_loading : bool;
  content : string;
  d_error : option string;
  draftId : option string;
  savedAt : option string;
  saving : option bool;
  sending : option bool;
  dirty : option bool;
  notice : option string
}.

(** Outbound HTTP calls.  [rfc822] is the message text of
    [buildReplyMessage]. *)
Inductive Request :=
| ListInbox (bearer : string)
| GetMessage (msgId bearer : string)
| TokenRefresh (refresh_token : string)
| CreateDraft (bearer rfc822 : string) (thread : option string)
| UpdateDraft (draft bearer rfc822 : string) (thread : option string)
| SendMessage (bearer rfc822 : string) (thread : option string)
| AnalyzeEmail (emailId : string).

Definition method (r : Request) : string :=
  match r with
  | ListInbox _ | GetMessage _ _ => "GET"
  | UpdateDraft _ _ _ _ => "PUT"
  | _ => "POST"
  end.

Definition url (r : Request) : string :=
  match r with
  | ListInbox _ =>
      "https://gmail.googleapis.com/gmail/v1/users/me/messages?labelIds=INBOX&maxResults=15"
  | GetMessage i _ =>
      "https://gmail.googleapis.com/gmail/v1/users/me/messages/" +:+ i +:+ "?format=full"
  | TokenRefresh _ => "https://oauth2.googleapis.com/token"
  | CreateDraft _ _ _ => "https://gmail.googleapis.com/gmail/v1/users/me/drafts"
  | UpdateDraft d _ _ _ => "https://gmail.googleapis.com/gmail/v1/users/me/drafts/" +:+ d
  | SendMessage _ _ _ => "https://gmail.googleapis.com/gmail/v1/users/me/messages/send"
  | AnalyzeEmail _ => "https://api.openai.com/v1/chat/completions"
  end.

Record Dashboard := mkDashboard {
  gmailStatus : GmailStatus;
  googleToken : string;
  localStorage : gmap string string;
  emails : list GmailEmail;
  selectedEmailId : option string;
  analyses : gmap string EmailAnalysis;
  analysisState : gmap string AnalysisFlag;
  replyDrafts : gmap string ReplyDraftState;
  net : list Request;
  (** enrichment calls whose answer is still awaited, by email id *)
  pending : list string
}.

Definition initialDashboard : Dashboard :=
  mkDashboard (mkStatus false false "" None None) "" ∅ [] None ∅ ∅ ∅ [] [].

(** State setters, one per [useState] hook. *)
Definition setGmailStatus (f : GmailStatus -> GmailStatus) (s : Dashboard) : Dashboard :=
  mkDashboard (f (gmailStatus s)) (googleToken s) (localStorage s) (emails s)
    (selectedEmailId s) (analyses s) (analysisState s) (replyDrafts s) (net s) (pending s).

Definition setGoogleToken (t : string) (s : Dashboard) : Dashboard :=
  mkDashboard (gmailStatus s) t (localStorage s) (emails s)
    (selectedEmailId s) (analyses s) (analysisState s) (replyDrafts s) (net s) (pending s).

Definition setLocalStorage (f : gmap string string -> gmap string string) (s : Dashboard) : Dashboard :=
  mkDashboard (gmailStatus s) (googleToken s) (f (localStorage s)) (emails s)
    (selectedEmailId s) (analyses s) (analysisState s) (replyDrafts s) (net s) (pending s).

Definition setEmails (l : list GmailEmail) (s : Dashboard) : Dashboard :=
  mkDashboard (gmailStatus s) (googleToken s) (localStorage s) l
    (selectedEmailId s) (analyses s) (analysisState s) (replyDrafts s) (net s) (pending s).

Definition setSelectedEmailId (i : option string) (s : Dashboard) : Dashboard :=
  mkDashboard (gmailStatus s) (googleToken s) (localStorage s) (emails s)
    i (analyses s) (analysisState s) (replyDrafts s) (net s) (pending s).

Definition setAnalyses (f : gmap string EmailAnalysis -> gmap string EmailAnalysis)
    (s : Dashboard) : Dashboard :=
  mkDashboard (gmailStatus s) (googleToken s) (localStorage s) (emails s)
    (selectedEmailId s) (f (analyses s)) (analysisState s) (replyDrafts s) (net s) (pending s).

Definition setAnalysisState (f : gmap string AnalysisFlag -> gmap string AnalysisFlag)
    (s : Dashboard) : Dashboard :=
  mkDashboard (gmailStatus s) (googleToken s) (localStorage s) (emails s)
    (selectedEmailId s) (analyses s) (f (analysisState s)) (replyDrafts s) (net s) (pending s).

Definition setReplyDrafts (f : gmap string ReplyDraftState -> gmap string ReplyDraftState)
    (s : Dashboard) : Dashboard :=
  mkDashboard (gmailStatus s) (googleToken s) (localStorage s) (emails s)
    (selectedEmailId s) (analyses s) (analysisState s) (f (replyDrafts s)) (net s) (pending s).

(** [fetch(...)]: the call goes out. *)
Definition fetch (r : Request) (s : Dashboard) : Dashboard :=
  mkDashboard (gmailStatus s) (googleToken s) (localStorage s) (emails s)
    (selectedEmailId s) (analyses s) (analysisState s) (replyDrafts s) (net s ++ [r]) (pending s).

Definition setPending (f : list string -> list string) (s : Dashboard) : Dashboard :=
  mkDashboard (gmailStatus s) (googleToken s) (localStorage s) (emails s)
    (selectedEmailId s) (analyses s) (analysisState s) (replyDrafts s) (net s) (f (pending s)).

Definition getItem (k : string) (s : Dashboard) : option string := localStorage s !! k.
Definition setItem (k v : string) : Dashboard -> Dashboard := setLocalStorage (insert k v).
Definition removeItem (k : string) : Dashboard -> Dashboard := setLocalStorage (delete k).

(** ** Messages as the provider sends them *)

Inductive Payload :=
| mkPayload (mimeType : option string) (bodyData : option string)
    (headers : list (string * string)) (parts : list Payload).

Record RawMessage := mkRaw {
  raw_id : string;
  raw_threadId : option string;
  raw_snippet : option string;
  raw_internalDate : option string;
  raw_payload : option Payload
}.

(** [html.replace(/<\/?[^>]+(>|$)/g, ' ')]: a tag starts at a [<] that is
    followed by at least one character other than [>], and runs to the next
    [>] or to the end of the input. *)
Fixpoint strip_tags (in_tag : bool) (s : string) : string :=
  match s with
  | EmptyString => EmptyString
  | String c r =>
      if in_tag then
        if Ascii.eqb c ">" then strip_tags false r else strip_tags true r
      else if Ascii.eqb c "<" then
        match r with
        | EmptyString => String c EmptyString
        | String d _ =>
            if Ascii.eqb d ">" then String c (strip_tags false r)
            else String " " (strip_tags true r)
        end
      else String c (strip_tags false r)
  end.

(** [s.replace(/\s+/g, ' ')]. *)
Fixpoint squeeze_spaces (in_sep : bool) (s : string) : string :=
  match s with
  | EmptyString => EmptyString
  | String c r =>
      if Js.is_space c then
        if in_sep then squeeze_spaces true r else String " " (squeeze_spaces true r)
      else String c (squeeze_spaces false r)
  end.

Definition stripHtml (html : string) : string :=
  Js.trim (squeeze_spaces false (strip_tags false html)).

Section Sync.

(** [decodeBase64Url] rests on the browser's [atob] and
    [decodeURIComponent]; it is a parameter of the model. *)
Variable decodeBase64Url : string -> string.

Fixpoint extractBodyFromPayload (payload : Payload) : string :=
  match payload with
  | mkPayload mimeType bodyData _ parts =>
      if bool_decide (mimeType = Some "text/plain") && Js.present bodyData
      then decodeBase64Url (default "" bodyData)
      else if bool_decide (mimeType = Some "text/html") && Js.present bodyData
      then stripHtml (decodeBase64Url (default "" bodyData))
      else
        let fix first_part (ps : list Payload) : string :=
          match ps with
          | [] => ""
          | part :: rest =>
              let result := extractBodyFromPayload part in
              if Js.truthy result then result else first_part rest
          end in
        let result := first_part parts in
        if Js.truthy result then result
        else if Js.present bodyData then decodeBase64Url (default "" bodyData)
        else ""
  end.

(** [message.payload?.headers?.find(h => h.name === name)?.value || ''] *)
Definition headerValue (message : RawMessage) (name : string) : string :=
  match raw_payload message with
  | Some (mkPayload _ _ headers _) =>
      match List.find (fun h => String.eqb (fst h) name) headers with
      | Some h => snd h
      | None => ""
      end
  | None => ""
  end.

(** [None] is a falsy response body ([null]). *)
Definition normalizeMessage (message : option RawMessage) : option GmailEmail :=
  match message with
  | None => None
  | Some m =>
      Some (mkEmail (raw_id m) (raw_threadId m)
              (Some (headerValue m "Message-ID"))
              (Js.or_else (Some (headerValue m "Subject")) "(no subject)")
              (Js.or_else (Some (headerValue m "From")) "Unknown sender")
              (Js.or_else (raw_snippet m) "")
              (match raw_payload m with
               | Some p => extractBodyFromPayload p
               | None => ""
               end)
              (raw_internalDate m))
  end.

(** *** Answers of the outside world *)

(** The answer to one detail call.  The detail calls are all issued
    before any of them is answered; [arrival] orders the failures in
    time. *)
Inductive DetailReply :=
| DetailOk (message : option RawMessage)
| DetailNotOk (arrival : nat)
| DetailThrows (msg : string) (arrival : nat).

(** What the provider answers to one run of [fetchEmails], and, after a
    401, what the token endpoint answers to the refresh and what the
    provider answers to the run that follows it.  A world is the course of
    answers of a run that comes to an end: the chain of a 401, a granted
    refresh and a new cycle is as long as the world says.  The code bounds
    that chain nowhere (see [reissued]), so what is proved of the state
    after [fetchEmails] is proved of the runs that end. *)
Inductive InboxWorld :=
| ListThrows (msg : string)
| ListNotOk (message : option string)
| ListUnauthorized (recovery : TokenWorld)
| ListOk (messages : list (string * DetailReply)) (now : string)
with TokenWorld :=
| TokenThrows
| TokenReplies (access_token error_description : option string) (next : InboxWorld).

(** *** Error classification *)

Fixpoint skip (n : nat) (s : string) : string :=
  match n, s with
  | S n', String _ r => skip n' r
  | _, _ => s
  end.

(** The part of [s] before its first line terminator (LF or CR). *)
Fixpoint first_line (s : string) : string :=
  match s with
  | EmptyString => EmptyString
  | String c r =>
      if Ascii.eqb c "010" || Ascii.eqb c "013" then EmptyString
      else String c (first_line r)
  end.

(** [/invalid.*(credential|token|authentication)/] on a lower-cased
    message. *)
Fixpoint matches_invalid (s : string) : bool :=
  (String.prefix "invalid" s &&
     let rest := first_line (skip 7 s) in
     (Js.includes "credential" rest || Js.includes "token" rest
      || Js.includes "authentication" rest))
  || match s with
     | EmptyString => false
     | String _ r => matches_invalid r
     end.

Definition interpretGmailError (message : string) (s : Dashboard) : string * Dashboard :=
  if Js.includes "insufficient authentication scopes" (Js.toLowerCase message) then
    let enhancedMessage :=
      "Missing permissions: Please reconnect Gmail and accept all requested permissions (compose, modify, and send)." in
    (enhancedMessage,
     setGmailStatus (fun prev =>
       mkStatus (loading prev) false enhancedMessage (profile prev) (lastSync prev)) s)
  else if matches_invalid (Js.toLowerCase message) then
    ("Authentication expired. Please reconnect to Gmail.", s)
  else (message, s).

(** *** Sync cycle and credential recovery *)

(** The failure that arrives first among [msg], which arrives at
    [arrival], and those of [rest]. *)
Fixpoint earliest (msg : string) (arrival : nat) (rest : list DetailReply) : string :=
  match rest with
  | [] => msg
  | DetailOk _ :: rest => earliest msg arrival rest
  | DetailNotOk a :: rest =>
      if (a <? arrival)%nat then earliest "Unable to read full message." a rest
      else earliest msg arrival rest
  | DetailThrows m a :: rest =>
      if (a <? arrival)%nat then earliest m a rest else earliest msg arrival rest
  end.

(** [Promise.all]: every detail must be there, else the failure that
    arrives first. *)
Fixpoint all_details (replies : list DetailReply) : string + list (option RawMessage) :=
  match replies with
  | [] => inr []
  | DetailOk m :: rest =>
      match all_details rest with
      | inr ms => inr (m :: ms)
      | inl e => inl e
      end
  | DetailNotOk arrival :: rest => inl (earliest "Unable to read full message." arrival rest)
  | DetailThrows msg arrival :: rest => inl (earliest msg arrival rest)
  end.

(** The [catch] block of [fetchEmails]. *)
Definition fetchEmails_catch (msg : string) (s : Dashboard) : Dashboard :=
  let '(message, s) := interpretGmailError msg s in
  setGmailStatus (fun prev =>
    mkStatus false (connected prev) message (profile prev) (lastSync prev)) s.

(** The [catch] block of [refreshAccessToken]. *)
Definition refreshAccessToken_catch (s : Dashboard) : Dashboard :=
  let s := setGoogleToken "" s in
  let s := removeItem "gmail_access_token" s in
  let s := removeItem "gmail_refresh_token" s in
  setGmailStatus (fun prev =>
    mkStatus false false "Session expired. Please reconnect to Gmail." (profile prev) None) s.

(** [handle401Error], with the refresh it may start as an argument. *)
Definition handle401Error_with (refresh : string -> Dashboard -> Dashboard)
    (s : Dashboard) : Dashboard :=
  let s := setGoogleToken "" s in
  let s := removeItem "gmail_access_token" s in
  let refreshToken := getItem "gmail_refresh_token" s in
  if Js.present refreshToken then refresh (default "" refreshToken) s
  else
    setGmailStatus (fun prev =>
      mkStatus false false "Authentication expired. Please reconnect to Gmail."
        (profile prev) None) s.

Fixpoint fetchEmails (w : InboxWorld) (accessToken : option string) (s : Dashboard)
    {struct w} : Dashboard :=
  let token := Js.or_else accessToken (googleToken s) in
  if negb (Js.truthy token) then
    setGmailStatus (fun prev =>
      mkStatus (loading prev) (connected prev) "Connect Gmail first."
        (profile prev) (lastSync prev)) s
  else
    let s := setGmailStatus (fun prev =>
               mkStatus true (connected prev) "" (profile prev) (lastSync prev)) s in
    let s := fetch (ListInbox token) s in
    match w with
    | ListThrows msg => fetchEmails_catch msg s
    | ListNotOk message => fetchEmails_catch (Js.or_else message "Unable to load inbox.") s
    | ListUnauthorized recovery => handle401Error_with (refreshAccessToken recovery) s
    | ListOk [] now =>
        let s := setEmails [] s in
        let s := setSelectedEmailId None s in
        setGmailStatus (fun prev =>
          mkStatus false true (error prev) (profile prev) (Some now)) s
    | ListOk messageIds now =>
        let s := fold_left (fun s m => fetch (GetMessage (fst m) token) s) messageIds s in
        match all_details (map snd messageIds) with
        | inl msg => fetchEmails_catch msg s
        | inr detailed =>
            let normalized := omap normalizeMessage detailed in
            let s := setEmails normalized s in
            let s := setSelectedEmailId (id <$> head normalized) s in
            setGmailStatus (fun prev =>
              mkStatus false true "" (profile prev) (Some now)) s
        end
    end
with refreshAccessToken (r : TokenWorld) (refreshToken : string) (s : Dashboard)
    {struct r} : Dashboard :=
  let s := fetch (TokenRefresh refreshToken) s in
  match r with
  | TokenThrows => refreshAccessToken_catch s
  | TokenReplies access_token error_description next =>
      if Js.present access_token then
        let newToken := default "" access_token in
        let s := setGoogleToken newToken s in
        let s := setItem "gmail_access_token" newToken s in
        let s := setGmailStatus (fun prev =>
                   mkStatus (loading prev) true "" (profile prev) (lastSync prev)) s in
        fetchEmails next (Some newToken) s
      else refreshAccessToken_catch s
  end.

Definition handle401Error (recovery : TokenWorld) : Dashboard -> Dashboard :=
  handle401Error_with (refreshAccessToken recovery).

End Sync.

(** ** Reply drafts *)

(** One property of a [Partial<ReplyDraftState>] literal. *)
Inductive DraftField :=
| Loading (b : bool)
| Content (c : string)
| Error (e : string)
| DraftId (i : option string)
| SavedAt (t : string)
| Saving (b : bool)
| Sending (b : bool)
| Dirty (b : bool)
| Notice (n : string).

Definition assign (d : ReplyDraftState) (f : DraftField) : ReplyDraftState :=
  match f with
  | Loading b =>
      mkDraft b (content d) (d_error d) (draftId d) (savedAt d) (saving d) (sending d) (dirty d) (notice d)
  | Content c =>
      mkDraft (d_loading d) c (d_error d) (draftId d) (savedAt d) (saving d) (sending d) (dirty d) (notice d)
  | Error e =>
      mkDraft (d_loading d) (content d) (Some e) (draftId d) (savedAt d) (saving d) (sending d) (dirty d) (notice d)
  | DraftId i =>
      mkDraft (d_loading d) (content d) (d_error d) i (savedAt d) (saving d) (sending d) (dirty d) (notice d)
  | SavedAt t =>
      mkDraft (d_loading d) (content d) (d_error d) (draftId d) (Some t) (saving d) (sending d) (dirty d) (notice d)
  | Saving b =>
      mkDraft (d_loading d) (content d) (d_error d) (draftId d) (savedAt d) (Some b) (sending d) (dirty d) (notice d)
  | Sending b =>
      mkDraft (d_loading d) (content d) (d_error d) (draftId d) (savedAt d) (saving d) (Some b) (dirty d) (notice d)
  | Dirty b =>
      mkDraft (d_loading d) (content d) (d_error d) (draftId d) (savedAt d) (saving d) (sending d) (Some b) (notice d)
  | Notice n =>
      mkDraft (d_loading d) (content d) (d_error d) (draftId d) (savedAt d) (saving d) (sending d) (dirty d) (Some n)
  end.

(** [{ loading: false, content: '' }] *)
Definition blankDraft : ReplyDraftState :=
  mkDraft false "" None None None None None None None.

Definition patchReplyDraft (emailId : string) (patch : list DraftField) : Dashboard -> Dashboard :=
  setReplyDrafts (fun prev =>
    let existing := default blankDraft (prev !! emailId) in
    <[emailId := fold_left assign patch existing]> prev).

Definition handleDraftContentChange (emailId value : string) : Dashboard -> Dashboard :=
  patchReplyDraft emailId [Content value; Dirty true; Error ""; Notice ""].

Section Drafts.

Variable decodeBase64Url : string -> string.

(** The provider's answer to a draft write. *)
Inductive DraftWorld :=
| DraftThrows (msg : string)
| DraftNotOk (message : option string)
| DraftUnauthorized (recovery : TokenWorld)
| DraftOk (data_id data_message_id : option string) (now : string).

(** The provider's answer to a send, and to the sync that follows it. *)
Inductive SendWorld :=
| SendThrows (msg : string)
| SendNotOk (message : option string)
| SendUnauthorized (recovery : TokenWorld)
| SendOk (resync : InboxWorld).

Definition saveDraftEdits_catch (email : GmailEmail) (msg : string) (s : Dashboard) : Dashboard :=
  let '(message, s) := interpretGmailError msg s in
  patchReplyDraft (id email) [Saving false; Error message] s.

Definition saveDraftEdits (w : DraftWorld) (email : GmailEmail) (s : Dashboard) : Dashboard :=
  let draftMeta := replyDrafts s !! id email in
  let body := Js.trim <$> (content <$> draftMeta) in
  if negb (Js.present body) then
    patchReplyDraft (id email) [Error "Draft is empty. Add text before saving."] s
  else
    let body := default "" body in
    let s := patchReplyDraft (id email) [Saving true; Notice ""] s in
    if negb (Js.truthy (googleToken s)) then saveDraftEdits_catch email "Connect Gmail first." s
    else
      let token := googleToken s in
      match getReplyEnvelope email with
      | inl msg => saveDraftEdits_catch email msg s
      | inr envelope =>
          let rfc822 :=
            buildReplyMessage (recipient envelope) (replySubject envelope) body (messageId email) in
          let existingId := draftMeta ≫= draftId in
          let s :=
            if Js.present existingId
            then fetch (UpdateDraft (default "" existingId) token rfc822 (threadId email)) s
            else fetch (CreateDraft token rfc822 (threadId email)) s in
          match w with
          | DraftThrows msg => saveDraftEdits_catch email msg s
          | DraftNotOk message =>
              saveDraftEdits_catch email (Js.or_else message "Unable to save draft.") s
          | DraftUnauthorized recovery =>
              let s := handle401Error decodeBase64Url recovery s in
              patchReplyDraft (id email) [Saving false; Error "Authentication expired"] s
          | DraftOk data_id data_message_id now =>
              patchReplyDraft (id email)
                [ Saving false; Dirty false;
                  DraftId (if Js.present data_id then data_id else data_message_id);
                  SavedAt now; Notice "Draft saved to Gmail."; Error "" ] s
          end
      end.

Definition sendReply_catch (email : GmailEmail) (msg : string) (s : Dashboard) : Dashboard :=
  let '(message, s) := interpretGmailError msg s in
  patchReplyDraft (id email) [Sending false; Error message] s.

Definition sendReply (w : SendWorld) (email : GmailEmail) (s : Dashboard) : Dashboard :=
  let draftMeta := replyDrafts s !! id email in
  let body := Js.trim <$> (content <$> draftMeta) in
  if negb (Js.present body) then
    patchReplyDraft (id email) [Error "Draft is empty. Add text before sending."] s
  else
    let body := default "" body in
    let s := patchReplyDraft (id email) [Sending true; Notice ""] s in
    if negb (Js.truthy (googleToken s)) then sendReply_catch email "Connect Gmail first." s
    else
      let token := googleToken s in
      match getReplyEnvelope email with
      | inl msg => sendReply_catch email msg s
      | inr envelope =>
          let rfc822 :=
            buildReplyMessage (recipient envelope) (replySubject envelope) body (messageId email) in
          let s := fetch (SendMessage token rfc822 (threadId email)) s in
          match w with
          | SendThrows msg => sendReply_catch email msg s
          | SendNotOk message =>
              sendReply_catch email (Js.or_else message "Unable to send reply.") s
          | SendUnauthorized recovery =>
              let s := handle401Error decodeBase64Url recovery s in
              patchReplyDraft (id email) [Sending false; Error "Authentication expired"] s
          | SendOk resync =>
              let s := patchReplyDraft (id email)
                         [Sending false; Dirty false; Notice "Reply sent!"; Error ""] s in
              fetchEmails decodeBase64Url resync (Some token) s
          end
      end.

End Drafts.

(** ** Enrichment *)

Inductive ContentPart :=
| PartString (text : string)
| PartObject (type text : option string).

(** [message.content] of a chat completion. *)
Inductive MessageContent :=
| ContentString (text : string)
| ContentParts (parts : list ContentPart).

Definition extractMessageContent (message : option MessageContent) : string :=
  match message with
  | None => ""
  | Some (ContentString text) => text
  | Some (ContentParts parts) =>
      String.concat (String "010" EmptyString)
        (map (fun part =>
                match part with
                | PartString text => text
                | PartObject type text =>
                    if bool_decide (type = Some "text") then Js.or_else text "" else ""
                end) parts)
  end.

(** The completion service's answer to one analysis request. *)
Inductive AiReply :=
| AiThrows (msg : string)
| AiNotOk (message : option string)
| AiOk (message : option MessageContent).

Fixpoint remove_first (i : string) (l : list string) : list string :=
  match l with
  | [] => []
  | j :: rest => if String.eqb i j then rest else j :: remove_first i rest
  end.

Section Enrichment.

(** [OPENAI_API_KEY] of [config.ts]. *)
Variable OPENAI_API_KEY : option string.
(** [JSON.parse]: the parsed value, or the message of the [SyntaxError]. *)
Variable JSON_parse : string -> string + Json.

Definition openAiKey : string := Js.trim (Js.or_else OPENAI_API_KEY "").

Definition runAnalysis_catch (email : GmailEmail) (msg : string) : Dashboard -> Dashboard :=
  setAnalysisState (insert (id email) (mkFlag false (Some msg))).

(** [runAnalysis] up to its first [await]: the request goes out. *)
Definition runAnalysis_start (email : GmailEmail) (s : Dashboard) : Dashboard :=
  if negb (Js.truthy openAiKey) then
    setAnalysisState
      (insert (id email) (mkFlag false (Some "Set OPENAI_API_KEY in config.ts."))) s
  else
    let s := setAnalysisState (insert (id email) (mkFlag true None)) s in
    let s := fetch (AnalyzeEmail (id email)) s in
    setPending (fun l => (l ++ [id email])%list) s.

(** [runAnalysis] from the answer on. *)
Definition runAnalysis_settle (email : GmailEmail) (focus : option bool) (reply : AiReply)
    (s : Dashboard) : Dashboard :=
  let s := setPending (remove_first (id email)) s in
  match reply with
  | AiThrows msg => runAnalysis_catch email msg s
  | AiNotOk message => runAnalysis_catch email (Js.or_else message "OpenAI call failed.") s
  | AiOk message =>
      let content := Js.or_else (Some (extractMessageContent message)) "{}" in
      match JSON_parse content with
      | inl msg => runAnalysis_catch email msg s
      | inr value =>
          let parsed := spread_over defaultAnalysis value in
          let s := setAnalyses (insert (id email) parsed) s in
          let s := setAnalysisState (insert (id email) (mkFlag false None)) s in
          if bool_decide (focus = Some false) then s
          else setSelectedEmailId (Some (id email)) s
      end
  end.

(** The whole call, when nothing else happens in between. *)
Definition runAnalysis (email : GmailEmail) (focus : option bool) (reply : AiReply)
    (s : Dashboard) : Dashboard :=
  if negb (Js.truthy openAiKey) then runAnalysis_start email s
  else runAnalysis_settle email focus reply (runAnalysis_start email s).

(** The predicate of the scheduling effect's [emails.find]. *)
Definition awaits_analysis (s : Dashboard) (email : GmailEmail) : bool :=
  let state := analysisState s !! id email in
  negb (bool_decide (is_Some (analyses s !! id email)))
  && negb (default false (a_loading <$> state)).

(** The scheduling effect; it runs after every render in which [emails],
    [analyses] or [analysisState] has changed. *)
Definition scheduleEnrichment (s : Dashboard) : Dashboard :=
  if negb (Js.truthy openAiKey) || negb (0 <? length (emails s))%nat then s
  else
    match List.find (awaits_analysis s) (emails s) with
    | None => s
    | Some nextEmail => runAnalysis_start nextEmail s
    end.

End Enrichment.

(** ** The component as a transition system *)

Section Events.

Variable decodeBase64Url : string -> string.
Variable OPENAI_API_KEY : option string.
Variable JSON_parse : string -> string + Json.

(** What can happen to the mounted component, as far as sync and
    enrichment go: a render after which the scheduling effect runs, the
    answer to an outstanding enrichment call, a sync cycle. *)
Inductive Event :=
| Render
| Answer (email : GmailEmail) (reply : AiReply)
| Sync (w : InboxWorld) (accessToken : option string).

Definition step (s : Dashboard) (ev : Event) : Dashboard :=
  match ev with
  | Render => scheduleEnrichment OPENAI_API_KEY s
  | Answer email reply =>
      if bool_decide (id email ∈ pending s)
      then runAnalysis_settle JSON_parse email (Some false) reply s
      else s
  | Sync w accessToken => fetchEmails decodeBase64Url w accessToken s
  end.

Definition run (evs : list Event) (s : Dashboard) : Dashboard := fold_left step evs s.

End Events.

(** Which calls of [fetchEmails] publish nothing at all: the cycle fails,
    and so does the cycle that a granted refresh re-issues after a 401. *)
Definition detail_failed (r : DetailReply) : bool :=
  match r with
  | DetailOk _ => false
  | _ => true
  end.

Fixpoint sync_fails (w : InboxWorld) : bool :=
  match w with
  | ListThrows _ | ListNotOk _ => true
  | ListUnauthorized recovery => recovery_fails recovery
  | ListOk messages _ => existsb (fun m => detail_failed (snd m)) messages
  end
with recovery_fails (r : TokenWorld) : bool :=
  match r with
  | TokenThrows => true
  | TokenReplies access_token _ next =>
      if Js.present access_token then sync_fails next else true
  end.

(** The cycle itself fails: its list call, or one of its detail calls. *)
Definition cycle_fails (w : InboxWorld) : bool :=
  match w with
  | ListThrows _ | ListNotOk _ | ListUnauthorized _ => true
  | ListOk messages _ => existsb (fun m => detail_failed (snd m)) messages
  end.

Definition list_unauthorized (w : InboxWorld) : bool :=
  match w with
  | ListUnauthorized _ => true
  | _ => false
  end.

(** The token endpoint turns the refresh down: no usable access token
    comes back. *)
Definition refresh_rejected (r : TokenWorld) : bool :=
  match r with
  | TokenThrows => true
  | TokenReplies access_token _ _ => negb (Js.present access_token)
  end.

(** The schema of the insight record, as the request declares it. *)
Definition category_in_enum (j : Json) : bool :=
  match j with
  | JString c =>
      bool_decide (c ∈ ["Urgent"; "Action Needed"; "Waiting on Others"; "FYI"])
  | _ => false
  end.

Definition priority_in_bounds (j : Json) : bool :=
  match j with
  | JNumber n => ((1 <=? n) && (n <=? 10))%Z
  | _ => false
  end.

Definition required_fields : list string :=
  ["summary"; "category"; "priority"; "action_items"; "deadlines"; "key_points"].

Definition schema_valid (payload : Json) : bool :=
  forallb (fun k => bool_decide (is_Some (property k payload))) required_fields
  && category_in_enum (default JNull (property "category" payload))
  && priority_in_bounds (default JNull (property "priority" payload)).

(** What a run leaves alone.  [only_status_changed]: everything but
    [gmailStatus] and the call log.  [snapshot_kept]: the published
    messages and the selection, with all that is keyed by message id. *)
Definition only_status_changed (s s' : Dashboard) : Prop :=
  googleToken s' = googleToken s /\ localStorage s' = localStorage s
  /\ emails s' = emails s /\ selectedEmailId s' = selectedEmailId s
  /\ analyses s' = analyses s /\ analysisState s' = analysisState s
  /\ replyDrafts s' = replyDrafts s /\ pending s' = pending s.

Definition snapshot_kept (s s' : Dashboard) : Prop :=
  emails s' = emails s /\ selectedEmailId s' = selectedEmailId s
  /\ analyses s' = analyses s /\ analysisState s' = analysisState s
  /\ replyDrafts s' = replyDrafts s /\ pending s' = pending s.

(** Enrichment data and drafts: what no sync cycle touches. *)
Definition enrichment_kept (s s' : Dashboard) : Prop :=
  analyses s' = analyses s /\ analysisState s' = analysisState s
  /\ replyDrafts s' = replyDrafts s /\ pending s' = pending s.

Scheme InboxWorld_mut := Induction for InboxWorld Sort Prop
  with TokenWorld_mut := Induction for TokenWorld Sort Prop.
Combined Scheme world_mutind from InboxWorld_mut, TokenWorld_mut.

(** The text that a save or a send would transmit: [draftMeta?.content?.trim()]. *)
Definition draft_body (s : Dashboard) (email : GmailEmail) : option string :=
  Js.trim <$> (content <$> replyDrafts s !! id email).

(** The draft write that [saveDraftEdits] issues for a record. *)
Definition draft_write (s : Dashboard) (email : GmailEmail) (envelope : ReplyEnvelope) : Request :=
  let rfc822 :=
    buildReplyMessage (recipient envelope) (replySubject envelope)
      (default "" (draft_body s email)) (messageId email) in
  let existingId := replyDrafts s !! id email ≫= draftId in
  if Js.present existingId
  then UpdateDraft (default "" existingId) (googleToken s) rfc822 (threadId email)
  else CreateDraft (googleToken s) rfc822 (threadId email).

(** The calls of a sync cycle and of the credential recovery. *)
Definition sync_call (r : Request) : Prop :=
  match r with
  | ListInbox _ | GetMessage _ _ | TokenRefresh _ => True
  | _ => False
  end.






(** [s'] has the log of [s] and, after it, such calls only. *)
Definition extends_by_sync (s s' : Dashboard) : Prop :=
  exists calls, net s' = net s ++ calls /\ Forall sync_call calls.

(** Sample data for the closed instances below. *)
Definition sample_email : GmailEmail :=
  mkEmail "m0" (Some "t0") (Some "<m0@mail>") "Hello" "Jane Doe <jane@example.com>"
    "Hi" "Hi there" None.

Definition sample_state : Dashboard :=
  mkDashboard (mkStatus false true "" (Some "me@example.com") (Some "2024-01-01T00:00:00.000Z"))
    "token-1" (<["gmail_access_token" := "token-1"]> (<["gmail_refresh_token" := "refresh-1"]> ∅))
    [sample_email] (Some "m0") ∅ ∅ ∅ [] [].

Definition sample_raw (i : string) : RawMessage :=
  mkRaw i (Some "t1") (Some "snippet") None
    (Some (mkPayload (Some "text/plain") (Some "SGk") [("Subject", "Report"); ("From", "bob@example.com")] [])).

Definition sample_draft_state : Dashboard :=
  handleDraftContentChange "m0" "Thanks, will do." sample_state.

Definition sample_saved_state : Dashboard :=
  saveDraftEdits (fun x => x) (DraftOk (Some "r-1") None "2024-01-03T00:00:00.000Z")
    sample_email sample_draft_state.

Definition sample_saved_draft : ReplyDraftState :=
  mkDraft false "Thanks, will do." (Some "") (Some "r-1") (Some "2024-01-03T00:00:00.000Z")
    (Some false) None (Some false) (Some "Draft saved to Gmail.").

Definition sample_blank_state : Dashboard :=
  handleDraftContentChange "m0" "   " sample_saved_state.

Definition sample_envelope : ReplyEnvelope := mkEnvelope "jane@example.com" "Re: Hello".

(** [sample_raw i], normalised with the identity for [decodeBase64Url]. *)
Definition sample_normalized (i : string) : GmailEmail :=
  mkEmail i (Some "t1") (Some "") "Report" "bob@example.com" "snippet" "SGk" None.

Definition sample_inbox : InboxWorld :=
  ListOk [("m1", DetailOk (Some (sample_raw "m1"))); ("m2", DetailOk (Some (sample_raw "m2")))]
    "2024-01-02T00:00:00.000Z".

(** A response that is JSON but not an insight record: no summary, a
    category outside the enum, a priority outside 1..10. *)
Definition off_schema_payload : Json :=
  JObject [("category", JString "Spam"); ("priority", JNumber 99)].

(** The scheduling invariant: a message has at most one outstanding call,
    and every outstanding call has its in-flight marker set. *)
Definition pending_marked (s : Dashboard) : Prop :=
  NoDup (pending s)
  /\ forall i, i ∈ pending s -> a_loading <$> (analysisState s !! i) = Some true.

(** * Further definitions *)

(** [n] rounds of a list call answered 401 and of a refresh that grants
    [newToken], before the course [w]. *)
Fixpoint reissued (n : nat) (newToken : string) (w : InboxWorld) : InboxWorld :=
  match n with
  | 0 => w
  | S k => ListUnauthorized (TokenReplies (Some newToken) None (reissued k newToken w))
  end.

Definition is_list_call (r : Request) : bool :=
  match r with
  | ListInbox _ => true
  | _ => false
  end.

(** The number of list calls issued so far. *)
Definition list_calls (s : Dashboard) : nat := length (List.filter is_list_call (net s)).

(** The token in memory and the stored access token agree: both absent,
    or the same token. *)
Definition tokens_agree (s : Dashboard) : Prop :=
  if Js.truthy (googleToken s)
  then localStorage s !! "gmail_access_token" = Some (googleToken s)
  else localStorage s !! "gmail_access_token" = None.

(** What sync and recovery may do to [localStorage]: write the access
    token, and remove the refresh token; nothing else. *)
Definition storage_frame (s s' : Dashboard) : Prop :=
  (forall k, k <> "gmail_access_token" -> k <> "gmail_refresh_token" ->
             localStorage s' !! k = localStorage s !! k)
  /\ (localStorage s' !! "gmail_refresh_token" = localStorage s !! "gmail_refresh_token"
      \/ localStorage s' !! "gmail_refresh_token" = None).

(** No token in memory only when disconnected. *)
Definition token_or_disconnected (s : Dashboard) : Prop :=
  googleToken s = "" -> connected (gmailStatus s) = false.

(** No white space anywhere in the text. *)
Fixpoint no_space (s : string) : bool :=
  match s with
  | EmptyString => true
  | String c r => negb (Js.is_space c) && no_space r
  end.

(** No tag is left in the text: a [<] is its last character or is
    followed by [>]. *)
Fixpoint tag_free (s : string) : bool :=
  match s with
  | EmptyString => true
  | String c r =>
      (if Ascii.eqb c "<"
       then match r with
            | EmptyString => true
            | String d _ => Ascii.eqb d ">"
            end
       else true)
      && tag_free r
  end.

(** White space occurs in the text only as single blanks; [after_space]
    tells that the character before the text is white space. *)
Fixpoint single_spaced (after_space : bool) (s : string) : bool :=
  match s with
  | EmptyString => true
  | String c r =>
      if Js.is_space c
      then Ascii.eqb c " " && negb after_space && single_spaced true r
      else single_spaced false r
  end.

(** The messages of the snapshot that the scheduling effect would still
    pick: no insight record, no in-flight marker. *)
Definition awaiting (s : Dashboard) : list GmailEmail :=
  filter (fun email => awaits_analysis s email = true) (emails s).

Definition is_sync (ev : Event) : bool :=
  match ev with
  | Sync _ _ => true
  | _ => false
  end.

(** ** Derived views *)

(** [Boolean(j)] for a parsed value. *)
Definition json_truthy (j : Json) : bool :=
  match j with
  | JNull => false
  | JBool b => b
  | JNumber n => negb (n =? 0)%Z
  | JString s => Js.truthy s
  | JArray _ | JObject _ => true
  end.

(** [Boolean(j?.length)]: a string and an array have a length, an object
    has the one that it holds under that name. *)
Definition has_length (j : Json) : bool :=
  match j with
  | JString s => Js.truthy s
  | JArray items => (0 <? length items)%nat
  | JObject _ => json_truthy (default JNull (property "length" j))
  | JNull | JBool _ | JNumber _ => false
  end.

(** The messages of the snapshot that have an insight record. *)
Definition analyzedEmails (s : Dashboard) : list GmailEmail :=
  filter (fun email => is_Some (analyses s !! id email)) (emails s).

Record DeadlineEntry := mkDeadline {
  dl_emailId : string;
  dl_subject : string;
  dl_deadline : Json;
  dl_priority : Json
}.

(** The callback of the [flatMap] of [deadlineHighlights]; [None] when it
    throws: of the parsed values only an array has [map]. *)
Definition deadlines_of (s : Dashboard) (email : GmailEmail) : option (list DeadlineEntry) :=
  match analyses s !! id email with
  | None => Some []
  | Some analysis =>
      if negb (has_length (deadlines analysis)) then Some []
      else
        match deadlines analysis with
        | JArray items =>
            Some (map (fun deadline =>
                         mkDeadline (id email) (subject email) deadline (priority analysis))
                    items)
        | _ => None
        end
  end.

(** [None]: the computation throws, and the render with it. *)
Definition deadlineHighlights (s : Dashboard) : option (list DeadlineEntry) :=
  (fun found => take 5 (mjoin found)) <$> mapM (deadlines_of s) (analyzedEmails s).

(** ** The rest of the component: mailbox actions, reply generation,
    start-up and authorization

    These functions use state and calls that [Dashboard] and [Request] do
    not have: the per-message action flags, and the calls that archive,
    trash, draft a reply with the completion service, exchange an
    authorization code and read the profile.  A [Session] holds the
    dashboard, the action flags and one log of all calls in the order in
    which they are issued; a step taken on the dashboard adds the calls it
    appended to [net]. *)

Inductive DigestMode := Morning | Evening.

Inductive Call :=
| Gmail (r : Request)
| ModifyLabels (msgId bearer : string)
| TrashMessage (msgId bearer : string)
| DraftCompletion (emailId : string)
| DigestCompletion (mode : DigestMode)
| StartOAuthFlow (clientId : string)
| CodeExchange (code client_id client_secret redirect_uri code_verifier : string)
| UserInfo (bearer : string)
| RequestAccessToken (client_id : string).

(** An entry of [messageActionState]. *)
Record ActionState := mkAction {
  archiving : option bool;
  trashing : option bool;
  act_error : option string
}.

Inductive ActionField :=
| Archiving (b : bool)
| Trashing (b : bool)
| ActError (e : string).

Definition assign_action (a : ActionState) (f : ActionField) : ActionState :=
  match f with
  | Archiving b => mkAction (Some b) (trashing a) (act_error a)
  | Trashing b => mkAction (archiving a) (Some b) (act_error a)
  | ActError e => mkAction (archiving a) (trashing a) (Some e)
  end.

Record Session := mkSession {
  dashboard : Dashboard;
  messageActionState : gmap string ActionState;
  calls : list Call
}.

(** The calls that a step appended to the log of the dashboard. *)
Definition new_calls (d d' : Dashboard) : list Request :=
  skipn (length (net d)) (net d').

Definition on_dashboard (f : Dashboard -> Dashboard) (ss : Session) : Session :=
  let d' := f (dashboard ss) in
  mkSession d' (messageActionState ss)
    (calls ss ++ map Gmail (new_calls (dashboard ss) d')).

Definition call (c : Call) (ss : Session) : Session :=
  mkSession (dashboard ss) (messageActionState ss) (calls ss ++ [c]).

Definition updateMessageAction (emailId : string) (patch : list ActionField)
    (ss : Session) : Session :=
  mkSession (dashboard ss)
    (<[emailId := fold_left assign_action patch
                    (default (mkAction None None None) (messageActionState ss !! emailId))]>
       (messageActionState ss))
    (calls ss).

(** [interpretGmailError] on the dashboard of the session. *)
Definition interpretError (msg : string) (ss : Session) : string * Session :=
  let '(message, d') := interpretGmailError msg (dashboard ss) in
  (message, mkSession d' (messageActionState ss) (calls ss)).

Section Actions.

Variable decodeBase64Url : string -> string.

(** The provider's answer to an archive or a trash, and to the sync that
    follows a success. *)
Inductive ActionWorld :=
| ActionThrows (msg : string)
| ActionNotOk (message : option string)
| ActionUnauthorized (recovery : TokenWorld)
| ActionOk (resync : InboxWorld).

Definition archiveEmail_catch (email : GmailEmail) (msg : string) (ss : Session) : Session :=
  let '(message, ss) := interpretError msg ss in
  updateMessageAction (id email) [Archiving false; ActError message] ss.

Definition archiveEmail (w : ActionWorld) (email : GmailEmail) (ss : Session) : Session :=
  let ss := updateMessageAction (id email) [Archiving true; ActError ""] ss in
  if negb (Js.truthy (googleToken (dashboard ss)))
  then archiveEmail_catch email "Connect Gmail first." ss
  else
    let token := googleToken (dashboard ss) in
    let ss := call (ModifyLabels (id email) token) ss in
    match w with
    | ActionThrows msg => archiveEmail_catch email msg ss
    | ActionNotOk message =>
        archiveEmail_catch email (Js.or_else message "Unable to archive email.") ss
    | ActionUnauthorized recovery =>
        let ss := on_dashboard (handle401Error decodeBase64Url recovery) ss in
        updateMessageAction (id email) [Archiving false] ss
    | ActionOk resync =>
        let ss := updateMessageAction (id email) [Archiving false] ss in
        on_dashboard (fetchEmails decodeBase64Url resync (Some token)) ss
    end.

Definition trashEmail_catch (email : GmailEmail) (msg : string) (ss : Session) : Session :=
  let '(message, ss) := interpretError msg ss in
  updateMessageAction (id email) [Trashing false; ActError message] ss.

Definition trashEmail (w : ActionWorld) (email : GmailEmail) (ss : Session) : Session :=
  let ss := updateMessageAction (id email) [Trashing true; ActError ""] ss in
  if negb (Js.truthy (googleToken (dashboard ss)))
  then trashEmail_catch email "Connect Gmail first." ss
  else
    let token := googleToken (dashboard ss) in
    let ss := call (TrashMessage (id email) token) ss in
    match w with
    | ActionThrows msg => trashEmail_catch email msg ss
    | ActionNotOk message =>
        trashEmail_catch email (Js.or_else message "Unable to delete email.") ss
    | ActionUnauthorized recovery =>
        let ss := on_dashboard (handle401Error decodeBase64Url recovery) ss in
        updateMessageAction (id email) [Trashing false] ss
    | ActionOk resync =>
        let ss := updateMessageAction (id email) [Trashing false] ss in
        on_dashboard (fetchEmails decodeBase64Url resync (Some token)) ss
    end.

(** *** Reply generation *)

Variable OPENAI_API_KEY : option string.

(** The completion service's answer to the drafting request and, when a
    text came back, the provider's answer to the creation of the draft. *)
Inductive GenerateWorld :=
| DraftingThrows (msg : string)
| DraftingNotOk (message : option string)
| DraftingOk (message : option MessageContent) (created : DraftWorld).

Definition generateReplyDraft_catch (email : GmailEmail) (msg : string) (ss : Session) : Session :=
  let '(message, ss) := interpretError msg ss in
  on_dashboard (patchReplyDraft (id email) [Loading false; Content ""; Error message]) ss.

Definition generateReplyDraft (w : GenerateWorld) (email : GmailEmail) (ss : Session) : Session :=
  if negb (Js.truthy (openAiKey OPENAI_API_KEY)) then
    on_dashboard
      (patchReplyDraft (id email)
         [Loading false; Content ""; Error "Set OPENAI_API_KEY in config.ts."]) ss
  else
    let ss := on_dashboard
                (patchReplyDraft (id email)
                   [Loading true; Error ""; DraftId None; Notice ""; Dirty false]) ss in
    if negb (Js.truthy (googleToken (dashboard ss)))
    then generateReplyDraft_catch email "Connect Gmail first." ss
    else
      let token := googleToken (dashboard ss) in
      let ss := call (DraftCompletion (id email)) ss in
      match w with
      | DraftingThrows msg => generateReplyDraft_catch email msg ss
      | DraftingNotOk message =>
          generateReplyDraft_catch email (Js.or_else message "Unable to draft reply.") ss
      | DraftingOk message created =>
          let draftText := Js.trim (Js.or_else (Some (extractMessageContent message)) "") in
          if negb (Js.truthy draftText)
          then generateReplyDraft_catch email "Model returned an empty draft." ss
          else
            match getReplyEnvelope email with
            | inl msg => generateReplyDraft_catch email msg ss
            | inr envelope =>
                let rfc822 :=
                  buildReplyMessage (recipient envelope) (replySubject envelope) draftText
                    (messageId email) in
                let ss := on_dashboard (fetch (CreateDraft token rfc822 (threadId email))) ss in
                match created with
                | DraftThrows msg => generateReplyDraft_catch email msg ss
                | DraftNotOk message =>
                    generateReplyDraft_catch email
                      (Js.or_else message "Unable to save draft in Gmail.") ss
                | DraftUnauthorized recovery =>
                    let ss := on_dashboard (handle401Error decodeBase64Url recovery) ss in
                    on_dashboard
                      (patchReplyDraft (id email)
                         [Loading false; Error "Authentication expired"]) ss
                | DraftOk data_id data_message_id now =>
                    on_dashboard
                      (patchReplyDraft (id email)
                         [ Loading false; Content draftText;
                           DraftId (if Js.present data_id then data_id else data_message_id);
                           SavedAt now; Error ""; Notice "Draft saved to Gmail.";
                           Dirty false ]) ss
                end
            end
      end.

(** *** Digest *)

Record DigestState := mkDigest {
  mode : DigestMode;
  dg_loading : bool;
  dg_content : string;
  dg_error : string
}.

(** The completion service's answer to the digest request. *)
Inductive DigestWorld :=
| DigestThrows (msg : string)
| DigestNotOk (message : option string)
| DigestOk (message : option MessageContent).

(** [generateDigest] up to its [await]: the guards, the spinner and the
    request, which carries the mode of the render in which the function
    was created. *)
Definition generateDigest_start (s : Dashboard) (digestState : DigestState)
    : DigestState * list Call :=
  if negb (0 <? length (emails s))%nat then
    (mkDigest (mode digestState) (dg_loading digestState) (dg_content digestState)
       "Import at least one email first.", [])
  else if negb (Js.truthy (openAiKey OPENAI_API_KEY)) then
    (mkDigest (mode digestState) (dg_loading digestState) (dg_content digestState)
       "Set OPENAI_API_KEY in config.ts.", [])
  else
    (mkDigest (mode digestState) true "" "", [DigestCompletion (mode digestState)]).

(** The update that the answer brings, applied to the state of that
    moment. *)
Definition generateDigest_settle (w : DigestWorld) (prev : DigestState) : DigestState :=
  let failed msg := mkDigest (mode prev) false (dg_content prev) msg in
  match w with
  | DigestThrows msg => failed msg
  | DigestNotOk message => failed (Js.or_else message "Digest generation failed.")
  | DigestOk message =>
      let text := Js.or_else (Some (extractMessageContent message)) "" in
      mkDigest (mode prev) false (Js.or_else (Some (Js.trim text)) "No content returned.")
        (dg_error prev)
  end.

(** A run in which nothing else touches the digest before the answer. *)
Definition generateDigest (w : DigestWorld) (s : Dashboard) (digestState : DigestState)
    : DigestState * list Call :=
  let '(started, cs) := generateDigest_start s digestState in
  match cs with
  | [] => (started, cs)
  | _ :: _ => (generateDigest_settle w started, cs)
  end.

(** *** Start-up *)

(** The effect that runs once on mount: a stored access token is taken
    up and a first sync is started with it. *)
Definition loadSavedToken (w : InboxWorld) (s : Dashboard) : Dashboard :=
  let savedToken := getItem "gmail_access_token" s in
  let savedProfile := getItem "gmail_profile" s in
  if Js.present savedToken then
    let s := setGoogleToken (default "" savedToken) s in
    let s := setGmailStatus (fun _ =>
               mkStatus true true "" (Some (Js.or_else savedProfile "Connected")) None) s in
    fetchEmails decodeBase64Url w (Some (default "" savedToken)) s
  else s.

End Actions.

(** *** Authorization

    [connectGmail] runs in the desktop shell (the system browser flow,
    then the exchange of the authorization code) or in the browser (the
    token client of Google Identity Services, which answers through a
    callback).  A value that is thrown reaches the handler as its text
    ([error.toString()]); [localStorage.setItem] and [initTokenClient] do
    not throw. *)

Record FlowResult := mkFlow {
  code : string;
  redirect_uri : string;
  code_verifier : string
}.

(** The answer of the profile endpoint; [ProfileThrows]: the inner [try]
    block throws. *)
Inductive ProfileWorld :=
| ProfileThrows
| ProfileReplies (email name : option string).

Inductive DesktopWorld :=
| FlowThrows (text : string)
| ExchangeThrows (result : FlowResult) (text : string)
| ExchangeReplies (result : FlowResult)
    (token_error error_description access_token refresh_token : option string)
    (profileReply : ProfileWorld) (sync : InboxWorld).

(** [WebNoAnswer]: the callback is never called. *)
Inductive WebWorld :=
| WebNoAnswer
| WebAnswers (token_error error_description access_token : option string)
    (profileReply : ProfileWorld) (sync : InboxWorld).

(** Where the component runs; [gis] tells that the script has loaded and
    [window.google.accounts.oauth2] is there. *)
Inductive Platform :=
| Tauri (w : DesktopWorld)
| Browser (gis : bool) (w : WebWorld).

Section Connect.

Variable decodeBase64Url : string -> string.
Variable GOOGLE_OAUTH_CLIENT_ID : option string.
Variable GOOGLE_OAUTH_DESKTOP_CLIENT_ID : option string.
Variable GOOGLE_OAUTH_DESKTOP_CLIENT_SECRET : option string.

Definition gmailClientId : string := Js.trim (Js.or_else GOOGLE_OAUTH_CLIENT_ID "").

(** The inner [try] of both paths: the profile is read with the new
    token, stored and shown. *)
Definition readProfile (bearer : string) (w : ProfileWorld) (ss : Session) : Session :=
  let ss := call (UserInfo bearer) ss in
  match w with
  | ProfileThrows =>
      on_dashboard
        (setGmailStatus (fun prev =>
           mkStatus false true (error prev) (profile prev) (lastSync prev))) ss
  | ProfileReplies email name =>
      let profileEmail := Js.or_else email (Js.or_else name "Connected") in
      let ss := on_dashboard (setItem "gmail_profile" profileEmail) ss in
      on_dashboard
        (setGmailStatus (fun prev =>
           mkStatus false true "" (Some profileEmail) (lastSync prev))) ss
  end.

Definition connectDesktop_catch (text : string) (ss : Session) : Session :=
  on_dashboard
    (setGmailStatus (fun prev =>
       mkStatus false (connected prev) (Js.or_else (Some text) "Desktop OAuth failed")
         (profile prev) (lastSync prev))) ss.

Definition connectDesktop (w : DesktopWorld) (ss : Session) : Session :=
  let desktopClientId := Js.or_else GOOGLE_OAUTH_DESKTOP_CLIENT_ID gmailClientId in
  let exchange result :=
    CodeExchange (code result) desktopClientId
      (Js.or_else GOOGLE_OAUTH_DESKTOP_CLIENT_SECRET "")
      (redirect_uri result) (code_verifier result) in
  let ss := call (StartOAuthFlow desktopClientId) ss in
  match w with
  | FlowThrows text => connectDesktop_catch text ss
  | ExchangeThrows result text => connectDesktop_catch text (call (exchange result) ss)
  | ExchangeReplies result token_error error_description access_token refresh_token
      profileReply sync =>
      let ss := call (exchange result) ss in
      if Js.present token_error || negb (Js.present access_token) then
        connectDesktop_catch
          ("Error: " +:+ Js.or_else error_description "Failed to exchange auth code") ss
      else
        let accessToken := default "" access_token in
        let ss := on_dashboard (setGoogleToken accessToken) ss in
        let ss := on_dashboard (setItem "gmail_access_token" accessToken) ss in
        let ss :=
          if Js.present refresh_token
          then on_dashboard (setItem "gmail_refresh_token" (default "" refresh_token)) ss
          else ss in
        let ss := readProfile accessToken profileReply ss in
        on_dashboard (fetchEmails decodeBase64Url sync (Some accessToken)) ss
  end.

(** The browser path.  The callback holds the [fetchEmails] of the render
    in which [connectGmail] was called, which falls back to the token of
    that render; a missing [access_token] is written to [localStorage]
    and into the header as the text [undefined]. *)
Definition connectWeb (gis : bool) (w : WebWorld) (ss : Session) : Session :=
  if negb gis then
    on_dashboard
      (setGmailStatus (fun prev =>
         mkStatus false (connected prev)
           "Google Identity Services are still loading. Try again shortly."
           (profile prev) (lastSync prev))) ss
  else
    let renderToken := googleToken (dashboard ss) in
    let ss := call (RequestAccessToken gmailClientId) ss in
    match w with
    | WebNoAnswer => ss
    | WebAnswers token_error error_description access_token profileReply sync =>
        if Js.present token_error then
          on_dashboard
            (setGmailStatus (fun prev =>
               mkStatus false (connected prev)
                 (Js.or_else error_description
                    (Js.or_else token_error "Gmail authorization failed."))
                 (profile prev) (lastSync prev))) ss
        else
          let ss := on_dashboard (setGoogleToken (default "" access_token)) ss in
          let ss :=
            on_dashboard (setItem "gmail_access_token" (default "undefined" access_token)) ss in
          let ss := readProfile (default "undefined" access_token) profileReply ss in
          on_dashboard
            (fetchEmails decodeBase64Url sync (Some (Js.or_else access_token renderToken))) ss
    end.

Definition connectGmail (p : Platform) (ss : Session) : Session :=
  if negb (Js.truthy gmailClientId) then
    on_dashboard
      (setGmailStatus (fun prev =>
         mkStatus (loading prev) (connected prev) "Enter your Google OAuth Client ID."
           (profile prev) (lastSync prev))) ss
  else
    let ss :=
      on_dashboard
        (setGmailStatus (fun prev =>
           mkStatus true (connected prev) "" (profile prev) (lastSync prev))) ss in
    match p with
    | Tauri w => connectDesktop w ss
    | Browser gis w => connectWeb gis w ss
    end.

End Connect.

(** The access token that an authorization hands over, if any: the
    answer reports no error and carries a token that is not empty. *)
Definition granted (p : Platform) : option string :=
  match p with
  | Tauri (ExchangeReplies _ token_error _ access_token _ _ _)
  | Browser true (WebAnswers token_error _ access_token _ _) =>
      if Js.present token_error || negb (Js.present access_token) then None else access_token
  | _ => None
  end.

(** The callback of the browser path reports neither an error nor a
    token. *)
Definition answers_without_token (p : Platform) : bool :=
  match p with
  | Browser true (WebAnswers token_error _ access_token _ _) =>
      negb (Js.present token_error) && negb (Js.present access_token)
  | _ => false
  end.

(** The calls of the authorization itself, before anything is asked of
    the provider with the new token. *)
Definition authorization_call (c : Call) : Prop :=
  match c with
  | StartOAuthFlow _ | CodeExchange _ _ _ _ _ | RequestAccessToken _ => True
  | _ => False
  end.

(** A call that creates or updates a provider draft. *)
Definition is_draft_update (c : Call) : bool :=
  match c with
  | Gmail (UpdateDraft _ _ _ _) => true
  | _ => false
  end.

Definition sample_session : Session := mkSession sample_saved_state ∅ [].

(** The outcome of an archive or a trash, described once for both:
    [flag] is the field of the action, [mark] builds its call. *)
Definition action_outcome (decodeBase64Url : string -> string)
    (flag : ActionState -> option bool) (other : ActionState -> option bool)
    (mark : string -> string -> Call) (w : ActionWorld) (email : GmailEmail)
    (ss ss' : Session) : Prop :=
  let token := googleToken (dashboard ss) in
  (exists a, messageActionState ss' !! id email = Some a
             /\ flag a = Some false
             /\ other a = other (default (mkAction None None None)
                                   (messageActionState ss !! id email)))
  /\ (forall j, j <> id email -> messageActionState ss' !! j = messageActionState ss !! j)
  /\ (Js.truthy token = false ->
      calls ss' = calls ss /\ dashboard ss' = dashboard ss
      /\ exists a, messageActionState ss' !! id email = Some a
                   /\ act_error a = Some "Connect Gmail first.")
  /\ (Js.truthy token = true ->
      exists rest,
        calls ss' = calls ss ++ mark (id email) token :: map Gmail rest
        /\ Forall sync_call rest
        /\ match w with
           | ActionThrows _ | ActionNotOk _ =>
               rest = [] /\ only_status_changed (dashboard ss) (dashboard ss')
           | ActionOk resync =>
               (exists rest', rest = ListInbox token :: rest')
               /\ dashboard ss' = fetchEmails decodeBase64Url resync (Some token) (dashboard ss)
               /\ exists a, messageActionState ss' !! id email = Some a
                            /\ act_error a = Some ""
           | ActionUnauthorized recovery =>
               dashboard ss' = handle401Error decodeBase64Url recovery (dashboard ss)
           end).

(** The patch with which [generateReplyDraft] starts. *)
Definition generation_start : list DraftField :=
  [Loading true; Error ""; DraftId None; Notice ""; Dirty false].

(** The calls that a generation may issue: the completion, then the
    creation of the draft, then calls of the credential recovery. *)
Definition generation_calls (email : GmailEmail) (token : string) (cs : list Call) : Prop :=
  cs = []
  \/ cs = [DraftCompletion (id email)]
  \/ exists rfc822 rest,
       cs = DraftCompletion (id email)
            :: Gmail (CreateDraft token rfc822 (threadId email)) :: map Gmail rest
       /\ Forall sync_call rest.

(** * Properties *)

(** ** String primitives *)

Module JsFacts.
Import Js.

Lemma trimStart_clean s : starts_clean (trimStart s).
Proof.
  induction s as [|c r IH]; simpl; [exact I|].
  destruct (is_space c) eqn:E; [exact IH | exact E].
Qed.

Lemma trimStart_id s : starts_clean s -> trimStart s = s.
Proof. destruct s as [|c r]; simpl; [reflexivity|]. intros ->. reflexivity. Qed.

Lemma trimEnd_clean s : starts_clean s -> starts_clean (trimEnd s).
Proof.
  destruct s as [|c r]; simpl; [trivial|]. intros E.
  destruct (trimEnd r); [rewrite E|]; exact E.
Qed.

Lemma trimEnd_idem s : trimEnd (trimEnd s) = trimEnd s.
Proof.
  induction s as [|c r IH]; simpl; [reflexivity|].
  destruct (trimEnd r) as [|d t] eqn:E.
  - destruct (is_space c) eqn:Ec; simpl; [reflexivity|]. rewrite Ec. reflexivity.
  - change (trimEnd (String c (String d t))) with
      (match trimEnd (String d t) with
       | EmptyString => if is_space c then EmptyString else String c EmptyString
       | String _ _ as r' => String c r'
       end).
    rewrite IH. reflexivity.
Qed.

Lemma trim_idem s : trim (trim s) = trim s.
Proof.
  unfold trim.
  rewrite (trimStart_id (trimEnd (trimStart s))).
  - apply trimEnd_idem.
  - apply trimEnd_clean, trimStart_clean.
Qed.

Lemma trimEnd_of_trimmed s : trim s = s -> trimEnd s = s.
Proof. intros H. rewrite <- H at 1. unfold trim. rewrite trimEnd_idem. exact H. Qed.

Lemma trimEnd_cons c r : trimEnd r <> EmptyString -> trimEnd (String c r) = String c (trimEnd r).
Proof. simpl. destruct (trimEnd r); [congruence | reflexivity]. Qed.

Lemma trimEnd_cons_fixed c r :
  trimEnd r = r -> r <> EmptyString -> trimEnd (String c r) = String c r.
Proof. intros H Hne. rewrite trimEnd_cons; rewrite H; [reflexivity | exact Hne]. Qed.

(** Putting "Re: " in front of a trimmed, non-empty text gives a trimmed text. *)
Lemma trim_Re base :
  trim base = base -> base <> EmptyString -> trim ("Re: " +:+ base) = "Re: " +:+ base.
Proof.
  intros Ht Hne. pose proof (trimEnd_of_trimmed _ Ht) as He.
  change ("Re: " +:+ base) with (String "R" (String "e" (String ":" (String " " base)))).
  unfold trim. rewrite trimStart_id by reflexivity.
  repeat (apply trimEnd_cons_fixed; [|discriminate]).
  apply trimEnd_cons_fixed; assumption.
Qed.

Lemma or_else_trim_trimmed s :
  let base := or_else (Some (trim s)) "(no subject)" in
  trim base = base /\ base <> EmptyString.
Proof.
  simpl. destruct (trim s) as [|c r] eqn:E; simpl.
  - split; [reflexivity | discriminate].
  - split; [rewrite <- E; apply trim_idem | discriminate].
Qed.

Lemma find_none_all {A} (f : A -> bool) (l : list A) :
  (forall x, In x l -> f x = false) -> List.find f l = None.
Proof.
  induction l as [|a l IH]; simpl; intros H; [reflexivity|].
  rewrite (H a) by (left; reflexivity). apply IH. intros x Hx. apply H. right. exact Hx.
Qed.

Example split_spaces_fields : split_spaces " a  b " = [""; "a"; "b"; ""].
Proof. reflexivity. Qed.

Example match_angle_leftmost : match_angle "x <> y <a> <b>" = Some "a".
Proof. reflexivity. Qed.

Example match_angle_unclosed : match_angle "a < b" = None.
Proof. reflexivity. Qed.

Example trim_both_ends : trim "  a b  " = "a b".
Proof. reflexivity. Qed.

End JsFacts.

Example stripHtml_tags : stripHtml "<p>Hello <b>you</b></p> <>" = "Hello you <>".
Proof. reflexivity. Qed.

Example matches_invalid_same_line :
  matches_invalid "request had invalid authentication credentials" = true
  /\ matches_invalid (String.concat (String "010" EmptyString) ["invalid"; "token"]) = false.
Proof. split; reflexivity. Qed.

Example buildReplyMessage_threaded :
  buildReplyMessage "jane@example.com" "Re: Hello" "Thanks" (Some "<m0@mail>")
  = String.concat CRLF
      [ "To: jane@example.com"; "Subject: Re: Hello"; "In-Reply-To: <m0@mail>";
        "References: <m0@mail>";
        "Content-Type: text/plain; charset=" +:+ dquote +:+ "UTF-8" +:+ dquote;
        ""; "Thanks" ].
Proof. reflexivity. Qed.

(** ** Reply envelope *)

Lemma normalizeSubject_cases subject :
  let base := Js.or_else (Some (Js.trim subject)) "(no subject)" in
  (Js.startsWith (Js.toLowerCase base) "re:" = true /\ normalizeSubject subject = base)
  \/ (Js.startsWith (Js.toLowerCase base) "re:" = false
      /\ normalizeSubject subject = "Re: " +:+ base).
Proof.
  unfold normalizeSubject. cbv zeta.
  destruct (Js.startsWith _ "re:"); [left | right]; split; reflexivity.
Qed.

Lemma normalizeSubject_fixed base :
  Js.trim base = base -> base <> EmptyString ->
  Js.startsWith (Js.toLowerCase base) "re:" = true ->
  normalizeSubject base = base.
Proof.
  intros Ht Hne Hre. unfold normalizeSubject. rewrite Ht.
  destruct base as [|c r]; [congruence|]. simpl Js.or_else. rewrite Hre. reflexivity.
Qed.

Lemma normalizeSubject_idempotent subject :
  normalizeSubject (normalizeSubject subject) = normalizeSubject subject.
Proof.
  destruct (JsFacts.or_else_trim_trimmed subject) as [Ht Hne].
  destruct (normalizeSubject_cases subject) as [[Hre ->] | [_ ->]].
  - apply normalizeSubject_fixed; assumption.
  - apply normalizeSubject_fixed.
    + apply JsFacts.trim_Re; assumption.
    + discriminate.
    + reflexivity.
Qed.

(** C7, as the code has it.  Normalisation is idempotent for every
    subject.  The subject is trimmed first, and a subject that then starts
    with "re:" in any letter case is returned as it is; so "X" and "Re: X"
    both give "Re: X" exactly when X is non-blank, carries no white space
    at its ends and does not itself start with "re:". *)
Theorem normalizeSubject_once :
  (forall subject,
      normalizeSubject (normalizeSubject subject) = normalizeSubject subject)
  /\ (forall X,
        Js.trim X = X -> X <> EmptyString ->
        Js.startsWith (Js.toLowerCase X) "re:" = false ->
        normalizeSubject X = "Re: " +:+ X
        /\ normalizeSubject ("Re: " +:+ X) = "Re: " +:+ X)
  /\ (forall subject,
        Js.startsWith (Js.toLowerCase (Js.trim subject)) "re:" = true ->
        normalizeSubject subject = Js.trim subject).
Proof.
  split; [exact normalizeSubject_idempotent|]. split.
  - intros X Ht Hne Hre. split.
    + unfold normalizeSubject. rewrite Ht.
      destruct X as [|c r]; [congruence|]. simpl Js.or_else. rewrite Hre. reflexivity.
    + apply normalizeSubject_fixed.
      * apply JsFacts.trim_Re; assumption.
      * discriminate.
      * reflexivity.
  - intros subject Hre. unfold normalizeSubject.
    destruct (Js.trim subject) as [|c r] eqn:E; [discriminate Hre|].
    simpl Js.or_else. rewrite Hre. reflexivity.
Qed.

Lemma normalizeSubject_once_witness :
  normalizeSubject "Quarterly budget" = "Re: Quarterly budget"
  /\ normalizeSubject ("Re: " +:+ "Quarterly budget") = "Re: Quarterly budget"
  /\ normalizeSubject " rE: lunch " = "rE: lunch".
Proof.
  destruct normalizeSubject_once as (_ & Hadd & Hkeep).
  destruct (Hadd "Quarterly budget") as [H1 H2];
    [reflexivity | discriminate | reflexivity |].
  split; [exact H1|]. split; [exact H2|].
  apply (Hkeep " rE: lunch "). reflexivity.
Defined.

(** C7 as worded fails: a subject that already starts with "RE:" is left
    alone, so normalising X does not give "Re: X" for every X. *)
Lemma normalizeSubject_not_always_prefixed :
  ~ (forall X : string,
        normalizeSubject ("Re: " +:+ X) = "Re: " +:+ X
        /\ normalizeSubject X = "Re: " +:+ X).
Proof.
  intros H. destruct (H "RE: budget") as [_ H2].
  vm_compute in H2. discriminate H2.
Qed.

Lemma extractEmailAddress_angle value g :
  Js.match_angle value = Some g -> extractEmailAddress value = Js.trim g.
Proof.
  intros H. unfold extractEmailAddress. rewrite H.
  destruct value; [discriminate H | reflexivity].
Qed.

Lemma extractEmailAddress_bare value :
  Js.match_angle value = None ->
  Js.includes_char " " (Js.trim value) = false ->
  extractEmailAddress value = Js.trim value.
Proof.
  intros H Hs. unfold extractEmailAddress. rewrite H, Hs.
  destruct value; reflexivity.
Qed.

Lemma extractEmailAddress_no_token value :
  Js.match_angle value = None ->
  Js.includes_char " " (Js.trim value) = true ->
  (forall part, In part (Js.split_spaces (Js.trim value)) -> address_like part = false) ->
  extractEmailAddress value = "".
Proof.
  intros H Hs Hall. unfold extractEmailAddress. rewrite H, Hs.
  rewrite (JsFacts.find_none_all _ _ Hall). destruct value; reflexivity.
Qed.

(** C8, as the code has it.  The text of the first angle-bracket group is
    the recipient; without such a group a sender with no inner space is
    the recipient as it stands (it is not checked for the shape of an
    address); and the envelope fails with the unparseable-sender error
    when the sender is blank or, having no group but an inner space, has
    no token with both an at sign and a dot. *)
Theorem getReplyEnvelope_recipient :
  extractEmailAddress "Jane Doe <jane@example.com>" = "jane@example.com"
  /\ extractEmailAddress "jane@example.com" = "jane@example.com"
  /\ (forall value g,
        Js.match_angle value = Some g -> extractEmailAddress value = Js.trim g)
  /\ (forall value,
        Js.match_angle value = None ->
        Js.includes_char " " (Js.trim value) = false ->
        extractEmailAddress value = Js.trim value)
  /\ (forall email,
        Js.match_angle (sender email) = None ->
        Js.trim (sender email) = ""
        \/ (Js.includes_char " " (Js.trim (sender email)) = true
            /\ forall part, In part (Js.split_spaces (Js.trim (sender email))) ->
                            address_like part = false) ->
        getReplyEnvelope email = inl "Unable to parse sender email address.").
Proof.
  split; [reflexivity|]. split; [reflexivity|].
  split; [exact extractEmailAddress_angle|].
  split; [exact extractEmailAddress_bare|].
  intros email Hm [Hblank | [Hs Hall]]; unfold getReplyEnvelope.
  - rewrite extractEmailAddress_bare; [rewrite Hblank; reflexivity | exact Hm |].
    rewrite Hblank. reflexivity.
  - rewrite extractEmailAddress_no_token; [reflexivity | assumption..].
Qed.

Lemma getReplyEnvelope_recipient_witness :
  getReplyEnvelope (mkEmail "m1" None None "Hello" "Unknown sender" "" "" None)
  = inl "Unable to parse sender email address."
  /\ extractEmailAddress "  Jane <  jane@example.com >" = "jane@example.com"
  /\ extractEmailAddress " jane@example.com " = "jane@example.com".
Proof.
  destruct getReplyEnvelope_recipient as (_ & _ & Hangle & Hbare & Hfail).
  split.
  - apply Hfail; [reflexivity|]. right. split; [reflexivity|].
    intros part Hin. vm_compute in Hin.
    destruct Hin as [<- | [<- | []]]; reflexivity.
  - split.
    + apply (Hangle "  Jane <  jane@example.com >" "  jane@example.com "). reflexivity.
    + apply (Hbare " jane@example.com "); reflexivity.
Defined.

(** C8 as worded fails: a one-word sender with no at sign in it is taken
    as the recipient, and the envelope is produced. *)
Lemma getReplyEnvelope_accepts_bare_word :
  ~ (forall email : GmailEmail,
        Js.includes_char "@" (sender email) = false ->
        exists msg, getReplyEnvelope email = inl msg).
Proof.
  intros H.
  destruct (H (mkEmail "m1" None None "Hello" "postmaster" "" "" None) eq_refl) as [msg Hmsg].
  vm_compute in Hmsg. discriminate Hmsg.
Qed.

(** ** Sync cycle and credential recovery *)

Example normalizeMessage_sample :
  normalizeMessage (fun x => x) (Some (sample_raw "m1")) = Some (sample_normalized "m1")
  /\ normalizeMessage (fun x => x) None = None
  /\ normalizeMessage (fun x => x) (Some (mkRaw "m9" None None None None))
     = Some (mkEmail "m9" None (Some "") "(no subject)" "Unknown sender" "" "" None).
Proof. repeat split. Qed.

Section SyncFacts.

Variable decodeBase64Url : string -> string.

Local Abbreviation fetchEmails := (fetchEmails decodeBase64Url).
Local Abbreviation refreshAccessToken := (refreshAccessToken decodeBase64Url).
Local Abbreviation handle401Error := (handle401Error decodeBase64Url).

Lemma only_status_refl s : only_status_changed s s.
Proof. repeat split. Qed.

Lemma only_status_trans s1 s2 s3 :
  only_status_changed s1 s2 -> only_status_changed s2 s3 -> only_status_changed s1 s3.
Proof.
  unfold only_status_changed. intros H1 H2.
  destruct H1 as (?&?&?&?&?&?&?&?), H2 as (?&?&?&?&?&?&?&?).
  repeat split; congruence.
Qed.

Lemma only_status_snapshot s s' : only_status_changed s s' -> snapshot_kept s s'.
Proof. unfold only_status_changed, snapshot_kept. tauto. Qed.

Lemma snapshot_kept_trans s1 s2 s3 :
  snapshot_kept s1 s2 -> snapshot_kept s2 s3 -> snapshot_kept s1 s3.
Proof.
  unfold snapshot_kept. intros H1 H2.
  destruct H1 as (?&?&?&?&?&?), H2 as (?&?&?&?&?&?).
  repeat split; congruence.
Qed.

Lemma snapshot_enrichment s s' : snapshot_kept s s' -> enrichment_kept s s'.
Proof. unfold enrichment_kept, snapshot_kept. tauto. Qed.

Lemma enrichment_kept_trans s1 s2 s3 :
  enrichment_kept s1 s2 -> enrichment_kept s2 s3 -> enrichment_kept s1 s3.
Proof.
  unfold enrichment_kept. intros H1 H2.
  destruct H1 as (?&?&?&?), H2 as (?&?&?&?).
  repeat split; congruence.
Qed.

Lemma setGmailStatus_only_status f s : only_status_changed s (setGmailStatus f s).
Proof. repeat split. Qed.

Lemma fetch_only_status r s : only_status_changed s (fetch r s).
Proof. repeat split. Qed.

Lemma interpretGmailError_only_status msg s :
  only_status_changed s (snd (interpretGmailError msg s)).
Proof.
  unfold interpretGmailError.
  destruct (Js.includes _ _); [repeat split|].
  destruct (matches_invalid _); repeat split.
Qed.

Lemma fetchEmails_catch_only_status msg s :
  only_status_changed s (fetchEmails_catch msg s).
Proof.
  unfold fetchEmails_catch.
  pose proof (interpretGmailError_only_status msg s) as H.
  destruct (interpretGmailError msg s) as [message s1]. simpl in H.
  eapply only_status_trans; [exact H | apply setGmailStatus_only_status].
Qed.

Lemma details_requested_only_status token (messageIds : list (string * DetailReply)) s :
  only_status_changed s
    (fold_left (fun s m => fetch (GetMessage (fst m) token) s) messageIds s).
Proof.
  revert s. induction messageIds as [|m l IH]; intros s; simpl.
  - apply only_status_refl.
  - eapply only_status_trans; [apply (fetch_only_status (GetMessage (fst m) token)) | apply IH].
Qed.

Lemma all_details_fail replies :
  existsb detail_failed replies = true -> exists msg, all_details replies = inl msg.
Proof.
  induction replies as [|r l IH]; simpl; [discriminate|].
  destruct r as [m|arrival|msg arrival]; simpl; intros H; eauto.
  destruct (IH H) as [msg ->]. eauto.
Qed.

Lemma all_details_ok replies :
  existsb detail_failed replies = false -> exists ms, all_details replies = inr ms.
Proof.
  induction replies as [|r l IH]; simpl; [eauto|].
  destruct r as [m|arrival|msg arrival]; simpl; intros H; try discriminate.
  destruct (IH H) as [ms ->]. eauto.
Qed.

Lemma existsb_snd (messages : list (string * DetailReply)) :
  existsb (fun m => detail_failed (snd m)) messages
  = existsb detail_failed (map snd messages).
Proof. induction messages as [|m l IH]; simpl; [reflexivity | rewrite IH; reflexivity]. Qed.

(** A cycle that fails otherwise than by a 401 changes [gmailStatus]
    (and the call log) only. *)
Lemma fetchEmails_plain_failure w accessToken s :
  sync_fails w = true -> list_unauthorized w = false ->
  only_status_changed s (fetchEmails w accessToken s).
Proof.
  intros Hf Hu.
  destruct w as [msg|message|recovery|messages now]; simpl in *; try discriminate;
    destruct (Js.truthy (Js.or_else accessToken (googleToken s))); simpl;
    try apply setGmailStatus_only_status.
  - eapply only_status_trans; [|apply fetchEmails_catch_only_status]. repeat split.
  - eapply only_status_trans; [|apply fetchEmails_catch_only_status]. repeat split.
  - destruct messages as [|m l]; [discriminate Hf|].
    rewrite existsb_snd in Hf. destruct (all_details_fail _ Hf) as [msg Hmsg].
    rewrite Hmsg.
    eapply only_status_trans; [|apply fetchEmails_catch_only_status].
    eapply only_status_trans; [|apply details_requested_only_status]. repeat split.
Qed.

Lemma refreshAccessToken_catch_snapshot s : snapshot_kept s (refreshAccessToken_catch s).
Proof. repeat split. Qed.

Lemma handle401Error_with_snapshot refresh s :
  (forall rt s0, snapshot_kept s0 (refresh rt s0)) ->
  snapshot_kept s (handle401Error_with refresh s).
Proof.
  intros H. unfold handle401Error_with.
  destruct (Js.present _); [|repeat split].
  eapply snapshot_kept_trans; [|apply H]. repeat split.
Qed.

(** Runs that publish nothing leave the snapshot as it was. *)
Lemma failing_runs_keep_snapshot :
  (forall w accessToken s,
      sync_fails w = true -> snapshot_kept s (fetchEmails w accessToken s))
  /\ (forall r refreshToken s,
        recovery_fails r = true -> snapshot_kept s (refreshAccessToken r refreshToken s)).
Proof.
  apply world_mutind.
  - intros msg tok s Hf. apply only_status_snapshot, fetchEmails_plain_failure; trivial.
  - intros m tok s Hf. apply only_status_snapshot, fetchEmails_plain_failure; trivial.
  - intros r IH tok s Hf. simpl in Hf. simpl.
    destruct (Js.truthy (Js.or_else tok (googleToken s))); simpl; [|repeat split].
    eapply snapshot_kept_trans; [|apply handle401Error_with_snapshot].
    + repeat split.
    + intros rt s0. apply IH, Hf.
  - intros messages now tok s Hf.
    apply only_status_snapshot, fetchEmails_plain_failure; trivial.
  - intros rt s _. simpl.
    eapply snapshot_kept_trans; [|apply refreshAccessToken_catch_snapshot]. repeat split.
  - intros access_token descr next IH rt s Hf. simpl in Hf. simpl.
    destruct (Js.present access_token).
    + eapply snapshot_kept_trans; [|apply IH, Hf]. repeat split.
    + eapply snapshot_kept_trans; [|apply refreshAccessToken_catch_snapshot]. repeat split.
Qed.

(** No run touches the insight records, their flags, the drafts, or the
    set of outstanding enrichment calls. *)
Lemma runs_keep_enrichment :
  (forall w accessToken s, enrichment_kept s (fetchEmails w accessToken s))
  /\ (forall r refreshToken s, enrichment_kept s (refreshAccessToken r refreshToken s)).
Proof.
  apply world_mutind.
  - intros msg tok s. simpl.
    destruct (Js.truthy (Js.or_else tok (googleToken s))); simpl; [|repeat split].
    apply snapshot_enrichment, only_status_snapshot.
    eapply only_status_trans; [|apply fetchEmails_catch_only_status]. repeat split.
  - intros m tok s. simpl.
    destruct (Js.truthy (Js.or_else tok (googleToken s))); simpl; [|repeat split].
    apply snapshot_enrichment, only_status_snapshot.
    eapply only_status_trans; [|apply fetchEmails_catch_only_status]. repeat split.
  - intros r IH tok s. simpl.
    destruct (Js.truthy (Js.or_else tok (googleToken s))); simpl; [|repeat split].
    unfold handle401Error_with. destruct (Js.present _); [|repeat split].
    eapply enrichment_kept_trans; [|apply IH]. repeat split.
  - intros messages now tok s. simpl.
    destruct (Js.truthy (Js.or_else tok (googleToken s))); simpl; [|repeat split].
    destruct messages as [|m l]; [repeat split|].
    set (s1 := fold_left _ _ _).
    assert (H1 : enrichment_kept s s1).
    { apply snapshot_enrichment, only_status_snapshot.
      eapply only_status_trans; [|apply details_requested_only_status]. repeat split. }
    destruct (all_details _) as [msg|detailed].
    + eapply enrichment_kept_trans; [exact H1|].
      apply snapshot_enrichment, only_status_snapshot, fetchEmails_catch_only_status.
    + eapply enrichment_kept_trans; [exact H1|]. repeat split.
  - intros rt s. simpl. repeat split.
  - intros access_token descr next IH rt s. simpl.
    destruct (Js.present access_token).
    + eapply enrichment_kept_trans; [|apply IH]. repeat split.
    + repeat split.
Qed.

End SyncFacts.

Lemma refreshAccessToken_rejected decodeBase64Url r refreshToken s :
  refresh_rejected r = true ->
  refreshAccessToken decodeBase64Url r refreshToken s
  = refreshAccessToken_catch (fetch (TokenRefresh refreshToken) s).
Proof.
  destruct r as [|access_token descr next]; simpl; [reflexivity|].
  destruct (Js.present access_token); [discriminate | reflexivity].
Qed.

Lemma cycle_fails_plain w :
  cycle_fails w = true -> list_unauthorized w = false -> sync_fails w = true.
Proof. destruct w; simpl; congruence. Qed.

(** C1.  A sync cycle in which a detail call fails, or the list call
    fails otherwise than by a 401 (or which has no token at all), changes
    nothing but [gmailStatus] and the call log: [emails] and
    [selectedEmailId] are as they were.  A cycle whose list call is
    answered 401 publishes nothing itself, but hands over to the
    credential recovery.  When no refresh token is stored or the refresh
    is turned down, the snapshot is as it was, while the token in memory
    and the stored access token are gone.  When a fresh token is granted,
    a new cycle is issued with it from a state with the same snapshot.
    The snapshot at the end of the call differs from the one at its
    start only if the list call was answered 401 and a cycle issued
    further down that chain succeeded as a whole. *)
Theorem fetchEmails_failure_keeps_snapshot
    (decodeBase64Url : string -> string) (w : InboxWorld)
    (accessToken : option string) (s : Dashboard) :
  cycle_fails w = true ->
  let token := Js.or_else accessToken (googleToken s) in
  let s' := fetchEmails decodeBase64Url w accessToken s in
  (list_unauthorized w = false \/ Js.truthy token = false ->
   only_status_changed s s'
   /\ emails s' = emails s /\ selectedEmailId s' = selectedEmailId s)
  /\ (forall recovery,
        w = ListUnauthorized recovery -> Js.truthy token = true ->
        (Js.present (getItem "gmail_refresh_token" s) = false
         \/ refresh_rejected recovery = true ->
         emails s' = emails s /\ selectedEmailId s' = selectedEmailId s
         /\ googleToken s' = ""
         /\ localStorage s' !! "gmail_access_token" = None)
        /\ (forall newToken descr next,
              recovery = TokenReplies (Some newToken) descr next ->
              Js.truthy newToken = true ->
              Js.present (getItem "gmail_refresh_token" s) = true ->
              exists s_end,
                emails s_end = emails s /\ selectedEmailId s_end = selectedEmailId s
                /\ googleToken s_end = newToken
                /\ s' = fetchEmails decodeBase64Url next (Some newToken) s_end))
  /\ (sync_fails w = true ->
      emails s' = emails s /\ selectedEmailId s' = selectedEmailId s
      /\ snapshot_kept s s')
  /\ (emails s' <> emails s \/ selectedEmailId s' <> selectedEmailId s ->
      list_unauthorized w = true /\ sync_fails w = false).
Proof.
  intros Hc token s'.
  assert (HA : list_unauthorized w = false \/ Js.truthy token = false ->
               only_status_changed s s').
  { intros [Hu|Ht].
    - apply (fetchEmails_plain_failure decodeBase64Url w accessToken s
               (cycle_fails_plain w Hc Hu) Hu).
    - unfold s'. destruct w; simpl; fold token; rewrite Ht; simpl;
        apply setGmailStatus_only_status. }
  assert (HC : sync_fails w = true -> snapshot_kept s s')
    by apply (proj1 (failing_runs_keep_snapshot decodeBase64Url)).
  split; [|split; [|split]].
  - intros H. pose proof (HA H) as Ho. split; [exact Ho|]. split; apply Ho.
  - intros recovery -> Ht. unfold s'. simpl. fold token. rewrite Ht. simpl.
    unfold handle401Error_with.
    match goal with
    | |- context [Js.present (getItem "gmail_refresh_token" ?x)] =>
        replace (getItem "gmail_refresh_token" x) with (getItem "gmail_refresh_token" s)
          by (unfold getItem; simpl; symmetry; apply lookup_delete_ne; discriminate)
    end.
    split.
    + intros Hno.
      destruct (Js.present (getItem "gmail_refresh_token" s)) eqn:Hr.
      * destruct Hno as [Hno|Hrej]; [discriminate Hno|].
        rewrite (refreshAccessToken_rejected decodeBase64Url recovery _ _ Hrej).
        split; [reflexivity|]. split; [reflexivity|]. split; [reflexivity|].
        simpl. rewrite lookup_delete_ne by discriminate. apply lookup_delete_eq.
      * split; [reflexivity|]. split; [reflexivity|]. split; [reflexivity|].
        simpl. apply lookup_delete_eq.
    + intros newToken descr next -> Hn Hr. rewrite Hr. simpl. rewrite Hn.
      eexists. split; [|split; [|split; [|reflexivity]]]; reflexivity.
  - intros Hf. pose proof (HC Hf) as H. split; [apply H|]. split; [apply H | exact H].
  - intros Hdiff.
    destruct (list_unauthorized w) eqn:Hu.
    + split; [reflexivity|]. destruct (sync_fails w) eqn:Hf; [|reflexivity].
      exfalso. destruct (HC eq_refl) as (He & Hs & _).
      destruct Hdiff as [Hd|Hd]; apply Hd; assumption.
    + exfalso. destruct (HA (or_introl eq_refl)) as (_ & _ & He & Hs & _).
      destruct Hdiff as [Hd|Hd]; apply Hd; assumption.
Qed.

Lemma fetchEmails_failure_keeps_snapshot_witness :
  let w := ListOk [("m1", DetailOk (Some (sample_raw "m1"))); ("m2", DetailNotOk 0)]
             "2024-01-02T00:00:00.000Z" in
  let s' := fetchEmails (fun x => x) w None sample_state in
  only_status_changed sample_state s'
  /\ emails s' = [sample_email]
  /\ selectedEmailId s' = Some "m0".
Proof.
  intros w.
  destruct (fetchEmails_failure_keeps_snapshot (fun x => x) w None sample_state eq_refl)
    as [H _].
  apply H. left. reflexivity.
Defined.

(** The claim as it was worded fails at a list call that is answered
    401: with the refresh turned down, the token in memory and the stored
    tokens change besides the status; with the refresh granted, the call
    ends with the snapshot of the cycle that was issued anew. *)
Lemma unauthorized_list_call_changes_more_than_status :
  ~ (forall (w : InboxWorld) (accessToken : option string) (s : Dashboard),
        cycle_fails w = true ->
        only_status_changed s (fetchEmails (fun x => x) w accessToken s))
  /\ ~ (forall (w : InboxWorld) (accessToken : option string) (s : Dashboard),
          cycle_fails w = true ->
          emails (fetchEmails (fun x => x) w accessToken s) = emails s
          /\ selectedEmailId (fetchEmails (fun x => x) w accessToken s) = selectedEmailId s).
Proof.
  split.
  - intros H.
    destruct (H (ListUnauthorized TokenThrows) None sample_state eq_refl) as [Ht _].
    discriminate Ht.
  - intros H.
    destruct (H (ListUnauthorized (TokenReplies (Some "token-2") None sample_inbox))
                None sample_state eq_refl) as [_ Hs].
    discriminate Hs.
Qed.

Lemma refreshAccessToken_catch_clears s :
  let s' := refreshAccessToken_catch s in
  localStorage s' !! "gmail_access_token" = None
  /\ localStorage s' !! "gmail_refresh_token" = None
  /\ googleToken s' = ""
  /\ connected (gmailStatus s') = false.
Proof.
  simpl. split; [|split; [|split; reflexivity]].
  - rewrite lookup_delete_ne by discriminate. apply lookup_delete_eq.
  - apply lookup_delete_eq.
Qed.

(** C4.  When the token endpoint turns a refresh-token grant down, both
    stored tokens are removed from [localStorage], the token in memory is
    emptied and the session is disconnected; so it is too when the
    refresh was started by the 401 recovery. *)
Theorem refreshAccessToken_rejected_clears
    (decodeBase64Url : string -> string) (r : TokenWorld) :
  refresh_rejected r = true ->
  (forall refreshToken s,
      let s' := refreshAccessToken decodeBase64Url r refreshToken s in
      localStorage s' !! "gmail_access_token" = None
      /\ localStorage s' !! "gmail_refresh_token" = None
      /\ googleToken s' = ""
      /\ connected (gmailStatus s') = false)
  /\ (forall s,
        Js.present (localStorage s !! "gmail_refresh_token") = true ->
        let s' := handle401Error decodeBase64Url r s in
        localStorage s' !! "gmail_access_token" = None
        /\ localStorage s' !! "gmail_refresh_token" = None
        /\ googleToken s' = ""
        /\ connected (gmailStatus s') = false).
Proof.
  intros Hr. split.
  - intros rt s. cbv zeta. rewrite refreshAccessToken_rejected by exact Hr.
    apply refreshAccessToken_catch_clears.
  - intros s Hp. cbv zeta. unfold handle401Error, handle401Error_with.
    assert (Hg : getItem "gmail_refresh_token"
                   (removeItem "gmail_access_token" (setGoogleToken "" s))
                 = localStorage s !! "gmail_refresh_token").
    { unfold getItem. simpl. apply lookup_delete_ne. discriminate. }
    rewrite Hg, Hp. rewrite refreshAccessToken_rejected by exact Hr.
    apply refreshAccessToken_catch_clears.
Qed.

Lemma refreshAccessToken_rejected_clears_witness :
  let r := TokenReplies None (Some "Token has been expired or revoked.") (ListThrows "unused") in
  let s' := refreshAccessToken (fun x => x) r "refresh-1" sample_state in
  localStorage s' !! "gmail_access_token" = None
  /\ localStorage s' !! "gmail_refresh_token" = None
  /\ googleToken s' = ""
  /\ connected (gmailStatus s') = false.
Proof.
  intros r.
  apply (proj1 (refreshAccessToken_rejected_clears (fun x => x) r eq_refl) "refresh-1" sample_state).
Defined.

(** C10.  A cycle in which the list call and every detail call succeed
    publishes the normalised messages, selects the first of them (nothing
    when there is none) and stamps [lastSync]; with an empty list of ids
    the snapshot is empty, nothing is selected and [lastSync] is stamped
    all the same. *)
Theorem fetchEmails_success_selects_first
    (decodeBase64Url : string -> string) (messageIds : list (string * DetailReply))
    (now : string) (accessToken : option string) (s : Dashboard) :
  Js.truthy (Js.or_else accessToken (googleToken s)) = true ->
  existsb (fun m => detail_failed (snd m)) messageIds = false ->
  let s' := fetchEmails decodeBase64Url (ListOk messageIds now) accessToken s in
  (exists detailed,
      all_details (map snd messageIds) = inr detailed
      /\ emails s' = omap (normalizeMessage decodeBase64Url) detailed)
  /\ selectedEmailId s' = id <$> head (emails s')
  /\ lastSync (gmailStatus s') = Some now
  /\ connected (gmailStatus s') = true
  /\ loading (gmailStatus s') = false
  /\ (messageIds = [] -> emails s' = [] /\ selectedEmailId s' = None).
Proof.
  intros Ht Hok. cbv zeta. simpl. rewrite Ht. simpl.
  destruct messageIds as [|m l].
  - simpl. split; [exists []; split; reflexivity|]. repeat split.
  - rewrite existsb_snd in Hok. destruct (all_details_ok _ Hok) as [ms Hms].
    rewrite Hms. simpl.
    split; [exists ms; split; reflexivity|]. repeat split; discriminate.
Qed.

Lemma fetchEmails_success_selects_first_witness :
  let messageIds := [("m1", DetailOk None); ("m2", DetailOk (Some (sample_raw "m2")))] in
  let s' := fetchEmails (fun x => x) (ListOk messageIds "2024-01-02T00:00:00.000Z") None sample_state in
  map id (emails s') = ["m2"]
  /\ selectedEmailId s' = Some "m2"
  /\ lastSync (gmailStatus s') = Some "2024-01-02T00:00:00.000Z".
Proof.
  intros messageIds.
  destruct (fetchEmails_success_selects_first (fun x => x) messageIds
              "2024-01-02T00:00:00.000Z" None sample_state eq_refl eq_refl)
    as ([detailed [Hd He]] & Hsel & Hsync & _).
  cbv zeta. rewrite Hsel, Hsync, He.
  injection Hd as <-. repeat split.
Defined.

(** ** Calls issued by sync and recovery *)

Section CallFacts.

Variable decodeBase64Url : string -> string.

Lemma net_interpretGmailError msg s : net (snd (interpretGmailError msg s)) = net s.
Proof.
  unfold interpretGmailError.
  destruct (Js.includes _ _); [reflexivity|]. destruct (matches_invalid _); reflexivity.
Qed.

Lemma net_fetchEmails_catch msg s : net (fetchEmails_catch msg s) = net s.
Proof.
  unfold fetchEmails_catch. pose proof (net_interpretGmailError msg s) as H.
  destruct (interpretGmailError msg s) as [message s1]. exact H.
Qed.

Lemma net_details_requested token (messageIds : list (string * DetailReply)) s :
  net (fold_left (fun s m => fetch (GetMessage (fst m) token) s) messageIds s)
  = net s ++ map (fun m => GetMessage (fst m) token) messageIds.
Proof.
  revert s. induction messageIds as [|m l IH]; intros s; simpl.
  - rewrite app_nil_r. reflexivity.
  - rewrite IH. simpl. rewrite <- app_assoc. reflexivity.
Qed.

Lemma Forall_sync_details token (messageIds : list (string * DetailReply)) :
  Forall sync_call (map (fun m => GetMessage (fst m) token) messageIds).
Proof. induction messageIds; simpl; constructor; [exact I | assumption]. Qed.

Lemma extends_by_sync_refl s s' : net s' = net s -> extends_by_sync s s'.
Proof. intros H. exists []. rewrite app_nil_r. split; [exact H | constructor]. Qed.

Lemma extends_by_sync_trans s1 s2 s3 :
  extends_by_sync s1 s2 -> extends_by_sync s2 s3 -> extends_by_sync s1 s3.
Proof.
  intros [c1 [H1 F1]] [c2 [H2 F2]]. exists (c1 ++ c2). split.
  - rewrite H2, H1, app_assoc. reflexivity.
  - apply Forall_app. split; assumption.
Qed.

Lemma extends_by_sync_fetch r s : sync_call r -> extends_by_sync s (fetch r s).
Proof. intros H. exists [r]. split; [reflexivity | constructor; [exact H | constructor]]. Qed.

Lemma extends_after_list token f s s' :
  extends_by_sync (fetch (ListInbox token) (setGmailStatus f s)) s' ->
  extends_by_sync s s'.
Proof.
  apply extends_by_sync_trans. exists [ListInbox token].
  split; [reflexivity | constructor; [exact I | constructor]].
Qed.

Lemma extends_after_refresh rt s s' :
  extends_by_sync (fetch (TokenRefresh rt) s) s' -> extends_by_sync s s'.
Proof.
  apply extends_by_sync_trans. apply (extends_by_sync_fetch (TokenRefresh rt)). exact I.
Qed.

(** Sync and recovery only add list, detail and token calls to the log. *)
Lemma runs_issue_sync_calls :
  (forall w accessToken s, extends_by_sync s (fetchEmails decodeBase64Url w accessToken s))
  /\ (forall r refreshToken s,
        extends_by_sync s (refreshAccessToken decodeBase64Url r refreshToken s)).
Proof.
  apply world_mutind.
  - intros msg tok s. simpl.
    destruct (Js.truthy _); simpl; [|apply extends_by_sync_refl; reflexivity].
    eapply extends_after_list, extends_by_sync_refl.
    rewrite net_fetchEmails_catch. reflexivity.
  - intros m tok s. simpl.
    destruct (Js.truthy _); simpl; [|apply extends_by_sync_refl; reflexivity].
    eapply extends_after_list, extends_by_sync_refl.
    rewrite net_fetchEmails_catch. reflexivity.
  - intros r IH tok s. simpl.
    destruct (Js.truthy _); simpl; [|apply extends_by_sync_refl; reflexivity].
    unfold handle401Error_with. destruct (Js.present _).
    + eapply extends_by_sync_trans; [|apply IH].
      eapply extends_after_list, extends_by_sync_refl. reflexivity.
    + eapply extends_after_list, extends_by_sync_refl. reflexivity.
  - intros messages now tok s. simpl.
    destruct (Js.truthy _); simpl; [|apply extends_by_sync_refl; reflexivity].
    destruct messages as [|m l].
    { eapply extends_after_list, extends_by_sync_refl. reflexivity. }
    match goal with
    | |- context [fold_left ?f ?l ?s0] =>
        apply extends_by_sync_trans with (s2 := fold_left f l s0)
    end.
    + match goal with
      | |- extends_by_sync _ (fold_left _ _ (fetch (ListInbox ?t) (setGmailStatus ?f _))) =>
          apply (extends_after_list t f)
      end.
      eexists. split; [apply net_details_requested | apply Forall_sync_details].
    + apply extends_by_sync_refl.
      destruct (all_details _); [apply net_fetchEmails_catch | reflexivity].
  - intros rt s. simpl. apply (extends_by_sync_fetch (TokenRefresh rt)). exact I.
  - intros access_token descr next IH rt s. simpl.
    destruct (Js.present access_token).
    + eapply extends_by_sync_trans; [|apply IH].
      eapply extends_after_refresh, extends_by_sync_refl. reflexivity.
    + eapply extends_after_refresh, extends_by_sync_refl. reflexivity.
Qed.

Lemma handle401Error_issues_sync_calls r s :
  extends_by_sync s (handle401Error decodeBase64Url r s).
Proof.
  unfold handle401Error, handle401Error_with. destruct (Js.present _).
  - eapply extends_by_sync_trans; [|apply runs_issue_sync_calls].
    apply extends_by_sync_refl. reflexivity.
  - apply extends_by_sync_refl. reflexivity.
Qed.

End CallFacts.

(** ** Reply drafts *)

Section DraftFacts.

Variable decodeBase64Url : string -> string.

Lemma patchReplyDraft_lookup i patch s :
  replyDrafts (patchReplyDraft i patch s) !! i
  = Some (fold_left assign patch (default blankDraft (replyDrafts s !! i))).
Proof. simpl. apply lookup_insert_eq. Qed.

Lemma patchReplyDraft_other i j patch s :
  i <> j -> replyDrafts (patchReplyDraft i patch s) !! j = replyDrafts s !! j.
Proof. intros H. simpl. apply lookup_insert_ne. exact H. Qed.

Lemma saveDraftEdits_catch_net email msg s : net (saveDraftEdits_catch email msg s) = net s.
Proof.
  unfold saveDraftEdits_catch. pose proof (net_interpretGmailError msg s) as H.
  destruct (interpretGmailError msg s) as [message s1]. exact H.
Qed.

Lemma sendReply_catch_net email msg s : net (sendReply_catch email msg s) = net s.
Proof.
  unfold sendReply_catch. pose proof (net_interpretGmailError msg s) as H.
  destruct (interpretGmailError msg s) as [message s1]. exact H.
Qed.

(** A save whose text is not blank, with a token and a parseable sender,
    issues one draft write, followed by whatever a 401 recovery issues. *)
Lemma saveDraftEdits_ready w email s envelope :
  Js.present (draft_body s email) = true ->
  Js.truthy (googleToken s) = true ->
  getReplyEnvelope email = inr envelope ->
  exists rest,
    net (saveDraftEdits decodeBase64Url w email s)
    = net s ++ draft_write s email envelope :: rest
    /\ Forall sync_call rest.
Proof.
  intros Hb Ht He. unfold saveDraftEdits. fold (draft_body s email).
  rewrite Hb. simpl negb. cbv iota.
  change (googleToken (patchReplyDraft (id email) [Saving true; Notice ""] s))
    with (googleToken s).
  rewrite Ht, He. simpl negb. cbv iota.
  set (s1 := patchReplyDraft (id email) [Saving true; Notice ""] s).
  match goal with
  | |- context [if ?c then fetch ?a s1 else fetch ?b s1] =>
      replace (if c then fetch a s1 else fetch b s1)
        with (fetch (draft_write s email envelope) s1)
        by (unfold draft_write; destruct c; reflexivity)
  end.
  destruct w as [msg|message|recovery|data_id data_message_id now].
  - exists []. rewrite saveDraftEdits_catch_net. repeat split; constructor.
  - exists []. rewrite saveDraftEdits_catch_net. repeat split; constructor.
  - destruct (handle401Error_issues_sync_calls decodeBase64Url recovery
                (fetch (draft_write s email envelope) s1)) as [calls [Hn Hc]].
    exists calls. split; [|exact Hc].
    change (net (patchReplyDraft ?i ?p ?x)) with (net x).
    rewrite Hn. simpl. rewrite <- app_assoc. reflexivity.
  - exists []. repeat split; constructor.
Qed.


Lemma draft_write_update s email envelope d i :
  replyDrafts s !! id email = Some d -> draftId d = Some i -> Js.truthy i = true ->
  draft_write s email envelope
  = UpdateDraft i (googleToken s)
      (buildReplyMessage (recipient envelope) (replySubject envelope)
         (Js.trim (content d)) (messageId email))
      (threadId email).
Proof.
  intros Hd Hi Ht. unfold draft_write, draft_body. rewrite Hd. simpl. rewrite Hi. simpl.
  rewrite Ht. reflexivity.
Qed.


Lemma sendReply_blank w email s msg :
  Js.present (draft_body s email) = false ->
  msg = "Draft is empty. Add text before sending." ->
  sendReply decodeBase64Url w email s = patchReplyDraft (id email) [Error msg] s.
Proof.
  intros Hb ->. unfold sendReply. fold (draft_body s email). rewrite Hb. reflexivity.
Qed.

Lemma saveDraftEdits_blank w email s msg :
  Js.present (draft_body s email) = false ->
  msg = "Draft is empty. Add text before saving." ->
  saveDraftEdits decodeBase64Url w email s = patchReplyDraft (id email) [Error msg] s.
Proof.
  intros Hb ->. unfold saveDraftEdits. fold (draft_body s email). rewrite Hb. reflexivity.
Qed.

(** A successful save leaves the text and the token alone and records the
    id that the provider returned. *)
Lemma saveDraftEdits_ok email s data_id data_message_id now envelope :
  Js.present (draft_body s email) = true ->
  Js.truthy (googleToken s) = true ->
  getReplyEnvelope email = inr envelope ->
  let s' := saveDraftEdits decodeBase64Url (DraftOk data_id data_message_id now) email s in
  googleToken s' = googleToken s
  /\ exists d',
       replyDrafts s' !! id email = Some d'
       /\ draftId d' = (if Js.present data_id then data_id else data_message_id)
       /\ content d' = content (default blankDraft (replyDrafts s !! id email))
       /\ savedAt d' = Some now
       /\ dirty d' = Some false.
Proof.
  intros Hb Ht He. cbv zeta. unfold saveDraftEdits. fold (draft_body s email).
  rewrite Hb. simpl negb. cbv iota.
  change (googleToken (patchReplyDraft (id email) [Saving true; Notice ""] s))
    with (googleToken s).
  rewrite Ht, He. simpl negb. cbv iota.
  set (s1 := patchReplyDraft (id email) [Saving true; Notice ""] s).
  match goal with
  | |- context [if ?c then fetch ?a s1 else fetch ?b s1] =>
      replace (if c then fetch a s1 else fetch b s1)
        with (fetch (draft_write s email envelope) s1)
        by (unfold draft_write; destruct c; reflexivity)
  end.
  split; [reflexivity|].
  eexists. split; [apply patchReplyDraft_lookup|].
  change (replyDrafts (fetch (draft_write s email envelope) s1)) with (replyDrafts s1).
  unfold s1. rewrite patchReplyDraft_lookup. simpl. repeat split.
Qed.

End DraftFacts.

(** The record of a message after a save or a send. *)

Section DraftShape.

Variable decodeBase64Url : string -> string.

Lemma handle401Error_keeps_enrichment r s :
  enrichment_kept s (handle401Error decodeBase64Url r s).
Proof.
  unfold handle401Error, handle401Error_with. destruct (Js.present _); [|repeat split].
  eapply enrichment_kept_trans; [|apply runs_keep_enrichment]. repeat split.
Qed.

Lemma patch_after i p d1 (m : gmap string ReplyDraftState) s :
  replyDrafts s = <[i := d1]> m ->
  replyDrafts (patchReplyDraft i p s) = <[i := fold_left assign p d1]> m.
Proof.
  intros H. simpl. rewrite H, lookup_insert_eq. simpl. apply insert_insert_eq.
Qed.

Lemma patch_first i p s :
  replyDrafts (patchReplyDraft i p s)
  = <[i := fold_left assign p (default blankDraft (replyDrafts s !! i))]> (replyDrafts s).
Proof. reflexivity. Qed.

Lemma saveDraftEdits_catch_after email msg d1 (m : gmap string ReplyDraftState) s :
  replyDrafts s = <[id email := d1]> m ->
  exists message,
    replyDrafts (saveDraftEdits_catch email msg s)
    = <[id email := fold_left assign [Saving false; Error message] d1]> m.
Proof.
  intros H. unfold saveDraftEdits_catch.
  pose proof (interpretGmailError_only_status msg s) as Hs.
  destruct (interpretGmailError msg s) as [message s1]. simpl in Hs.
  exists message. apply patch_after. destruct Hs as (_ & _ & _ & _ & _ & _ & -> & _). exact H.
Qed.

Lemma sendReply_catch_after email msg d1 (m : gmap string ReplyDraftState) s :
  replyDrafts s = <[id email := d1]> m ->
  exists message,
    replyDrafts (sendReply_catch email msg s)
    = <[id email := fold_left assign [Sending false; Error message] d1]> m.
Proof.
  intros H. unfold sendReply_catch.
  pose proof (interpretGmailError_only_status msg s) as Hs.
  destruct (interpretGmailError msg s) as [message s1]. simpl in Hs.
  exists message. apply patch_after. destruct Hs as (_ & _ & _ & _ & _ & _ & -> & _). exact H.
Qed.

(** The record of the message after [saveDraftEdits]: the record it had
    (a fresh one when it had none) under one of three patches. *)
Lemma saveDraftEdits_shape w email s :
  let existing := default blankDraft (replyDrafts s !! id email) in
  exists patch,
    replyDrafts (saveDraftEdits decodeBase64Url w email s)
    = <[id email := fold_left assign patch existing]> (replyDrafts s)
    /\ ((Js.present (draft_body s email) = false
         /\ patch = [Error "Draft is empty. Add text before saving."])
        \/ (Js.present (draft_body s email) = true
            /\ exists message, patch = [Saving true; Notice ""; Saving false; Error message])
        \/ (Js.present (draft_body s email) = true
            /\ Js.truthy (googleToken s) = true
            /\ (exists envelope, getReplyEnvelope email = inr envelope)
            /\ exists data_id data_message_id now,
                 w = DraftOk data_id data_message_id now
                 /\ patch = [ Saving true; Notice ""; Saving false; Dirty false;
                              DraftId (if Js.present data_id then data_id else data_message_id);
                              SavedAt now; Notice "Draft saved to Gmail."; Error "" ])).
Proof.
  cbv zeta. unfold saveDraftEdits. fold (draft_body s email).
  destruct (Js.present (draft_body s email)) eqn:Hb; simpl negb; cbv iota.
  2:{ eexists. split; [apply patch_first|]. left. split; reflexivity. }
  set (existing := default blankDraft (replyDrafts s !! id email)).
  set (s1 := patchReplyDraft (id email) [Saving true; Notice ""] s).
  assert (H1 : replyDrafts s1
               = <[id email := fold_left assign [Saving true; Notice ""] existing]> (replyDrafts s))
    by reflexivity.
  assert (Hfail : forall msg s2, replyDrafts s2 = replyDrafts s1 ->
            exists message,
              replyDrafts (saveDraftEdits_catch email msg s2)
              = <[id email := fold_left assign
                                [Saving true; Notice ""; Saving false; Error message] existing]>
                  (replyDrafts s)).
  { intros msg s2 H2. rewrite H1 in H2.
    destruct (saveDraftEdits_catch_after email msg _ _ s2 H2) as [message Hm].
    exists message. exact Hm. }
  assert (Hcase : forall s',
            (exists message,
                replyDrafts s'
                = <[id email := fold_left assign
                                  [Saving true; Notice ""; Saving false; Error message] existing]>
                    (replyDrafts s)) ->
            forall (P : list DraftField -> Prop),
            exists patch,
              replyDrafts s' = <[id email := fold_left assign patch existing]> (replyDrafts s)
              /\ ((true = false /\ patch = [Error "Draft is empty. Add text before saving."])
                  \/ (true = true
                      /\ exists message,
                           patch = [Saving true; Notice ""; Saving false; Error message])
                  \/ P patch)).
  { intros s' [message Hm] P. eexists. split; [exact Hm|].
    right. left. split; [reflexivity|]. exists message. reflexivity. }
  change (googleToken s1) with (googleToken s).
  destruct (Js.truthy (googleToken s)) eqn:Ht; simpl negb; cbv iota;
    [|apply Hcase, Hfail; reflexivity].
  destruct (getReplyEnvelope email) as [msg|envelope] eqn:He;
    [apply Hcase, Hfail; reflexivity|].
  match goal with
  | |- context [if ?c then fetch ?a s1 else fetch ?b s1] =>
      replace (if c then fetch a s1 else fetch b s1)
        with (fetch (draft_write s email envelope) s1)
        by (unfold draft_write; destruct c; reflexivity)
  end.
  destruct w as [msg|message|recovery|data_id data_message_id now].
  - apply Hcase, Hfail. reflexivity.
  - apply Hcase, Hfail. reflexivity.
  - apply Hcase. exists "Authentication expired".
    apply (patch_after _ [Saving false; Error "Authentication expired"]
             (fold_left assign [Saving true; Notice ""] existing)).
    destruct (handle401Error_keeps_enrichment recovery (fetch (draft_write s email envelope) s1))
      as (_ & _ & -> & _).
    exact H1.
  - exists [ Saving true; Notice ""; Saving false; Dirty false;
             DraftId (if Js.present data_id then data_id else data_message_id);
             SavedAt now; Notice "Draft saved to Gmail."; Error "" ].
    split.
    + apply (patch_after _ [ Saving false; Dirty false;
                             DraftId (if Js.present data_id then data_id else data_message_id);
                             SavedAt now; Notice "Draft saved to Gmail."; Error "" ]
               (fold_left assign [Saving true; Notice ""] existing)).
      exact H1.
    + right. right. split; [reflexivity|]. split; [reflexivity|].
      split; [exists envelope; reflexivity|]. do 3 eexists. split; reflexivity.
Qed.

(** The same for [sendReply]. *)
Lemma sendReply_shape w email s :
  let existing := default blankDraft (replyDrafts s !! id email) in
  exists patch,
    replyDrafts (sendReply decodeBase64Url w email s)
    = <[id email := fold_left assign patch existing]> (replyDrafts s)
    /\ ((Js.present (draft_body s email) = false
         /\ patch = [Error "Draft is empty. Add text before sending."])
        \/ (Js.present (draft_body s email) = true
            /\ exists message, patch = [Sending true; Notice ""; Sending false; Error message])
        \/ (Js.present (draft_body s email) = true
            /\ patch = [ Sending true; Notice ""; Sending false; Dirty false;
                         Notice "Reply sent!"; Error "" ])).
Proof.
  cbv zeta. unfold sendReply. fold (draft_body s email).
  destruct (Js.present (draft_body s email)) eqn:Hb; simpl negb; cbv iota.
  2:{ eexists. split; [apply patch_first|]. left. split; reflexivity. }
  set (existing := default blankDraft (replyDrafts s !! id email)).
  set (s1 := patchReplyDraft (id email) [Sending true; Notice ""] s).
  assert (H1 : replyDrafts s1
               = <[id email := fold_left assign [Sending true; Notice ""] existing]> (replyDrafts s))
    by reflexivity.
  assert (Hfail : forall msg s2, replyDrafts s2 = replyDrafts s1 ->
            exists patch,
              replyDrafts (sendReply_catch email msg s2)
              = <[id email := fold_left assign patch existing]> (replyDrafts s)
              /\ ((true = false /\ patch = [Error "Draft is empty. Add text before sending."])
                  \/ (true = true
                      /\ exists message,
                           patch = [Sending true; Notice ""; Sending false; Error message])
                  \/ (true = true
                      /\ patch = [ Sending true; Notice ""; Sending false; Dirty false;
                                   Notice "Reply sent!"; Error "" ]))).
  { intros msg s2 H2. rewrite H1 in H2.
    destruct (sendReply_catch_after email msg _ _ s2 H2) as [message Hm].
    exists [Sending true; Notice ""; Sending false; Error message].
    split; [exact Hm|]. right. left. split; [reflexivity|]. exists message. reflexivity. }
  change (googleToken s1) with (googleToken s).
  destruct (Js.truthy (googleToken s)); simpl negb; cbv iota; [|apply Hfail; reflexivity].
  destruct (getReplyEnvelope email) as [msg|envelope]; [apply Hfail; reflexivity|].
  destruct w as [msg|message|recovery|resync].
  - apply Hfail. reflexivity.
  - apply Hfail. reflexivity.
  - exists [Sending true; Notice ""; Sending false; Error "Authentication expired"].
    split; [|right; left; split; [reflexivity | eexists; reflexivity]].
    apply (patch_after _ [Sending false; Error "Authentication expired"]
             (fold_left assign [Sending true; Notice ""] existing)).
    match goal with
    | |- replyDrafts (handle401Error _ _ ?x) = _ =>
        destruct (handle401Error_keeps_enrichment recovery x) as (_ & _ & -> & _)
    end.
    exact H1.
  - exists [Sending true; Notice ""; Sending false; Dirty false; Notice "Reply sent!"; Error ""].
    split; [|right; right; split; reflexivity].
    match goal with
    | |- replyDrafts (fetchEmails _ _ ?t ?x) = _ =>
        destruct (proj1 (runs_keep_enrichment decodeBase64Url) resync t x) as (_ & _ & -> & _)
    end.
    apply (patch_after _ [Sending false; Dirty false; Notice "Reply sent!"; Error ""]
             (fold_left assign [Sending true; Notice ""] existing)).
    exact H1.
Qed.

Lemma interpretGmailError_fst msg s1 s2 :
  fst (interpretGmailError msg s1) = fst (interpretGmailError msg s2).
Proof.
  unfold interpretGmailError. destruct (Js.includes _ _); [reflexivity|].
  destruct (matches_invalid _); reflexivity.
Qed.

Lemma saveDraftEdits_catch_lookup email msg s s0 :
  replyDrafts (saveDraftEdits_catch email msg s) !! id email
  = Some (fold_left assign [Saving false; Error (fst (interpretGmailError msg s0))]
            (default blankDraft (replyDrafts s !! id email))).
Proof.
  unfold saveDraftEdits_catch. rewrite (interpretGmailError_fst msg s0 s).
  pose proof (interpretGmailError_only_status msg s) as Hs.
  destruct (interpretGmailError msg s) as [message s1]. simpl in Hs. cbn [fst].
  rewrite patchReplyDraft_lookup.
  destruct Hs as (_ & _ & _ & _ & _ & _ & -> & _). reflexivity.
Qed.

Lemma sendReply_catch_lookup email msg s s0 :
  replyDrafts (sendReply_catch email msg s) !! id email
  = Some (fold_left assign [Sending false; Error (fst (interpretGmailError msg s0))]
            (default blankDraft (replyDrafts s !! id email))).
Proof.
  unfold sendReply_catch. rewrite (interpretGmailError_fst msg s0 s).
  pose proof (interpretGmailError_only_status msg s) as Hs.
  destruct (interpretGmailError msg s) as [message s1]. simpl in Hs. cbn [fst].
  rewrite patchReplyDraft_lookup.
  destruct Hs as (_ & _ & _ & _ & _ & _ & -> & _). reflexivity.
Qed.

(** The record of the message after a save of a text that is not blank,
    answer by answer. *)
Lemma saveDraftEdits_record w email s :
  Js.present (draft_body s email) = true ->
  let existing := default blankDraft (replyDrafts s !! id email) in
  let report := fun msg => fst (interpretGmailError msg s) in
  replyDrafts (saveDraftEdits decodeBase64Url w email s) !! id email
  = Some (fold_left assign
            (if negb (Js.truthy (googleToken s))
             then [Saving false; Error (report "Connect Gmail first.")]
             else
               match getReplyEnvelope email with
               | inl msg => [Saving false; Error (report msg)]
               | inr _ =>
                   match w with
                   | DraftThrows msg => [Saving false; Error (report msg)]
                   | DraftNotOk message =>
                       [Saving false; Error (report (Js.or_else message "Unable to save draft."))]
                   | DraftUnauthorized _ => [Saving false; Error "Authentication expired"]
                   | DraftOk data_id data_message_id now =>
                       [ Saving false; Dirty false;
                         DraftId (if Js.present data_id then data_id else data_message_id);
                         SavedAt now; Notice "Draft saved to Gmail."; Error "" ]
                   end
               end)
            (fold_left assign [Saving true; Notice ""] existing)).
Proof.
  intros Hb. cbv zeta. unfold saveDraftEdits. fold (draft_body s email).
  rewrite Hb. cbn [negb]. cbv iota.
  set (existing := default blankDraft (replyDrafts s !! id email)).
  set (s1 := patchReplyDraft (id email) [Saving true; Notice ""] s).
  assert (H1 : forall s2, replyDrafts s2 = replyDrafts s1 ->
                          default blankDraft (replyDrafts s2 !! id email)
                          = fold_left assign [Saving true; Notice ""] existing).
  { intros s2 ->. unfold s1. rewrite patchReplyDraft_lookup. reflexivity. }
  assert (Hcatch : forall msg s2, replyDrafts s2 = replyDrafts s1 ->
            replyDrafts (saveDraftEdits_catch email msg s2) !! id email
            = Some (fold_left assign [Saving false; Error (fst (interpretGmailError msg s))]
                      (fold_left assign [Saving true; Notice ""] existing))).
  { intros msg s2 H2. rewrite (saveDraftEdits_catch_lookup email msg s2 s), (H1 s2 H2).
    reflexivity. }
  change (googleToken s1) with (googleToken s).
  destruct (Js.truthy (googleToken s)); cbn [negb]; cbv iota; [|apply Hcatch; reflexivity].
  destruct (getReplyEnvelope email) as [msg|envelope]; [apply Hcatch; reflexivity|].
  match goal with
  | |- context [if ?c then fetch ?a s1 else fetch ?b s1] =>
      replace (if c then fetch a s1 else fetch b s1)
        with (fetch (draft_write s email envelope) s1)
        by (unfold draft_write; destruct c; reflexivity)
  end.
  destruct w as [msg|message|recovery|data_id data_message_id now].
  - apply Hcatch. reflexivity.
  - apply Hcatch. reflexivity.
  - rewrite patchReplyDraft_lookup, (H1 _); [reflexivity|].
    apply (handle401Error_keeps_enrichment recovery (fetch (draft_write s email envelope) s1)).
  - rewrite patchReplyDraft_lookup, (H1 _); reflexivity.
Qed.

(** The same for a send. *)
Lemma sendReply_record w email s :
  Js.present (draft_body s email) = true ->
  let existing := default blankDraft (replyDrafts s !! id email) in
  let report := fun msg => fst (interpretGmailError msg s) in
  replyDrafts (sendReply decodeBase64Url w email s) !! id email
  = Some (fold_left assign
            (if negb (Js.truthy (googleToken s))
             then [Sending false; Error (report "Connect Gmail first.")]
             else
               match getReplyEnvelope email with
               | inl msg => [Sending false; Error (report msg)]
               | inr _ =>
                   match w with
                   | SendThrows msg => [Sending false; Error (report msg)]
                   | SendNotOk message =>
                       [Sending false; Error (report (Js.or_else message "Unable to send reply."))]
                   | SendUnauthorized _ => [Sending false; Error "Authentication expired"]
                   | SendOk _ => [Sending false; Dirty false; Notice "Reply sent!"; Error ""]
                   end
               end)
            (fold_left assign [Sending true; Notice ""] existing)).
Proof.
  intros Hb. cbv zeta. unfold sendReply. fold (draft_body s email).
  rewrite Hb. cbn [negb]. cbv iota.
  set (existing := default blankDraft (replyDrafts s !! id email)).
  set (s1 := patchReplyDraft (id email) [Sending true; Notice ""] s).
  assert (H1 : forall s2, replyDrafts s2 = replyDrafts s1 ->
                          default blankDraft (replyDrafts s2 !! id email)
                          = fold_left assign [Sending true; Notice ""] existing).
  { intros s2 ->. unfold s1. rewrite patchReplyDraft_lookup. reflexivity. }
  assert (Hcatch : forall msg s2, replyDrafts s2 = replyDrafts s1 ->
            replyDrafts (sendReply_catch email msg s2) !! id email
            = Some (fold_left assign [Sending false; Error (fst (interpretGmailError msg s))]
                      (fold_left assign [Sending true; Notice ""] existing))).
  { intros msg s2 H2. rewrite (sendReply_catch_lookup email msg s2 s), (H1 s2 H2).
    reflexivity. }
  change (googleToken s1) with (googleToken s).
  destruct (Js.truthy (googleToken s)); cbn [negb]; cbv iota; [|apply Hcatch; reflexivity].
  destruct (getReplyEnvelope email) as [msg|envelope]; [apply Hcatch; reflexivity|].
  destruct w as [msg|message|recovery|resync].
  - apply Hcatch. reflexivity.
  - apply Hcatch. reflexivity.
  - rewrite patchReplyDraft_lookup, (H1 _); [reflexivity|].
    match goal with
    | |- replyDrafts (handle401Error _ _ ?x) = _ =>
        apply (handle401Error_keeps_enrichment recovery x)
    end.
  - match goal with
    | |- replyDrafts (fetchEmails _ _ _ ?x) !! _ = _ =>
        destruct (proj1 (runs_keep_enrichment decodeBase64Url) resync
                    (Some (googleToken s)) x) as (_ & _ & -> & _)
    end.
    rewrite patchReplyDraft_lookup, (H1 _); reflexivity.
Qed.

End DraftShape.

Section DraftRuns.

Variable decodeBase64Url : string -> string.





End DraftRuns.




(** C6.  With a blank text (no record, an empty text or white space
    only) both [saveDraftEdits] and [sendReply] stop at once: no call is
    issued, the record gets the empty-draft error, and its text, draft id
    and save time are those it had (those of a fresh record when there was
    none). *)
Theorem blank_draft_is_refused
    (decodeBase64Url : string -> string) (email : GmailEmail) (s : Dashboard) :
  Js.present (draft_body s email) = false ->
  let existing := default blankDraft (replyDrafts s !! id email) in
  let refused := fun (msg : string) (s' : Dashboard) =>
    net s' = net s
    /\ exists d',
         replyDrafts s' !! id email = Some d'
         /\ d_error d' = Some msg
         /\ content d' = content existing
         /\ draftId d' = draftId existing
         /\ savedAt d' = savedAt existing in
  (forall w, refused "Draft is empty. Add text before saving."
               (saveDraftEdits decodeBase64Url w email s))
  /\ (forall w, refused "Draft is empty. Add text before sending."
                  (sendReply decodeBase64Url w email s)).
Proof.
  intros Hb existing refused. subst refused. cbv beta. split; intros w.
  - rewrite (saveDraftEdits_blank decodeBase64Url w email s _ Hb eq_refl).
    split; [reflexivity|]. eexists. split; [apply patchReplyDraft_lookup|].
    repeat split.
  - rewrite (sendReply_blank decodeBase64Url w email s _ Hb eq_refl).
    split; [reflexivity|]. eexists. split; [apply patchReplyDraft_lookup|].
    repeat split.
Qed.

Lemma blank_draft_is_refused_witness :
  let s := sample_blank_state in
  let s' := sendReply (fun x => x) (SendOk (ListOk [] "2024-01-04T00:00:00.000Z")) sample_email s in
  net s' = net s
  /\ exists d',
       replyDrafts s' !! "m0" = Some d'
       /\ d_error d' = Some "Draft is empty. Add text before sending."
       /\ content d' = "   "
       /\ draftId d' = Some "r-1"
       /\ savedAt d' = Some "2024-01-03T00:00:00.000Z".
Proof.
  intros s s'.
  assert (Hb : Js.present (draft_body s sample_email) = false) by (vm_compute; reflexivity).
  destruct (blank_draft_is_refused (fun x => x) sample_email s Hb) as [_ Hsend].
  destruct (Hsend (SendOk (ListOk [] "2024-01-04T00:00:00.000Z")))
    as (Hnet & d' & Hd' & He & Hc & Hi & Ht).
  split; [exact Hnet|]. exists d'. split; [exact Hd'|]. split; [exact He|].
  assert (Hex : replyDrafts s !! id sample_email
                = Some (mkDraft false "   " (Some "") (Some "r-1")
                          (Some "2024-01-03T00:00:00.000Z") (Some false) None (Some true) (Some "")))
    by (vm_compute; reflexivity).
  rewrite Hex in Hc, Hi, Ht. repeat split; assumption.
Defined.

(** ** Enrichment *)

Lemma find_split {A} (f : A -> bool) (l : list A) (x : A) :
  List.find f l = Some x ->
  exists pre post, l = pre ++ x :: post /\ Forall (fun y => f y = false) pre /\ f x = true.
Proof.
  induction l as [|a l IH]; simpl; [discriminate|].
  destruct (f a) eqn:Ha.
  - intros [= ->]. exists [], l. split; [reflexivity|]. split; [constructor | exact Ha].
  - intros H. destruct (IH H) as (pre & post & -> & Hpre & Hx).
    exists (a :: pre), post. split; [reflexivity|]. split; [constructor; assumption | exact Hx].
Qed.

Lemma find_some_exists {A} (f : A -> bool) (l : list A) (x : A) :
  In x l -> f x = true -> exists y, List.find f l = Some y.
Proof.
  induction l as [|a l IH]; simpl; [intros []|].
  intros [-> | Hin] Hx.
  - rewrite Hx. eauto.
  - destruct (f a); eauto.
Qed.

Lemma remove_first_subset i j l : j ∈ remove_first i l -> j ∈ l.
Proof.
  induction l as [|k l IH]; simpl; [trivial|].
  destruct (String.eqb i k); intros H.
  - apply elem_of_cons. right. exact H.
  - apply elem_of_cons in H as [-> | H]; apply elem_of_cons; [left; reflexivity | right; auto].
Qed.

Lemma remove_first_NoDup i l : NoDup l -> NoDup (remove_first i l) /\ i ∉ remove_first i l.
Proof.
  induction l as [|k l IH]; simpl; intros H.
  - split; [constructor | apply not_elem_of_nil].
  - apply NoDup_cons in H as [Hk Hl].
    destruct (String.eqb i k) eqn:E.
    + apply String.eqb_eq in E as ->. split; assumption.
    + apply String.eqb_neq in E. destruct (IH Hl) as [IH1 IH2]. split.
      * apply NoDup_cons. split; [|exact IH1]. intros Hin. apply Hk.
        eapply remove_first_subset, Hin.
      * intros Hin. apply elem_of_cons in Hin as [-> | Hin]; [congruence | auto].
Qed.

Section EnrichmentFacts.

Variable decodeBase64Url : string -> string.
Variable OPENAI_API_KEY : option string.
Variable JSON_parse : string -> string + Json.

Local Abbreviation schedule := (scheduleEnrichment OPENAI_API_KEY).
Local Abbreviation start := (runAnalysis_start OPENAI_API_KEY).
Local Abbreviation settle := (runAnalysis_settle JSON_parse).
Local Abbreviation step1 := (step decodeBase64Url OPENAI_API_KEY JSON_parse).
Local Abbreviation runs := (run decodeBase64Url OPENAI_API_KEY JSON_parse).

Lemma awaits_analysis_spec s email :
  awaits_analysis s email = true
  <-> analyses s !! id email = None
      /\ a_loading <$> (analysisState s !! id email) <> Some true.
Proof.
  unfold awaits_analysis. rewrite andb_true_iff, !negb_true_iff, bool_decide_eq_false.
  rewrite <- eq_None_not_Some.
  destruct (analysisState s !! id email) as [[[] e]|]; simpl; intuition congruence.
Qed.

(** One scheduling step: nothing, or the start of one call, for the first
    message of the snapshot that awaits analysis. *)
Lemma scheduleEnrichment_selects s :
  schedule s = s
  \/ exists pre nextEmail post,
       emails s = pre ++ nextEmail :: post
       /\ Forall (fun email => awaits_analysis s email = false) pre
       /\ awaits_analysis s nextEmail = true
       /\ Js.truthy (openAiKey OPENAI_API_KEY) = true
       /\ schedule s = start nextEmail s
       /\ net (schedule s) = net s ++ [AnalyzeEmail (id nextEmail)]
       /\ pending (schedule s) = pending s ++ [id nextEmail]
       /\ analysisState (schedule s)
          = <[id nextEmail := mkFlag true None]> (analysisState s).
Proof.
  unfold scheduleEnrichment.
  destruct (Js.truthy (openAiKey OPENAI_API_KEY)) eqn:Hk; simpl; [|left; reflexivity].
  destruct (0 <? length (emails s))%nat; simpl; [|left; reflexivity].
  destruct (List.find (awaits_analysis s) (emails s)) as [nextEmail|] eqn:Hf; [|left; reflexivity].
  right. destruct (find_split _ _ _ Hf) as (pre & post & He & Hpre & Hn).
  exists pre, nextEmail, post. unfold runAnalysis_start. rewrite Hk. simpl.
  repeat split; assumption.
Qed.

(** With the key set and a message awaiting analysis, the step does start
    a call. *)
Lemma scheduleEnrichment_starts s email :
  Js.truthy (openAiKey OPENAI_API_KEY) = true ->
  In email (emails s) -> awaits_analysis s email = true ->
  schedule s <> s.
Proof.
  intros Hk Hin Ha.
  destruct (find_some_exists _ _ _ Hin Ha) as [y Hy].
  unfold scheduleEnrichment. rewrite Hk. simpl.
  destruct (emails s) as [|e l] eqn:He; [destruct Hin|]. simpl length. simpl.
  change (match (if awaits_analysis s e then Some e else List.find (awaits_analysis s) l) with
          | Some nextEmail => start nextEmail s
          | None => s
          end <> s).
  simpl in Hy. rewrite Hy.
  unfold runAnalysis_start. rewrite Hk. simpl. intros Heq.
  apply (f_equal (fun x => length (pending x))) in Heq. simpl in Heq.
  rewrite length_app in Heq. simpl in Heq. lia.
Qed.

Lemma runAnalysis_settle_flags email focus reply s :
  let s' := settle email focus reply s in
  pending s' = remove_first (id email) (pending s)
  /\ exists flag, a_loading flag = false
       /\ analysisState s' = <[id email := flag]> (analysisState s).
Proof.
  cbv zeta. unfold runAnalysis_settle, runAnalysis_catch.
  destruct reply as [msg|message|message]; simpl.
  - split; [reflexivity|]. eexists. split; [|reflexivity]. reflexivity.
  - split; [reflexivity|]. eexists. split; [|reflexivity]. reflexivity.
  - destruct (JSON_parse _) as [msg|value]; simpl.
    + split; [reflexivity|]. eexists. split; [|reflexivity]. reflexivity.
    + destruct (bool_decide (focus = Some false)); simpl;
        (split; [reflexivity|]; eexists; split; [|reflexivity]; reflexivity).
Qed.

Lemma step_keeps_pending_marked s ev : pending_marked s -> pending_marked (step1 s ev).
Proof.
  intros [Hnd Hmark]. destruct ev as [|email reply|w accessToken]; simpl.
  - destruct (scheduleEnrichment_selects s)
      as [-> | (pre & e & post & _ & _ & Ha & _ & _ & _ & Hp & Hs)]; [split; assumption|].
    apply awaits_analysis_spec in Ha as [_ Hl].
    assert (Hfresh : id e ∉ pending s) by (intros Hin; apply Hl, Hmark, Hin).
    split.
    + rewrite Hp. apply NoDup_app. split; [exact Hnd|]. split.
      * intros x Hx Hx'. apply list_elem_of_singleton in Hx' as ->. auto.
      * apply NoDup_singleton.
    + intros i Hi. rewrite Hs. rewrite Hp in Hi.
      apply elem_of_app in Hi as [Hi | Hi].
      * rewrite lookup_insert_ne by (intros <-; auto). apply Hmark, Hi.
      * apply list_elem_of_singleton in Hi as ->. rewrite lookup_insert_eq. reflexivity.
  - destruct (bool_decide (id email ∈ pending s)); [|split; assumption].
    destruct (runAnalysis_settle_flags email (Some false) reply s) as (Hp & flag & _ & Hs).
    destruct (remove_first_NoDup (id email) _ Hnd) as [Hnd' Hgone].
    split.
    + rewrite Hp. exact Hnd'.
    + intros i Hi. rewrite Hp in Hi. rewrite Hs.
      rewrite lookup_insert_ne by (intros <-; auto).
      apply Hmark. eapply remove_first_subset, Hi.
  - destruct (proj1 (runs_keep_enrichment decodeBase64Url) w accessToken s)
      as (_ & Hs & _ & Hp).
    split.
    + rewrite Hp. exact Hnd.
    + intros i Hi. rewrite Hp in Hi. rewrite Hs. apply Hmark, Hi.
Qed.

Lemma run_keeps_pending_marked evs s : pending_marked s -> pending_marked (runs evs s).
Proof.
  revert s. induction evs as [|ev evs IH]; intros s H; simpl; [exact H|].
  apply IH, step_keeps_pending_marked, H.
Qed.

(** A failed answer leaves the message without an insight record and with
    its marker down: the scheduling predicate accepts it again. *)
Lemma failed_message_awaits_again email focus reply s :
  analyses s !! id email = None ->
  match reply with
  | AiOk message =>
      exists msg, JSON_parse (Js.or_else (Some (extractMessageContent message)) "{}") = inl msg
  | _ => True
  end ->
  awaits_analysis (settle email focus reply s) email = true.
Proof.
  intros Hnone Hfail. apply awaits_analysis_spec.
  unfold runAnalysis_settle, runAnalysis_catch.
  destruct reply as [msg|message|message].
  - simpl. rewrite lookup_insert_eq. split; [exact Hnone | discriminate].
  - simpl. rewrite lookup_insert_eq. split; [exact Hnone | discriminate].
  - destruct Hfail as [msg Hm]. rewrite Hm. simpl. rewrite lookup_insert_eq.
    split; [exact Hnone | discriminate].
Qed.

End EnrichmentFacts.

(** C3, as the code has it.  A scheduling step starts at most one call,
    for the first message in snapshot order that has no insight record and
    no in-flight marker, and it does start one when the key is set and
    such a message exists; over any course of events a message never has
    two calls outstanding.  Calls for different messages may be
    outstanding together. *)
Theorem scheduling_one_call_per_message
    (decodeBase64Url : string -> string) (OPENAI_API_KEY : option string)
    (JSON_parse : string -> string + Json) :
  (forall s,
      let s' := scheduleEnrichment OPENAI_API_KEY s in
      s' = s
      \/ exists pre nextEmail post,
           emails s = pre ++ nextEmail :: post
           /\ Forall (fun email => awaits_analysis s email = false) pre
           /\ awaits_analysis s nextEmail = true
           /\ net s' = net s ++ [AnalyzeEmail (id nextEmail)]
           /\ pending s' = pending s ++ [id nextEmail])
  /\ (forall s email,
        Js.truthy (openAiKey OPENAI_API_KEY) = true ->
        In email (emails s) -> awaits_analysis s email = true ->
        scheduleEnrichment OPENAI_API_KEY s <> s)
  /\ (forall s email,
        awaits_analysis s email = true
        <-> analyses s !! id email = None
            /\ a_loading <$> (analysisState s !! id email) <> Some true)
  /\ (forall evs,
        NoDup (pending (run decodeBase64Url OPENAI_API_KEY JSON_parse evs initialDashboard))).
Proof.
  split; [|split; [|split]].
  - intros s. cbv zeta.
    destruct (scheduleEnrichment_selects OPENAI_API_KEY s)
      as [H | (pre & e & post & He & Hpre & Ha & _ & _ & Hn & Hp & _)]; [left; exact H|].
    right. exists pre, e, post. repeat split; assumption.
  - intros s email. apply scheduleEnrichment_starts.
  - intros s email. apply awaits_analysis_spec.
  - intros evs. apply run_keeps_pending_marked. split; [constructor|].
    intros i Hi. apply elem_of_nil in Hi. destruct Hi.
Qed.

Lemma scheduling_one_call_per_message_witness :
  let s := fetchEmails (fun x => x) sample_inbox (Some "token-1") initialDashboard in
  scheduleEnrichment (Some "sk-test") s <> s
  /\ NoDup (pending (run (fun x => x) (Some "sk-test") (fun _ => inl "unused")
                       [Sync sample_inbox (Some "token-1"); Render; Render; Render]
                       initialDashboard)).
Proof.
  intros s.
  destruct (scheduling_one_call_per_message (fun x => x) (Some "sk-test") (fun _ => inl "unused"))
    as (_ & Hstart & _ & Hnodup).
  split; [|apply Hnodup].
  apply (Hstart s (sample_normalized "m1")); [reflexivity | left; reflexivity | reflexivity].
Defined.

(** C3 as worded fails: with two messages in the snapshot, two renders in
    a row leave two enrichment calls outstanding. *)
Lemma two_enrichment_calls_outstanding :
  ~ (forall (decodeBase64Url : string -> string) (OPENAI_API_KEY : option string)
            (JSON_parse : string -> string + Json) (evs : list Event),
        (length (pending (run decodeBase64Url OPENAI_API_KEY JSON_parse evs initialDashboard))
         <= 1)%nat).
Proof.
  intros H.
  specialize (H (fun x => x) (Some "sk-test") (fun _ => inl "unused")
                [Sync sample_inbox (Some "token-1"); Render; Render]).
  vm_compute in H. lia.
Qed.

(** C2 on the code: with two messages awaiting analysis, the call for the
    first fails; the error is recorded, and the very next scheduling step
    starts the same message again, erasing the error. *)
Lemma failed_enrichment_is_restarted :
  let step := step (fun x => x) (Some "sk-test") (fun _ => inl "unused") in
  let failed :=
    fold_left step
      [ Sync sample_inbox (Some "token-1"); Render; Render;
        Answer (sample_normalized "m1") (AiNotOk (Some "Rate limit reached")) ]
      initialDashboard in
  let next := step failed Render in
  emails failed = [sample_normalized "m1"; sample_normalized "m2"]
  /\ analysisState failed !! "m1" = Some (mkFlag false (Some "Rate limit reached"))
  /\ pending failed = ["m2"]
  /\ analysisState next !! "m1" = Some (mkFlag true None)
  /\ pending next = ["m2"; "m1"]
  /\ net next
     = [ ListInbox "token-1"; GetMessage "m1" "token-1"; GetMessage "m2" "token-1";
         AnalyzeEmail "m1"; AnalyzeEmail "m2"; AnalyzeEmail "m1" ].
Proof. vm_compute. repeat split. Qed.

(** C9, as the code has it.  A response that parses is laid over the
    default record and stored as the insight record of the message,
    whatever it holds: a missing property takes its default, a present one
    is stored as it came.  Only a response that does not parse fails; its
    error goes to the enrichment state and no record is stored. *)
Theorem runAnalysis_stores_unvalidated
    (JSON_parse : string -> string + Json) (email : GmailEmail) (focus : option bool)
    (message : option MessageContent) (s : Dashboard) :
  let content := Js.or_else (Some (extractMessageContent message)) "{}" in
  let s' := runAnalysis_settle JSON_parse email focus (AiOk message) s in
  (forall payload,
      JSON_parse content = inr payload ->
      analyses s' !! id email = Some (spread_over defaultAnalysis payload)
      /\ analysisState s' !! id email = Some (mkFlag false None)
      /\ category (spread_over defaultAnalysis payload)
         = default (JString "FYI") (property "category" payload)
      /\ priority (spread_over defaultAnalysis payload)
         = default (JNumber 5) (property "priority" payload)
      /\ summary (spread_over defaultAnalysis payload)
         = default (JString "") (property "summary" payload))
  /\ (forall msg,
        JSON_parse content = inl msg ->
        analyses s' = analyses s
        /\ analysisState s' !! id email = Some (mkFlag false (Some msg))).
Proof.
  cbv zeta. unfold runAnalysis_settle, runAnalysis_catch. split.
  - intros payload ->.
    destruct (bool_decide (focus = Some false)); simpl; rewrite !lookup_insert_eq;
      repeat split.
  - intros msg ->. simpl. rewrite lookup_insert_eq. split; reflexivity.
Qed.

Lemma runAnalysis_stores_unvalidated_witness :
  let s' :=
    runAnalysis_settle (fun _ => inr off_schema_payload) (sample_normalized "m1") (Some false)
      (AiOk (Some (ContentString "{...}"))) initialDashboard in
  schema_valid off_schema_payload = false
  /\ analyses s' !! "m1"
     = Some (mkAnalysis (JString "") (JString "Spam") (JNumber 99) (JArray []) (JArray []) (JArray [])).
Proof.
  split; [reflexivity|].
  destruct (runAnalysis_stores_unvalidated (fun _ => inr off_schema_payload)
              (sample_normalized "m1") (Some false) (Some (ContentString "{...}"))
              initialDashboard) as [Hstore _].
  destruct (Hstore off_schema_payload eq_refl) as [H _]. exact H.
Defined.

(** C9 as worded fails: a payload with no summary, a category outside the
    enum and a priority outside 1..10 is stored, and no error is raised. *)
Lemma off_schema_payload_is_stored :
  ~ (forall (JSON_parse : string -> string + Json) (email : GmailEmail) (focus : option bool)
            (message : option MessageContent) (payload : Json) (s : Dashboard),
        JSON_parse (Js.or_else (Some (extractMessageContent message)) "{}") = inr payload ->
        schema_valid payload = false ->
        let s' := runAnalysis_settle JSON_parse email focus (AiOk message) s in
        analyses s' !! id email = analyses s !! id email
        /\ exists msg, analysisState s' !! id email = Some (mkFlag false (Some msg))).
Proof.
  intros H.
  destruct (H (fun _ => inr off_schema_payload) (sample_normalized "m1") (Some false)
              (Some (ContentString "{...}")) off_schema_payload initialDashboard
              eq_refl eq_refl) as [Hkeep _].
  vm_compute in Hkeep. discriminate Hkeep.
Qed.

(** * Further properties *)

(** ** Sync cycle and credential recovery, continued *)

Section RecoveryFacts.

Variable decodeBase64Url : string -> string.

Lemma loading_fetchEmails_catch msg s : loading (gmailStatus (fetchEmails_catch msg s)) = false.
Proof.
  unfold fetchEmails_catch. destruct (interpretGmailError msg s) as [message s1]. reflexivity.
Qed.

Lemma or_else_granted access_token d :
  Js.present access_token = true ->
  Js.truthy (Js.or_else (Some (default "" access_token)) d) = true
  /\ Js.truthy (default "" access_token) = true.
Proof.
  destruct access_token as [t|]; simpl; [|discriminate].
  intros H. split; [rewrite H|]; exact H.
Qed.

(** Whatever the provider answers, a cycle that had a token ends with
    the spinner off, and so does every refresh. *)
Lemma runs_end_idle :
  (forall w accessToken s,
      Js.truthy (Js.or_else accessToken (googleToken s)) = true ->
      loading (gmailStatus (fetchEmails decodeBase64Url w accessToken s)) = false)
  /\ (forall r refreshToken s,
        loading (gmailStatus (refreshAccessToken decodeBase64Url r refreshToken s)) = false).
Proof.
  apply world_mutind.
  - intros msg tok s Ht. simpl. rewrite Ht. simpl. apply loading_fetchEmails_catch.
  - intros m tok s Ht. simpl. rewrite Ht. simpl. apply loading_fetchEmails_catch.
  - intros r IH tok s Ht. simpl. rewrite Ht. simpl.
    unfold handle401Error_with. destruct (Js.present _); [apply IH | reflexivity].
  - intros messages now tok s Ht. simpl. rewrite Ht. simpl.
    destruct messages as [|m l]; [reflexivity|].
    destruct (all_details _); [apply loading_fetchEmails_catch | reflexivity].
  - intros rt s. reflexivity.
  - intros access_token descr next IH rt s. simpl.
    destruct (Js.present access_token) eqn:Hp; [|reflexivity].
    apply IH. apply (or_else_granted access_token _ Hp).
Qed.

(** After [n] rounds of 401 and granted refresh the run is where it
    began: a cycle is being issued, with the spinner on. *)
Lemma fetchEmails_reissued n newToken w :
  Js.truthy newToken = true ->
  forall accessToken s,
    Js.truthy (Js.or_else accessToken (googleToken s)) = true ->
    Js.present (getItem "gmail_refresh_token" s) = true ->
    exists s_n,
      fetchEmails decodeBase64Url (reissued n newToken w) accessToken s
      = fetchEmails decodeBase64Url w
          (match n with 0 => accessToken | S _ => Some newToken end) s_n
      /\ list_calls s_n = list_calls s + n
      /\ Js.present (getItem "gmail_refresh_token" s_n) = true
      /\ emails s_n = emails s /\ selectedEmailId s_n = selectedEmailId s
      /\ match n with
         | 0 => s_n = s
         | S _ => loading (gmailStatus s_n) = true /\ googleToken s_n = newToken
         end.
Proof.
  intros Hn. induction n as [|k IH]; intros accessToken s Ht Hr.
  - exists s. rewrite Nat.add_0_r. repeat split; try reflexivity. exact Hr.
  - cbn [reissued]. cbn [fetchEmails]. rewrite Ht. cbn [negb]. cbv iota.
    unfold handle401Error_with.
    match goal with
    | |- context [Js.present (getItem "gmail_refresh_token" ?x)] =>
        replace (getItem "gmail_refresh_token" x) with (getItem "gmail_refresh_token" s)
          by (unfold getItem; simpl; symmetry; apply lookup_delete_ne; discriminate)
    end.
    rewrite Hr. cbn [refreshAccessToken Js.present]. rewrite Hn. cbn [default].
    match goal with
    | |- context [fetchEmails _ (reissued k newToken w) (Some ?t) ?x] =>
        destruct (IH (Some t) x) as (s_k & Hrun & Hcalls & Hrk & He & Hs & Hk)
    end.
    + simpl. rewrite Hn. exact Hn.
    + unfold getItem. simpl. rewrite lookup_insert_ne by discriminate.
      rewrite lookup_delete_ne by discriminate. exact Hr.
    + exists s_k. split; [|split; [|split; [|split; [|split]]]].
      * rewrite Hrun. destruct k; reflexivity.
      * rewrite Hcalls. unfold list_calls. simpl.
        rewrite !List.filter_app, !length_app. simpl. lia.
      * exact Hrk.
      * rewrite He. reflexivity.
      * rewrite Hs. reflexivity.
      * destruct k as [|k']; [subst s_k; split; reflexivity | exact Hk].
Qed.

End RecoveryFacts.

(** X1.  Whenever a sync cycle that has a token comes to an end, also
    through a 401 recovery and the cycles that it issues anew, the loading
    flag is off at the end; the same holds for a recovery started on its
    own.  The code bounds that chain nowhere: with a refresh token stored,
    while the provider answers 401 and the token endpoint grants a token,
    the run is, after any number [n] of rounds, issuing one more cycle,
    with [n] more list calls behind it, the spinner on and the snapshot as
    it was. *)
Theorem fetchEmails_ends_idle
    (decodeBase64Url : string -> string) (w : InboxWorld)
    (accessToken : option string) (s : Dashboard) :
  Js.truthy (Js.or_else accessToken (googleToken s)) = true ->
  loading (gmailStatus (fetchEmails decodeBase64Url w accessToken s)) = false
  /\ (forall r s0, loading (gmailStatus (handle401Error decodeBase64Url r s0)) = false)
  /\ (forall n newToken,
        Js.truthy newToken = true ->
        Js.present (getItem "gmail_refresh_token" s) = true ->
        exists s_n,
          fetchEmails decodeBase64Url (reissued (S n) newToken w) accessToken s
          = fetchEmails decodeBase64Url w (Some newToken) s_n
          /\ list_calls s_n = list_calls s + S n
          /\ loading (gmailStatus s_n) = true
          /\ googleToken s_n = newToken
          /\ Js.present (getItem "gmail_refresh_token" s_n) = true
          /\ emails s_n = emails s /\ selectedEmailId s_n = selectedEmailId s).
Proof.
  intros Ht. split; [apply runs_end_idle, Ht|]. split.
  - intros r s0. unfold handle401Error, handle401Error_with.
    destruct (Js.present _); [apply runs_end_idle | reflexivity].
  - intros n newToken Hn Hr.
    destruct (fetchEmails_reissued decodeBase64Url (S n) newToken w Hn accessToken s Ht Hr)
      as (s_n & Hrun & Hcalls & Hrn & He & Hs & Hl & Hg).
    exists s_n. repeat split; assumption.
Qed.

Lemma fetchEmails_ends_idle_witness :
  loading (gmailStatus
    (fetchEmails (fun x => x)
       (ListUnauthorized (TokenReplies (Some "token-2") None (ListNotOk (Some "Backend Error"))))
       None sample_state)) = false
  /\ exists s_n,
       fetchEmails (fun x => x) (reissued 3 "token-2" (ListThrows "Failed to fetch")) None
         sample_state
       = fetchEmails (fun x => x) (ListThrows "Failed to fetch") (Some "token-2") s_n
       /\ list_calls s_n = 3
       /\ loading (gmailStatus s_n) = true.
Proof.
  split.
  - exact (proj1 (fetchEmails_ends_idle (fun x => x)
                    (ListUnauthorized
                       (TokenReplies (Some "token-2") None (ListNotOk (Some "Backend Error"))))
                    None sample_state eq_refl)).
  - destruct (proj2 (proj2 (fetchEmails_ends_idle (fun x => x) (ListThrows "Failed to fetch")
                              None sample_state eq_refl)) 2 "token-2" eq_refl eq_refl)
      as (s_n & Hrun & Hcalls & Hl & _).
    exists s_n. split; [exact Hrun|]. split; [exact Hcalls | exact Hl].
Defined.

Section CredentialFacts.

Variable decodeBase64Url : string -> string.

Lemma tokens_agree_frame s s' :
  googleToken s' = googleToken s -> localStorage s' = localStorage s ->
  tokens_agree s -> tokens_agree s'.
Proof. unfold tokens_agree. intros -> ->. trivial. Qed.

Lemma tokens_agree_catch msg s : tokens_agree s -> tokens_agree (fetchEmails_catch msg s).
Proof.
  destruct (fetchEmails_catch_only_status msg s) as (Ht & Hl & _).
  apply tokens_agree_frame; assumption.
Qed.

Lemma googleToken_catch msg s : googleToken (fetchEmails_catch msg s) = googleToken s.
Proof. apply (fetchEmails_catch_only_status msg s). Qed.

Lemma googleToken_details token (messageIds : list (string * DetailReply)) s :
  googleToken (fold_left (fun s m => fetch (GetMessage (fst m) token) s) messageIds s)
  = googleToken s.
Proof. apply (details_requested_only_status token messageIds s). Qed.

Lemma tokens_agree_details token (messageIds : list (string * DetailReply)) s :
  tokens_agree s ->
  tokens_agree (fold_left (fun s m => fetch (GetMessage (fst m) token) s) messageIds s).
Proof.
  destruct (details_requested_only_status token messageIds s) as (Ht & Hl & _).
  apply tokens_agree_frame; assumption.
Qed.

Lemma refreshAccessToken_catch_agrees s :
  tokens_agree (refreshAccessToken_catch s)
  /\ token_or_disconnected (refreshAccessToken_catch s).
Proof.
  split; [|intros _; reflexivity].
  unfold tokens_agree. simpl.
  rewrite lookup_delete_ne by discriminate. apply lookup_delete_eq.
Qed.

(** A cycle started with the token of the state, and any refresh, end
    with memory and storage in agreement, and without a token only when
    disconnected. *)
Lemma runs_keep_tokens_agreeing :
  (forall w accessToken s,
      tokens_agree s -> Js.truthy (googleToken s) = true ->
      tokens_agree (fetchEmails decodeBase64Url w accessToken s)
      /\ token_or_disconnected (fetchEmails decodeBase64Url w accessToken s))
  /\ (forall r refreshToken s,
        tokens_agree (refreshAccessToken decodeBase64Url r refreshToken s)
        /\ token_or_disconnected (refreshAccessToken decodeBase64Url r refreshToken s)).
Proof.
  apply world_mutind.
  - intros msg tok s Ha Ht. simpl. destruct (Js.truthy (Js.or_else _ _)); simpl.
    + split; [apply tokens_agree_catch, Ha|].
      intros H. rewrite googleToken_catch in H. simpl in H. rewrite H in Ht. discriminate.
    + split; [exact Ha|]. intros H. simpl in H. rewrite H in Ht. discriminate.
  - intros m tok s Ha Ht. simpl. destruct (Js.truthy (Js.or_else _ _)); simpl.
    + split; [apply tokens_agree_catch, Ha|].
      intros H. rewrite googleToken_catch in H. simpl in H. rewrite H in Ht. discriminate.
    + split; [exact Ha|]. intros H. simpl in H. rewrite H in Ht. discriminate.
  - intros r IH tok s Ha Ht. simpl. destruct (Js.truthy (Js.or_else _ _)); simpl.
    + unfold handle401Error_with. destruct (Js.present _); [apply IH|].
      split; [|intros _; reflexivity].
      unfold tokens_agree. simpl. apply lookup_delete_eq.
    + split; [exact Ha|]. intros H. simpl in H. rewrite H in Ht. discriminate.
  - intros messages now tok s Ha Ht. simpl. destruct (Js.truthy (Js.or_else _ _)); simpl.
    + destruct messages as [|m l].
      * split; [exact Ha|]. intros H. simpl in H. rewrite H in Ht. discriminate.
      * destruct (all_details _).
        -- split; [apply tokens_agree_catch, tokens_agree_details, Ha|].
           intros H. rewrite googleToken_catch, googleToken_details in H. simpl in H.
           rewrite H in Ht. discriminate.
        -- split.
           ++ match goal with
              | |- context [fold_left ?f ?l ?s0] =>
                  apply (tokens_agree_frame (fold_left f l s0));
                    [reflexivity | reflexivity | apply tokens_agree_details, Ha]
              end.
           ++ intros H. simpl in H. rewrite googleToken_details in H. simpl in H.
              rewrite H in Ht. discriminate.
    + split; [exact Ha|]. intros H. simpl in H. rewrite H in Ht. discriminate.
  - intros rt s. simpl. apply refreshAccessToken_catch_agrees.
  - intros access_token descr next IH rt s. simpl.
    destruct (Js.present access_token) eqn:Hp; [|apply refreshAccessToken_catch_agrees].
    destruct (or_else_granted access_token "" Hp) as [_ Hnew].
    apply IH; [|exact Hnew].
    unfold tokens_agree. simpl. rewrite Hnew. apply lookup_insert_eq.
Qed.

Lemma storage_frame_refl s s' : localStorage s' = localStorage s -> storage_frame s s'.
Proof. intros H. unfold storage_frame. rewrite H. split; [reflexivity | left; reflexivity]. Qed.

Lemma storage_frame_trans s1 s2 s3 :
  storage_frame s1 s2 -> storage_frame s2 s3 -> storage_frame s1 s3.
Proof.
  intros [H1 R1] [H2 R2]. split.
  - intros k Ha Hr. rewrite H2, H1; trivial.
  - destruct R2 as [R2 | R2]; [rewrite R2; exact R1 | right; exact R2].
Qed.

Lemma storage_frame_catch msg s : storage_frame s (fetchEmails_catch msg s).
Proof. apply storage_frame_refl, (fetchEmails_catch_only_status msg s). Qed.

Lemma storage_frame_remove_access s : storage_frame s (removeItem "gmail_access_token" s).
Proof.
  split; simpl.
  - intros k Ha _. apply lookup_delete_ne. congruence.
  - left. apply lookup_delete_ne. discriminate.
Qed.

Lemma storage_frame_refresh_catch s : storage_frame s (refreshAccessToken_catch s).
Proof.
  split; simpl.
  - intros k Ha Hr. rewrite !lookup_delete_ne by congruence. reflexivity.
  - right. apply lookup_delete_eq.
Qed.

Lemma runs_keep_storage_frame :
  (forall w accessToken s, storage_frame s (fetchEmails decodeBase64Url w accessToken s))
  /\ (forall r refreshToken s,
        storage_frame s (refreshAccessToken decodeBase64Url r refreshToken s)).
Proof.
  apply world_mutind.
  - intros msg tok s. simpl. destruct (Js.truthy _); simpl;
      [|apply storage_frame_refl; reflexivity].
    eapply storage_frame_trans; [|apply storage_frame_catch]. apply storage_frame_refl. reflexivity.
  - intros m tok s. simpl. destruct (Js.truthy _); simpl;
      [|apply storage_frame_refl; reflexivity].
    eapply storage_frame_trans; [|apply storage_frame_catch]. apply storage_frame_refl. reflexivity.
  - intros r IH tok s. simpl. destruct (Js.truthy _); simpl;
      [|apply storage_frame_refl; reflexivity].
    unfold handle401Error_with. destruct (Js.present _).
    + eapply storage_frame_trans; [|apply IH].
      eapply storage_frame_trans; [|apply storage_frame_remove_access].
      apply storage_frame_refl. reflexivity.
    + eapply storage_frame_trans; [apply (storage_frame_remove_access s)|].
      apply storage_frame_refl. reflexivity.
  - intros messages now tok s. simpl. destruct (Js.truthy _); simpl;
      [|apply storage_frame_refl; reflexivity].
    destruct messages as [|m l]; [apply storage_frame_refl; reflexivity|].
    match goal with
    | |- context [fold_left ?f ?l ?s0] =>
        assert (Hd : localStorage (fold_left f l s0) = localStorage s)
          by apply (details_requested_only_status _ l s0)
    end.
    destruct (all_details _).
    + eapply storage_frame_trans; [|apply storage_frame_catch].
      apply storage_frame_refl, Hd.
    + apply storage_frame_refl, Hd.
  - intros rt s. simpl.
    eapply storage_frame_trans; [|apply storage_frame_refresh_catch].
    apply storage_frame_refl. reflexivity.
  - intros access_token descr next IH rt s. simpl.
    destruct (Js.present access_token).
    + eapply storage_frame_trans; [|apply IH]. split; simpl.
      * intros k Ha _. apply lookup_insert_ne. congruence.
      * left. apply lookup_insert_ne. discriminate.
    + eapply storage_frame_trans; [|apply storage_frame_refresh_catch].
      apply storage_frame_refl. reflexivity.
Qed.

End CredentialFacts.

(** X2.  The credential recovery always ends with the token in memory and
    the stored access token in agreement (both absent, or the same token),
    and without a token only when the session is disconnected; a sync
    cycle started from such a state with a token keeps both. *)
Theorem recovery_keeps_tokens_agreeing
    (decodeBase64Url : string -> string) :
  (forall r s,
      tokens_agree (handle401Error decodeBase64Url r s)
      /\ token_or_disconnected (handle401Error decodeBase64Url r s))
  /\ (forall w accessToken s,
        tokens_agree s -> Js.truthy (googleToken s) = true ->
        tokens_agree (fetchEmails decodeBase64Url w accessToken s)
        /\ token_or_disconnected (fetchEmails decodeBase64Url w accessToken s)).
Proof.
  split; [|apply runs_keep_tokens_agreeing].
  intros r s. unfold handle401Error, handle401Error_with.
  destruct (Js.present _); [apply runs_keep_tokens_agreeing|].
  split; [|intros _; reflexivity].
  unfold tokens_agree. simpl. apply lookup_delete_eq.
Qed.

Lemma recovery_keeps_tokens_agreeing_witness :
  let s' :=
    fetchEmails (fun x => x)
      (ListUnauthorized (TokenReplies (Some "token-2") None (ListOk [] "2024-01-05T00:00:00.000Z")))
      None sample_state in
  googleToken s' = "token-2"
  /\ localStorage s' !! "gmail_access_token" = Some "token-2"
  /\ tokens_agree s'.
Proof.
  intros s'. split; [reflexivity|]. split; [reflexivity|].
  apply (proj2 (recovery_keeps_tokens_agreeing (fun x => x))); reflexivity.
Defined.



Lemma all_details_oks (bodies : list (option RawMessage)) :
  all_details (map DetailOk bodies) = inr bodies.
Proof. induction bodies as [|b l IH]; simpl; [reflexivity | rewrite IH; reflexivity]. Qed.

Lemma normalized_ids decodeBase64Url (bodies : list (option RawMessage)) :
  map id (omap (normalizeMessage decodeBase64Url) bodies)
  = map raw_id (omap (fun b => b) bodies).
Proof.
  induction bodies as [|b l IH]; simpl; [reflexivity|].
  destruct b as [m|]; simpl; [f_equal|]; exact IH.
Qed.

Lemma length_normalized decodeBase64Url (bodies : list (option RawMessage)) :
  (length (omap (normalizeMessage decodeBase64Url) bodies) <= length bodies)%nat.
Proof.
  unfold omap. induction bodies as [|b bs IH]; simpl; [lia|].
  destruct b as [m|]; simpl; lia.
Qed.

(** X4.  A cycle whose list call succeeds issues that list call and then
    one detail call per listed id, in list order and all with the token of
    the cycle, whatever the detail calls answer.  When they all answer,
    the published messages carry the ids of the non-empty answers, in that
    same order. *)
Theorem cycle_calls_follow_the_list
    (decodeBase64Url : string -> string) (messageIds : list (string * DetailReply))
    (now : string) (accessToken : option string) (s : Dashboard) :
  Js.truthy (Js.or_else accessToken (googleToken s)) = true ->
  let token := Js.or_else accessToken (googleToken s) in
  let s' := fetchEmails decodeBase64Url (ListOk messageIds now) accessToken s in
  net s' = net s ++ ListInbox token :: map (fun m => GetMessage (fst m) token) messageIds
  /\ (forall bodies,
        map snd messageIds = map DetailOk bodies ->
        map id (emails s') = map raw_id (omap (fun b => b) bodies)
        /\ (length (emails s') <= length messageIds)%nat).
Proof.
  intros Ht token s'. subst s' token. simpl. rewrite Ht. simpl.
  destruct messageIds as [|m l].
  - split; [reflexivity|]. intros bodies Hb. destruct bodies; [|discriminate Hb].
    split; [reflexivity | simpl; lia].
  - split.
    + assert (Hnet : forall token s0,
                net (fold_left (fun s m => fetch (GetMessage (fst m) token) s) (m :: l)
                       (fetch (ListInbox token) s0))
                = net s0 ++ ListInbox token
                    :: map (fun m => GetMessage (fst m) token) (m :: l)).
      { intros token s0. rewrite net_details_requested.
        change (net (fetch (ListInbox token) s0)) with (net s0 ++ [ListInbox token]).
        rewrite <- app_assoc. reflexivity. }
      destruct (all_details _); [rewrite net_fetchEmails_catch|];
        exact (Hnet _ (setGmailStatus _ s)).
    + intros bodies Hb.
      assert (Hlen : length bodies = length (m :: l)).
      { rewrite <- (length_map snd (m :: l)), Hb, length_map. reflexivity. }
      rewrite Hb, all_details_oks. cbn [emails setGmailStatus setSelectedEmailId setEmails].
      split; [apply normalized_ids|].
      rewrite <- Hlen. apply length_normalized.
Qed.

Lemma cycle_calls_follow_the_list_witness :
  let s' :=
    fetchEmails (fun x => x)
      (ListOk [("m1", DetailOk None); ("m2", DetailNotOk 0); ("m3", DetailOk (Some (sample_raw "m3")))]
         "2024-01-02T00:00:00.000Z") None sample_state in
  net s' = [ListInbox "token-1"; GetMessage "m1" "token-1"; GetMessage "m2" "token-1";
            GetMessage "m3" "token-1"].
Proof.
  exact (proj1 (cycle_calls_follow_the_list (fun x => x)
                  [("m1", DetailOk None); ("m2", DetailNotOk 0);
                   ("m3", DetailOk (Some (sample_raw "m3")))]
                  "2024-01-02T00:00:00.000Z" None sample_state eq_refl)).
Defined.

(** X5.  Error classification gives the permissions message, the
    authentication-expired message, or the message as it came; the scope
    signature wins over the invalid-credential one and is the only case
    that touches the state (it disconnects); and a classified message is
    stable: classifying it again returns it unchanged. *)
Theorem interpretGmailError_classifies (message : string) (s : Dashboard) :
  let scopes := "Missing permissions: Please reconnect Gmail and accept all requested permissions (compose, modify, and send)." in
  let expired := "Authentication expired. Please reconnect to Gmail." in
  let result := interpretGmailError message s in
  (fst result = scopes \/ fst result = expired \/ fst result = message)
  /\ (Js.includes "insufficient authentication scopes" (Js.toLowerCase message) = true ->
      fst result = scopes
      /\ connected (gmailStatus (snd result)) = false
      /\ error (gmailStatus (snd result)) = scopes)
  /\ (Js.includes "insufficient authentication scopes" (Js.toLowerCase message) = false ->
      snd result = s)
  /\ (forall s0, fst (interpretGmailError (fst result) s0) = fst result).
Proof.
  cbv zeta. unfold interpretGmailError.
  destruct (Js.includes "insufficient authentication scopes" (Js.toLowerCase message)) eqn:Hs.
  - simpl. split; [left; reflexivity|]. split; [repeat split|]. split; [discriminate|].
    intros s0. reflexivity.
  - destruct (matches_invalid (Js.toLowerCase message)) eqn:Hi; simpl.
    + split; [right; left; reflexivity|]. split; [discriminate|]. split; [reflexivity|].
      intros s0. reflexivity.
    + split; [right; right; reflexivity|]. split; [discriminate|]. split; [reflexivity|].
      intros s0. rewrite Hs, Hi. reflexivity.
Qed.

Lemma interpretGmailError_classifies_witness :
  fst (interpretGmailError
         "Request had INSUFFICIENT authentication scopes; invalid token." sample_state)
  = "Missing permissions: Please reconnect Gmail and accept all requested permissions (compose, modify, and send)."
  /\ snd (interpretGmailError "Backend Error" sample_state) = sample_state.
Proof.
  split.
  - apply (proj1 (proj1 (proj2 (interpretGmailError_classifies
             "Request had INSUFFICIENT authentication scopes; invalid token." sample_state))
             eq_refl)).
  - apply (proj1 (proj2 (proj2 (interpretGmailError_classifies "Backend Error" sample_state)))).
    reflexivity.
Defined.

(** ** Reply drafts, continued *)

(** X6.  Neither [saveDraftEdits] nor [sendReply] ever changes the text
    of the draft or the draft of another message, whatever the provider
    answers; [sendReply] does not change the draft id or the save time
    either. *)
Theorem drafts_text_is_never_altered
    (decodeBase64Url : string -> string) (email : GmailEmail) (s : Dashboard) :
  let existing := default blankDraft (replyDrafts s !! id email) in
  (forall w,
      let s' := saveDraftEdits decodeBase64Url w email s in
      (exists d', replyDrafts s' !! id email = Some d' /\ content d' = content existing)
      /\ forall j, j <> id email -> replyDrafts s' !! j = replyDrafts s !! j)
  /\ (forall w,
        let s' := sendReply decodeBase64Url w email s in
        (exists d', replyDrafts s' !! id email = Some d'
                    /\ content d' = content existing
                    /\ draftId d' = draftId existing
                    /\ savedAt d' = savedAt existing)
        /\ forall j, j <> id email -> replyDrafts s' !! j = replyDrafts s !! j).
Proof.
  cbv zeta. split; intros w.
  - destruct (saveDraftEdits_shape decodeBase64Url w email s) as (patch & -> & Hp). split.
    + eexists. split; [apply lookup_insert_eq|].
      destruct Hp as [[_ ->] | [[_ [message ->]] | (_ & _ & _ & i & mi & now & _ & ->)]];
        reflexivity.
    + intros j Hj. apply lookup_insert_ne. congruence.
  - destruct (sendReply_shape decodeBase64Url w email s) as (patch & -> & Hp). split.
    + eexists. split; [apply lookup_insert_eq|].
      destruct Hp as [[_ ->] | [[_ [message ->]] | [_ ->]]]; repeat split.
    + intros j Hj. apply lookup_insert_ne. congruence.
Qed.

Lemma drafts_text_is_never_altered_witness :
  let s' :=
    sendReply (fun x => x) (SendOk sample_inbox) sample_email
      (handleDraftContentChange "m1" "Other draft" sample_saved_state) in
  replyDrafts s' !! "m1"
  = replyDrafts (handleDraftContentChange "m1" "Other draft" sample_saved_state) !! "m1".
Proof.
  intros s'.
  apply (proj2 (proj2 (drafts_text_is_never_altered (fun x => x) sample_email
                         (handleDraftContentChange "m1" "Other draft" sample_saved_state))
                  (SendOk sample_inbox))).
  discriminate.
Defined.

Lemma report_not_empty msg s :
  Js.truthy msg = true -> Js.truthy (fst (interpretGmailError msg s)) = true.
Proof.
  intros H. unfold interpretGmailError. destruct (Js.includes _ _); [reflexivity|].
  destruct (matches_invalid _); [reflexivity | exact H].
Qed.

(** X7.  Whenever a save or a send of a text that is not blank comes to
    an end, the record has [saving] (respectively [sending]) false, and
    its error field tells how it went: the empty string on success;
    "Authentication expired" after a 401, where the flag is cleared only
    once the credential recovery has ended; "Connect Gmail first." without
    a token; and after any other failure the classified message of the
    error, which for a refusal of the provider is the provider's message
    or else the fallback of the action, and is never empty. *)
Theorem draft_actions_report
    (decodeBase64Url : string -> string) (email : GmailEmail) (s : Dashboard) :
  Js.present (draft_body s email) = true ->
  let report := fun msg => fst (interpretGmailError msg s) in
  (forall w, exists d',
      replyDrafts (saveDraftEdits decodeBase64Url w email s) !! id email = Some d'
      /\ saving d' = Some false
      /\ d_error d'
         = Some (if negb (Js.truthy (googleToken s)) then "Connect Gmail first."
                 else
                   match getReplyEnvelope email with
                   | inl msg => report msg
                   | inr _ =>
                       match w with
                       | DraftThrows msg => report msg
                       | DraftNotOk message => report (Js.or_else message "Unable to save draft.")
                       | DraftUnauthorized _ => "Authentication expired"
                       | DraftOk _ _ _ => ""
                       end
                   end))
  /\ (forall w, exists d',
        replyDrafts (sendReply decodeBase64Url w email s) !! id email = Some d'
        /\ sending d' = Some false
        /\ d_error d'
           = Some (if negb (Js.truthy (googleToken s)) then "Connect Gmail first."
                   else
                     match getReplyEnvelope email with
                     | inl msg => report msg
                     | inr _ =>
                         match w with
                         | SendThrows msg => report msg
                         | SendNotOk message => report (Js.or_else message "Unable to send reply.")
                         | SendUnauthorized _ => "Authentication expired"
                         | SendOk _ => ""
                         end
                     end))
  /\ (forall message fallback,
        Js.truthy fallback = true -> Js.truthy (report (Js.or_else message fallback)) = true)
  /\ (forall recovery envelope,
        Js.truthy (googleToken s) = true -> getReplyEnvelope email = inr envelope ->
        exists started started',
          saveDraftEdits decodeBase64Url (DraftUnauthorized recovery) email s
          = patchReplyDraft (id email) [Saving false; Error "Authentication expired"]
              (handle401Error decodeBase64Url recovery started)
          /\ replyDrafts started !! id email ≫= saving = Some true
          /\ sendReply decodeBase64Url (SendUnauthorized recovery) email s
             = patchReplyDraft (id email) [Sending false; Error "Authentication expired"]
                 (handle401Error decodeBase64Url recovery started')
          /\ replyDrafts started' !! id email ≫= sending = Some true).
Proof.
  intros Hb report. split; [|split; [|split]].
  - intros w. rewrite (saveDraftEdits_record decodeBase64Url w email s Hb).
    eexists. split; [reflexivity|].
    destruct (Js.truthy (googleToken s)); [|split; reflexivity].
    destruct (getReplyEnvelope email); [split; reflexivity|].
    destruct w; split; reflexivity.
  - intros w. rewrite (sendReply_record decodeBase64Url w email s Hb).
    eexists. split; [reflexivity|].
    destruct (Js.truthy (googleToken s)); [|split; reflexivity].
    destruct (getReplyEnvelope email); [split; reflexivity|].
    destruct w; split; reflexivity.
  - intros message fallback Hf. apply report_not_empty.
    destruct message as [m|]; simpl; [|exact Hf].
    destruct (Js.truthy m) eqn:Hm; [exact Hm | exact Hf].
  - intros recovery envelope Ht He.
    unfold saveDraftEdits, sendReply. fold (draft_body s email).
    rewrite Hb. cbn [negb]. cbv iota.
    change (googleToken (patchReplyDraft (id email) [Saving true; Notice ""] s))
      with (googleToken s).
    change (googleToken (patchReplyDraft (id email) [Sending true; Notice ""] s))
      with (googleToken s).
    rewrite Ht, He. cbn [negb]. cbv iota.
    do 2 eexists. split; [reflexivity|]. split; [|split; [reflexivity|]].
    + match goal with
      | |- context [if ?c then _ else _] => destruct c
      end; cbn; rewrite lookup_insert_eq; reflexivity.
    + cbn. rewrite lookup_insert_eq. reflexivity.
Qed.

Lemma draft_actions_report_witness :
  exists d',
    replyDrafts (saveDraftEdits (fun x => x) (DraftNotOk (Some "Invalid credentials"))
                   sample_email sample_saved_state) !! "m0" = Some d'
    /\ saving d' = Some false
    /\ d_error d' = Some "Authentication expired. Please reconnect to Gmail.".
Proof.
  apply (proj1 (draft_actions_report (fun x => x) sample_email sample_saved_state eq_refl)
           (DraftNotOk (Some "Invalid credentials"))).
Defined.

(** X8.  A save that does not go through (no token, a sender that cannot
    be parsed, or any answer of the provider other than success) leaves
    the dirty flag, the draft id and the save time of the record as they
    were; a save that goes through clears the dirty flag and stamps the
    save time. *)
Theorem failed_save_keeps_draft
    (decodeBase64Url : string -> string) (w : DraftWorld) (email : GmailEmail)
    (s : Dashboard) :
  let existing := default blankDraft (replyDrafts s !! id email) in
  let s' := saveDraftEdits decodeBase64Url w email s in
  (Js.truthy (googleToken s) = false
   \/ (exists msg, getReplyEnvelope email = inl msg)
   \/ (forall i mi now, w <> DraftOk i mi now) ->
   exists d', replyDrafts s' !! id email = Some d'
              /\ dirty d' = dirty existing
              /\ draftId d' = draftId existing
              /\ savedAt d' = savedAt existing)
  /\ (Js.present (draft_body s email) = true ->
      Js.truthy (googleToken s) = true ->
      (exists envelope, getReplyEnvelope email = inr envelope) ->
      forall i mi now, w = DraftOk i mi now ->
      exists d', replyDrafts s' !! id email = Some d'
                 /\ dirty d' = Some false /\ savedAt d' = Some now).
Proof.
  cbv zeta. split.
  - destruct (saveDraftEdits_shape decodeBase64Url w email s) as (patch & -> & Hp).
    intros Hfail. eexists. split; [apply lookup_insert_eq|].
    destruct Hp as [[_ ->] | [[_ [message ->]] | (_ & Ht & [env He] & i & mi & now & Hw & _)]];
      [repeat split | repeat split |].
    destruct Hfail as [Hf | [[msg Hf] | Hf]]; [congruence | congruence |].
    destruct (Hf i mi now Hw).
  - intros Hb Ht [envelope He] i mi now ->.
    destruct (saveDraftEdits_ok decodeBase64Url email s i mi now envelope Hb Ht He)
      as (_ & d' & Hd' & _ & _ & Hsaved & Hdirty).
    exists d'. auto.
Qed.

Lemma failed_save_keeps_draft_witness :
  let s' := saveDraftEdits (fun x => x) (DraftNotOk (Some "Backend Error")) sample_email
              sample_saved_state in
  exists d', replyDrafts s' !! "m0" = Some d'
             /\ dirty d' = Some false
             /\ draftId d' = Some "r-1"
             /\ savedAt d' = Some "2024-01-03T00:00:00.000Z".
Proof.
  intros s'.
  destruct (proj1 (failed_save_keeps_draft (fun x => x) (DraftNotOk (Some "Backend Error"))
                     sample_email sample_saved_state))
    as (d' & Hd & H1 & H2 & H3); [right; right; discriminate|].
  exists d'. split; [exact Hd|].
  assert (Hex : replyDrafts sample_saved_state !! id sample_email = Some sample_saved_draft)
    by (vm_compute; reflexivity).
  rewrite Hex in H1, H2, H3. auto.
Defined.

Section SendFacts.

Variable decodeBase64Url : string -> string.

(** A cycle that has a token starts with the list call. *)
Lemma fetchEmails_first_call w accessToken s :
  Js.truthy (Js.or_else accessToken (googleToken s)) = true ->
  exists rest,
    net (fetchEmails decodeBase64Url w accessToken s)
    = net s ++ ListInbox (Js.or_else accessToken (googleToken s)) :: rest
    /\ Forall sync_call rest.
Proof.
  intros Ht. destruct w as [msg|message|recovery|messages now].
  - exists []. simpl. rewrite Ht. simpl. rewrite net_fetchEmails_catch. split; [reflexivity|constructor].
  - exists []. simpl. rewrite Ht. simpl. rewrite net_fetchEmails_catch. split; [reflexivity|constructor].
  - simpl. rewrite Ht. simpl.
    match goal with
    | |- context [handle401Error_with ?f ?x] =>
        destruct (handle401Error_issues_sync_calls decodeBase64Url recovery x) as [calls [Hn Hc]];
        unfold handle401Error in Hn
    end.
    exists calls. split; [|exact Hc]. rewrite Hn. simpl. rewrite <- app_assoc. reflexivity.
  - destruct (cycle_calls_follow_the_list decodeBase64Url messages now accessToken s Ht)
      as [Hn _].
    eexists. split; [exact Hn | apply Forall_sync_details].
Qed.

(** The calls of a send that goes out. *)
Lemma sendReply_ready w email s envelope :
  Js.present (draft_body s email) = true ->
  Js.truthy (googleToken s) = true ->
  getReplyEnvelope email = inr envelope ->
  let call :=
    SendMessage (googleToken s)
      (buildReplyMessage (recipient envelope) (replySubject envelope)
         (default "" (draft_body s email)) (messageId email))
      (threadId email) in
  exists rest,
    net (sendReply decodeBase64Url w email s) = net s ++ call :: rest
    /\ Forall sync_call rest
    /\ match w with
       | SendThrows _ | SendNotOk _ => rest = []
       | SendOk _ => exists rest', rest = ListInbox (googleToken s) :: rest'
       | SendUnauthorized _ => True
       end.
Proof.
  intros Hb Ht He. cbv zeta. unfold sendReply. fold (draft_body s email).
  rewrite Hb. simpl negb. cbv iota.
  change (googleToken (patchReplyDraft (id email) [Sending true; Notice ""] s))
    with (googleToken s).
  rewrite Ht, He. simpl negb. cbv iota.
  destruct w as [msg|message|recovery|resync].
  - exists []. rewrite sendReply_catch_net. repeat split; constructor.
  - exists []. rewrite sendReply_catch_net. repeat split; constructor.
  - match goal with
    | |- context [handle401Error _ recovery ?x] =>
        destruct (handle401Error_issues_sync_calls decodeBase64Url recovery x) as [calls [Hn Hc]]
    end.
    exists calls. split; [|split; [exact Hc | exact I]].
    change (net (patchReplyDraft ?i ?p ?x)) with (net x).
    rewrite Hn. simpl. rewrite <- app_assoc. reflexivity.
  - match goal with
    | |- context [fetchEmails _ resync ?t ?x] =>
        destruct (fetchEmails_first_call resync t x) as [rest [Hn Hc]];
          [simpl Js.or_else; rewrite Ht; exact Ht|]
    end.
    simpl Js.or_else in Hn. rewrite Ht in Hn.
    eexists. split; [rewrite Hn; simpl; rewrite <- app_assoc; reflexivity|].
    split; [constructor; [exact I | exact Hc] | eexists; reflexivity].
Qed.

Lemma sendReply_not_ready w email s :
  Js.present (draft_body s email) = false
  \/ Js.truthy (googleToken s) = false
  \/ (exists msg, getReplyEnvelope email = inl msg) ->
  net (sendReply decodeBase64Url w email s) = net s.
Proof.
  intros H. unfold sendReply. fold (draft_body s email).
  destruct (Js.present (draft_body s email)) eqn:Hb; simpl negb; cbv iota; [|reflexivity].
  change (googleToken (patchReplyDraft (id email) [Sending true; Notice ""] s))
    with (googleToken s).
  destruct (Js.truthy (googleToken s)) eqn:Ht; simpl negb; cbv iota;
    [|rewrite sendReply_catch_net; reflexivity].
  destruct (getReplyEnvelope email) as [msg|envelope] eqn:He;
    [rewrite sendReply_catch_net; reflexivity|].
  destruct H as [H | [H | [msg H]]]; congruence.
Qed.

End SendFacts.

(** X9.  [sendReply] issues at most one send call and never a draft
    call: it sends the trimmed text to the parsed recipient, threaded to
    the original, and nothing else but sync and recovery calls follows.
    The inbox is listed again with the same token right after a send that
    succeeded, and no call at all follows a send that failed otherwise
    than by a 401; without text, token or parseable sender nothing is
    sent. *)
Theorem sendReply_calls
    (decodeBase64Url : string -> string) (w : SendWorld) (email : GmailEmail)
    (s : Dashboard) :
  let s' := sendReply decodeBase64Url w email s in
  (Js.present (draft_body s email) = false
   \/ Js.truthy (googleToken s) = false
   \/ (exists msg, getReplyEnvelope email = inl msg) ->
   net s' = net s)
  /\ (forall envelope,
        Js.present (draft_body s email) = true ->
        Js.truthy (googleToken s) = true ->
        getReplyEnvelope email = inr envelope ->
        exists rest,
          net s'
          = net s ++ SendMessage (googleToken s)
                       (buildReplyMessage (recipient envelope) (replySubject envelope)
                          (default "" (draft_body s email)) (messageId email))
                       (threadId email) :: rest
          /\ Forall sync_call rest
          /\ match w with
             | SendThrows _ | SendNotOk _ => rest = []
             | SendOk _ => exists rest', rest = ListInbox (googleToken s) :: rest'
             | SendUnauthorized _ => True
             end).
Proof.
  cbv zeta. split.
  - apply sendReply_not_ready.
  - intros envelope Hb Ht He. apply sendReply_ready; assumption.
Qed.

Lemma sendReply_calls_witness :
  let s' := sendReply (fun x => x) (SendOk (ListOk [] "2024-01-04T00:00:00.000Z")) sample_email
              sample_saved_state in
  net s'
  = net sample_saved_state
    ++ [ SendMessage "token-1"
           (buildReplyMessage "jane@example.com" "Re: Hello" "Thanks, will do." (Some "<m0@mail>"))
           (Some "t0");
         ListInbox "token-1" ].
Proof.
  intros s'.
  destruct (proj2 (sendReply_calls (fun x => x) (SendOk (ListOk [] "2024-01-04T00:00:00.000Z"))
                     sample_email sample_saved_state)
              sample_envelope eq_refl eq_refl eq_refl) as (rest & Hn & _ & _).
  vm_compute. reflexivity.
Defined.

(** X10.  Editing a draft that was saved keeps its draft id and marks it
    dirty, so the next save is an update of that same draft carrying the
    edited text, trimmed. *)
Theorem edit_then_save_updates_same_draft
    (decodeBase64Url : string -> string) (email : GmailEmail) (s : Dashboard)
    (d : ReplyDraftState) (i value : string) (envelope : ReplyEnvelope) :
  replyDrafts s !! id email = Some d ->
  draftId d = Some i -> Js.truthy i = true ->
  Js.truthy (Js.trim value) = true ->
  Js.truthy (googleToken s) = true ->
  getReplyEnvelope email = inr envelope ->
  let edited := handleDraftContentChange (id email) value s in
  (exists d', replyDrafts edited !! id email = Some d'
              /\ content d' = value /\ draftId d' = Some i /\ dirty d' = Some true
              /\ savedAt d' = savedAt d)
  /\ forall w, exists rest,
       net (saveDraftEdits decodeBase64Url w email edited)
       = net s ++ UpdateDraft i (googleToken s)
                    (buildReplyMessage (recipient envelope) (replySubject envelope)
                       (Js.trim value) (messageId email))
                    (threadId email) :: rest
       /\ Forall sync_call rest.
Proof.
  intros Hd Hi Hti Hv Ht He edited.
  assert (Hed : replyDrafts edited !! id email
                = Some (fold_left assign [Content value; Dirty true; Error ""; Notice ""] d)).
  { unfold edited, handleDraftContentChange. rewrite patchReplyDraft_lookup, Hd. reflexivity. }
  split.
  - eexists. split; [exact Hed|]. simpl. auto.
  - intros w.
    destruct (saveDraftEdits_ready decodeBase64Url w email edited envelope)
      as (rest & Hn & Hrest).
    + unfold draft_body. rewrite Hed. exact Hv.
    + exact Ht.
    + exact He.
    + exists rest. split; [|exact Hrest].
      rewrite (draft_write_update edited email envelope _ i Hed Hi Hti) in Hn. exact Hn.
Qed.

Lemma edit_then_save_updates_same_draft_witness :
  exists rest,
    net (saveDraftEdits (fun x => x) (DraftThrows "Failed to fetch") sample_email
           (handleDraftContentChange "m0" "  On it.  " sample_saved_state))
    = net sample_saved_state
      ++ UpdateDraft "r-1" "token-1"
           (buildReplyMessage "jane@example.com" "Re: Hello" "On it." (Some "<m0@mail>"))
           (Some "t0") :: rest
    /\ Forall sync_call rest.
Proof.
  assert (Hd : replyDrafts sample_saved_state !! id sample_email = Some sample_saved_draft)
    by (vm_compute; reflexivity).
  apply (proj2 (edit_then_save_updates_same_draft (fun x => x) sample_email sample_saved_state
                  sample_saved_draft "r-1" "  On it.  " sample_envelope
                  Hd eq_refl eq_refl eq_refl eq_refl eq_refl)).
Defined.

(** ** Reply envelope, continued *)

Lemma no_space_trimEnd s : no_space s = true -> Js.trimEnd s = s.
Proof.
  induction s as [|c r IH]; simpl; [reflexivity|].
  intros H. apply andb_true_iff in H as [Hc Hr]. apply negb_true_iff in Hc.
  rewrite (IH Hr). destruct r; [rewrite Hc|]; reflexivity.
Qed.

Lemma no_space_trim s : no_space s = true -> Js.trim s = s.
Proof.
  intros H. unfold Js.trim. rewrite JsFacts.trimStart_id.
  - apply no_space_trimEnd, H.
  - destruct s as [|c r]; simpl in *; [exact I|].
    apply andb_true_iff in H as [Hc _]. apply negb_true_iff in Hc. exact Hc.
Qed.

Lemma split_parts_no_space in_sep s part :
  In part (Js.split_spaces_from in_sep s) -> no_space part = true.
Proof.
  revert in_sep part. induction s as [|c r IH]; intros in_sep part; simpl.
  - intros [<- | []]. reflexivity.
  - destruct (Js.is_space c) eqn:Hc.
    + destruct in_sep; [apply IH|]. intros [<- | H]; [reflexivity | eapply IH, H].
    + destruct (Js.split_spaces_from false r) as [|f fs] eqn:Hs.
      * intros [<- | []]. simpl. rewrite Hc. reflexivity.
      * intros [<- | H].
        -- simpl. rewrite Hc. simpl. apply (IH false). rewrite Hs. left. reflexivity.
        -- apply (IH false). rewrite Hs. right. exact H.
Qed.

Lemma strip_keeps_no_space s :
  no_space s = true -> no_space (Js.strip_brackets_commas s) = true.
Proof.
  induction s as [|c r IH]; simpl; [trivial|].
  intros H. apply andb_true_iff in H as [Hc Hr].
  destruct (_ || _); simpl; [|rewrite Hc]; auto.
Qed.

Lemma extractEmailAddress_trimmed value :
  Js.trim (extractEmailAddress value) = extractEmailAddress value.
Proof.
  unfold extractEmailAddress. destruct (negb (Js.truthy value)); [reflexivity|].
  destruct (Js.match_angle value) as [g|]; [apply JsFacts.trim_idem|].
  destruct (Js.includes_char " " (Js.trim value)); [|apply JsFacts.trim_idem].
  destruct (List.find address_like (Js.split_spaces (Js.trim value))) as [part|] eqn:Hf;
    [|reflexivity].
  apply no_space_trim, strip_keeps_no_space.
  apply find_some in Hf as [Hin _]. eapply split_parts_no_space, Hin.
Qed.

(** X11.  The subject of a reply is never blank, has no white space at
    its ends and always starts with "re:" in some letter case, whatever
    the subject of the original message. *)
Theorem replySubject_always_prefixed (subject : string) :
  Js.startsWith (Js.toLowerCase (normalizeSubject subject)) "re:" = true
  /\ normalizeSubject subject <> ""
  /\ Js.trim (normalizeSubject subject) = normalizeSubject subject.
Proof.
  destruct (JsFacts.or_else_trim_trimmed subject) as [Ht Hne].
  destruct (normalizeSubject_cases subject) as [[Hre ->] | [_ ->]].
  - split; [exact Hre|]. split; [exact Hne | exact Ht].
  - split; [reflexivity|]. split; [discriminate|]. apply JsFacts.trim_Re; assumption.
Qed.

(** X12.  Whenever the reply envelope is produced, its recipient is not
    blank and has no white space at its ends, and its subject is the
    normalised subject of the original. *)
Theorem replyEnvelope_recipient_clean (email : GmailEmail) (envelope : ReplyEnvelope) :
  getReplyEnvelope email = inr envelope ->
  recipient envelope <> ""
  /\ Js.trim (recipient envelope) = recipient envelope
  /\ recipient envelope = extractEmailAddress (sender email)
  /\ replySubject envelope = normalizeSubject (subject email).
Proof.
  unfold getReplyEnvelope.
  destruct (extractEmailAddress (sender email)) as [|c r] eqn:He; simpl; [discriminate|].
  intros [= <-]. simpl. rewrite <- He.
  split; [rewrite He; discriminate|]. split; [apply extractEmailAddress_trimmed|].
  split; reflexivity.
Qed.

Lemma replyEnvelope_recipient_clean_witness :
  recipient sample_envelope <> ""
  /\ Js.trim (recipient sample_envelope) = recipient sample_envelope.
Proof.
  destruct (replyEnvelope_recipient_clean sample_email sample_envelope eq_refl)
    as (H1 & H2 & _).
  split; assumption.
Defined.

Lemma saveDraftEdits_not_ready decodeBase64Url w email s :
  Js.present (draft_body s email) = false
  \/ Js.truthy (googleToken s) = false
  \/ (exists msg, getReplyEnvelope email = inl msg) ->
  net (saveDraftEdits decodeBase64Url w email s) = net s.
Proof.
  intros H. unfold saveDraftEdits. fold (draft_body s email).
  destruct (Js.present (draft_body s email)) eqn:Hb; simpl negb; cbv iota; [|reflexivity].
  change (googleToken (patchReplyDraft (id email) [Saving true; Notice ""] s))
    with (googleToken s).
  destruct (Js.truthy (googleToken s)) eqn:Ht; simpl negb; cbv iota;
    [|rewrite saveDraftEdits_catch_net; reflexivity].
  destruct (getReplyEnvelope email) as [msg|envelope] eqn:He;
    [rewrite saveDraftEdits_catch_net; reflexivity|].
  destruct H as [H | [H | [msg H]]]; congruence.
Qed.

(** X13.  A message that came without a From header is published with
    the sender "Unknown sender", and can never be answered: the reply
    envelope fails, so neither a save nor a send of its draft issues any
    call, and a save with text and token records the unparseable-sender
    error on the draft. *)
Theorem message_without_sender_cannot_be_answered
    (decodeBase64Url : string -> string) (raw : RawMessage) (email : GmailEmail) :
  normalizeMessage decodeBase64Url (Some raw) = Some email ->
  headerValue raw "From" = "" ->
  sender email = "Unknown sender"
  /\ getReplyEnvelope email = inl "Unable to parse sender email address."
  /\ forall s,
       (forall w, net (saveDraftEdits decodeBase64Url w email s) = net s)
       /\ (forall w, net (sendReply decodeBase64Url w email s) = net s)
       /\ (Js.present (draft_body s email) = true -> Js.truthy (googleToken s) = true ->
           forall w, exists d',
             replyDrafts (saveDraftEdits decodeBase64Url w email s) !! id email = Some d'
             /\ d_error d' = Some "Unable to parse sender email address."
             /\ draftId d' = draftId (default blankDraft (replyDrafts s !! id email))).
Proof.
  intros Hn Hfrom. simpl in Hn. injection Hn as <-. rewrite Hfrom.
  set (email := mkEmail _ _ _ _ _ _ _ _).
  assert (He : getReplyEnvelope email = inl "Unable to parse sender email address.")
    by reflexivity.
  split; [reflexivity|]. split; [exact He|].
  intros s. split; [|split].
  - intros w. apply saveDraftEdits_not_ready. right. right. eexists. exact He.
  - intros w. apply sendReply_not_ready. right. right. eexists. exact He.
  - intros Hb Ht w. unfold saveDraftEdits. fold (draft_body s email).
    rewrite Hb. simpl negb. cbv iota.
    change (googleToken (patchReplyDraft (id email) [Saving true; Notice ""] s))
      with (googleToken s).
    rewrite Ht, He. simpl negb. cbv iota.
    unfold saveDraftEdits_catch.
    change (interpretGmailError "Unable to parse sender email address."
              (patchReplyDraft (id email) [Saving true; Notice ""] s))
      with ("Unable to parse sender email address.",
            patchReplyDraft (id email) [Saving true; Notice ""] s).
    eexists. split; [apply patchReplyDraft_lookup|].
    rewrite patchReplyDraft_lookup. simpl. split; reflexivity.
Qed.

Lemma message_without_sender_cannot_be_answered_witness :
  getReplyEnvelope (mkEmail "m9" None (Some "") "No sender" "Unknown sender" "" "" None)
  = inl "Unable to parse sender email address.".
Proof.
  apply (message_without_sender_cannot_be_answered (fun x => x)
           (mkRaw "m9" None None None (Some (mkPayload None None [("Subject", "No sender")] [])))
           (mkEmail "m9" None (Some "") "No sender" "Unknown sender" "" "" None)
           eq_refl eq_refl).
Defined.

(** ** Enrichment, continued *)

Section EnrichmentRuns.

Variable decodeBase64Url : string -> string.
Variable OPENAI_API_KEY : option string.
Variable JSON_parse : string -> string + Json.

Local Abbreviation step1 := (step decodeBase64Url OPENAI_API_KEY JSON_parse).
Local Abbreviation runs := (run decodeBase64Url OPENAI_API_KEY JSON_parse).

Lemma runAnalysis_settle_frame email focus reply s :
  let s' := runAnalysis_settle JSON_parse email focus reply s in
  net s' = net s /\ emails s' = emails s
  /\ (focus = Some false -> selectedEmailId s' = selectedEmailId s)
  /\ (analyses s' = analyses s
      \/ exists a, analyses s' = <[id email := a]> (analyses s)).
Proof.
  cbv zeta. unfold runAnalysis_settle, runAnalysis_catch.
  destruct reply as [msg|message|message]; simpl.
  - repeat split. left. reflexivity.
  - repeat split. left. reflexivity.
  - destruct (JSON_parse _) as [msg|value]; simpl.
    + repeat split. left. reflexivity.
    + destruct (bool_decide (focus = Some false)) eqn:Hf; simpl.
      * repeat split. right. eexists. reflexivity.
      * repeat split; [|right; eexists; reflexivity].
        intros ->. rewrite bool_decide_eq_false in Hf. congruence.
Qed.

(** One event: the insight record of [i], once there, stays, and no
    analysis call for [i] is added. *)
Lemma step_never_reanalyzes i s ev :
  is_Some (analyses s !! i) ->
  is_Some (analyses (step1 s ev) !! i)
  /\ exists calls, net (step1 s ev) = net s ++ calls /\ ~ In (AnalyzeEmail i) calls.
Proof.
  intros Hi. destruct ev as [|email reply|w accessToken]; simpl.
  - destruct (scheduleEnrichment_selects OPENAI_API_KEY s)
      as [-> | (pre & e & post & _ & _ & Ha & _ & Hs & Hn & _ & _)].
    + split; [exact Hi|]. exists []. rewrite app_nil_r. split; [reflexivity | intros []].
    + apply awaits_analysis_spec in Ha as [Hnone _]. split.
      * rewrite Hs. unfold runAnalysis_start.
        destruct (negb _); simpl; exact Hi.
      * exists [AnalyzeEmail (id e)]. split; [exact Hn|].
        intros [H | []]. injection H as <-. rewrite Hnone in Hi. destruct Hi. discriminate.
  - destruct (bool_decide _).
    + destruct (runAnalysis_settle_frame email (Some false) reply s) as (Hn & _ & _ & Ha).
      split.
      * destruct Ha as [-> | [a ->]]; [exact Hi|].
        destruct (decide (id email = i)) as [-> | Hne];
          [rewrite lookup_insert_eq; eauto | rewrite lookup_insert_ne by exact Hne; exact Hi].
      * exists []. rewrite app_nil_r. split; [exact Hn | intros []].
    + split; [exact Hi|]. exists []. rewrite app_nil_r. split; [reflexivity | intros []].
  - destruct (proj1 (runs_keep_enrichment decodeBase64Url) w accessToken s) as (Ha & _).
    split; [rewrite Ha; exact Hi|].
    destruct (proj1 (runs_issue_sync_calls decodeBase64Url) w accessToken s) as [calls [Hn Hc]].
    exists calls. split; [exact Hn|]. intros Hin.
    rewrite Forall_forall in Hc. apply (Hc (AnalyzeEmail i)).
    apply list_elem_of_In. exact Hin.
Qed.

Lemma run_never_reanalyzes i evs s :
  is_Some (analyses s !! i) ->
  is_Some (analyses (runs evs s) !! i)
  /\ exists calls, net (runs evs s) = net s ++ calls /\ ~ In (AnalyzeEmail i) calls.
Proof.
  revert s. induction evs as [|ev evs IH]; intros s Hi; simpl.
  - split; [exact Hi|]. exists []. rewrite app_nil_r. split; [reflexivity | intros []].
  - destruct (step_never_reanalyzes i s ev Hi) as (Hi1 & c1 & Hn1 & Hc1).
    destruct (IH _ Hi1) as (Hi2 & c2 & Hn2 & Hc2).
    split; [exact Hi2|]. exists (c1 ++ c2). split.
    + rewrite Hn2, Hn1, <- app_assoc. reflexivity.
    + intros Hin. apply in_app_or in Hin as [H | H]; auto.
Qed.

Lemma step_background s ev :
  is_sync ev = false ->
  emails (step1 s ev) = emails s /\ selectedEmailId (step1 s ev) = selectedEmailId s.
Proof.
  intros Hev. destruct ev as [|email reply|w accessToken]; simpl; [| |discriminate Hev].
  - destruct (scheduleEnrichment_selects OPENAI_API_KEY s)
      as [-> | (pre & e & post & _ & _ & _ & _ & Hs & _)]; [split; reflexivity|].
    rewrite Hs. unfold runAnalysis_start. destruct (negb _); split; reflexivity.
  - destruct (bool_decide _); [|split; reflexivity].
    destruct (runAnalysis_settle_frame email (Some false) reply s) as (_ & He & Hsel & _).
    split; [exact He | apply Hsel; reflexivity].
Qed.

End EnrichmentRuns.

(** X14.  An insight record, once stored, stays, and its message is never
    sent for analysis again: over any course of renders, answers and sync
    cycles no further analysis call for that message id is issued. *)
Theorem analyzed_message_is_never_reanalyzed
    (decodeBase64Url : string -> string) (OPENAI_API_KEY : option string)
    (JSON_parse : string -> string + Json) (i : string) (evs : list Event) (s : Dashboard) :
  is_Some (analyses s !! i) ->
  let s' := run decodeBase64Url OPENAI_API_KEY JSON_parse evs s in
  is_Some (analyses s' !! i)
  /\ exists calls, net s' = net s ++ calls /\ ~ In (AnalyzeEmail i) calls.
Proof. apply run_never_reanalyzes. Qed.

Lemma analyzed_message_is_never_reanalyzed_witness :
  let parse := fun _ : string => @inr string Json (JObject []) in
  let evs1 := [Sync sample_inbox (Some "token-1"); Render;
               Answer (sample_normalized "m1") (AiOk None)] in
  let s := run (fun x => x) (Some "sk-test") parse evs1 initialDashboard in
  let s' := run (fun x => x) (Some "sk-test") parse
              [Render; Sync sample_inbox None; Render; Render] s in
  exists calls, net s' = net s ++ calls /\ ~ In (AnalyzeEmail "m1") calls.
Proof.
  intros parse evs1 s s'.
  apply (analyzed_message_is_never_reanalyzed (fun x => x) (Some "sk-test") parse "m1"
           [Render; Sync sample_inbox None; Render; Render] s).
  vm_compute. eauto.
Defined.

(** X15.  Background enrichment never moves the selection or the
    snapshot: over any course of renders and answers to analysis calls
    (no sync cycle), [emails] and [selectedEmailId] stay as they were. *)
Theorem background_enrichment_keeps_selection
    (decodeBase64Url : string -> string) (OPENAI_API_KEY : option string)
    (JSON_parse : string -> string + Json) (evs : list Event) (s : Dashboard) :
  forallb (fun ev => negb (is_sync ev)) evs = true ->
  let s' := run decodeBase64Url OPENAI_API_KEY JSON_parse evs s in
  emails s' = emails s /\ selectedEmailId s' = selectedEmailId s.
Proof.
  revert s. induction evs as [|ev evs IH]; intros s H; simpl; [split; reflexivity|].
  simpl in H. apply andb_true_iff in H as [Hev H]. apply negb_true_iff in Hev.
  destruct (step_background decodeBase64Url OPENAI_API_KEY JSON_parse s ev Hev) as [He Hs].
  destruct (IH (step decodeBase64Url OPENAI_API_KEY JSON_parse s ev) H) as [He' Hs'].
  split; [rewrite <- He; exact He' | rewrite <- Hs; exact Hs'].
Qed.

Lemma background_enrichment_keeps_selection_witness :
  let s := fetchEmails (fun x => x) sample_inbox (Some "token-1") initialDashboard in
  let s' := run (fun x => x) (Some "sk-test") (fun _ => inr (JObject []))
              [Render; Render; Answer (sample_normalized "m2") (AiOk None)] s in
  selectedEmailId s' = Some "m1".
Proof.
  intros s s'.
  destruct (background_enrichment_keeps_selection (fun x => x) (Some "sk-test")
              (fun _ => inr (JObject []))
              [Render; Render; Answer (sample_normalized "m2") (AiOk None)] s eq_refl)
    as [_ H].
  unfold s'. rewrite H. reflexivity.
Defined.

Lemma find_head_filter {A} (f : A -> bool) (l : list A) :
  List.find f l = head (filter (fun x => f x = true) l).
Proof.
  induction l as [|a l IH]; simpl; [reflexivity|].
  rewrite filter_cons. destruct (f a) eqn:Ha.
  - rewrite decide_True by reflexivity. reflexivity.
  - rewrite decide_False by discriminate. exact IH.
Qed.

(** X16.  With the key set and a message awaiting analysis, the
    scheduling step starts the first such message; and once that call is
    answered with a response that parses, the message has its insight
    record and the messages awaiting analysis are those of before without
    the ones of that id: strictly fewer. *)
Theorem completed_enrichment_shrinks_backlog
    (OPENAI_API_KEY : option string) (JSON_parse : string -> string + Json) (s : Dashboard) :
  Js.truthy (openAiKey OPENAI_API_KEY) = true ->
  awaiting s <> [] ->
  exists nextEmail,
    head (awaiting s) = Some nextEmail
    /\ scheduleEnrichment OPENAI_API_KEY s = runAnalysis_start OPENAI_API_KEY nextEmail s
    /\ forall message value,
         JSON_parse (Js.or_else (Some (extractMessageContent message)) "{}") = inr value ->
         let s2 := runAnalysis_settle JSON_parse nextEmail (Some false) (AiOk message)
                     (scheduleEnrichment OPENAI_API_KEY s) in
         analyses s2 !! id nextEmail = Some (spread_over defaultAnalysis value)
         /\ awaiting s2 = filter (fun email => id email <> id nextEmail) (awaiting s)
         /\ (length (awaiting s2) < length (awaiting s))%nat.
Proof.
  intros Hk Hne. unfold awaiting in *.
  destruct (List.find (awaits_analysis s) (emails s)) as [e|] eqn:Hf.
  2:{ rewrite find_head_filter in Hf. destruct (filter _ (emails s)); [congruence | discriminate]. }
  exists e. split; [rewrite <- find_head_filter; exact Hf|].
  assert (Hs : scheduleEnrichment OPENAI_API_KEY s = runAnalysis_start OPENAI_API_KEY e s).
  { assert (Hpos : (0 <? length (emails s))%nat = true)
      by (destruct (emails s); [discriminate Hf | reflexivity]).
    unfold scheduleEnrichment. rewrite Hk, Hpos. simpl. rewrite Hf. reflexivity. }
  split; [exact Hs|].
  intros message value Hv. cbv zeta. rewrite Hs.
  unfold runAnalysis_settle, runAnalysis_start. rewrite Hk. simpl negb. cbv iota.
  rewrite Hv. simpl.
  assert (Hin : e ∈ filter (fun email => awaits_analysis s email = true) (emails s)).
  { apply find_some in Hf as [Hin Ha]. apply list_elem_of_filter. split; [exact Ha|].
    apply list_elem_of_In. exact Hin. }
  assert (Hfilter :
    filter (fun email =>
              awaits_analysis
                (setAnalysisState (insert (id e) (mkFlag false None))
                   (setAnalyses (insert (id e) (spread_over defaultAnalysis value))
                      (setPending (remove_first (id e))
                         (setPending (fun l => l ++ [id e])
                            (fetch (AnalyzeEmail (id e))
                               (setAnalysisState (insert (id e) (mkFlag true None)) s))))))
                email = true) (emails s)
    = filter (fun email => id email <> id e)
        (filter (fun email => awaits_analysis s email = true) (emails s))).
  { rewrite list_filter_filter. apply list_filter_iff. intros x.
    rewrite !awaits_analysis_spec. simpl.
    destruct (decide (id x = id e)) as [Heq | Hneq].
    - rewrite Heq, lookup_insert_eq. split; [intros [H _]; discriminate H | intros [H _]; congruence].
    - rewrite !lookup_insert_ne by congruence. tauto. }
  split; [apply lookup_insert_eq|]. split; [exact Hfilter|].
  rewrite Hfilter. apply (length_filter_lt _ _ e); [exact Hin | intros H; apply H; reflexivity].
Qed.

Lemma completed_enrichment_shrinks_backlog_witness :
  let s := fetchEmails (fun x => x) sample_inbox (Some "token-1") initialDashboard in
  exists nextEmail,
    head (awaiting s) = Some nextEmail
    /\ scheduleEnrichment (Some "sk-test") s = runAnalysis_start (Some "sk-test") nextEmail s.
Proof.
  intros s.
  destruct (completed_enrichment_shrinks_backlog (Some "sk-test") (fun _ => inr (JObject [])) s)
    as (e & H1 & H2 & _); [reflexivity | vm_compute; discriminate |].
  exists e. split; assumption.
Defined.

(** ** Mailbox actions, reply generation and start-up *)

Section SessionFacts.

Variable decodeBase64Url : string -> string.

Lemma new_calls_app d d' cs : net d' = net d ++ cs -> new_calls d d' = cs.
Proof. intros H. unfold new_calls. rewrite H. apply drop_app_length. Qed.

Lemma on_dashboard_calls f ss cs :
  net (f (dashboard ss)) = net (dashboard ss) ++ cs ->
  calls (on_dashboard f ss) = calls ss ++ map Gmail cs.
Proof. intros H. unfold on_dashboard. simpl. rewrite (new_calls_app _ _ cs H). reflexivity. Qed.

Lemma on_dashboard_quiet f ss :
  net (f (dashboard ss)) = net (dashboard ss) ->
  calls (on_dashboard f ss) = calls ss.
Proof.
  intros H. rewrite (on_dashboard_calls f ss []); [apply app_nil_r | rewrite app_nil_r; exact H].
Qed.

Lemma interpretError_frame msg ss :
  calls (snd (interpretError msg ss)) = calls ss
  /\ messageActionState (snd (interpretError msg ss)) = messageActionState ss
  /\ only_status_changed (dashboard ss) (dashboard (snd (interpretError msg ss)))
  /\ net (dashboard (snd (interpretError msg ss))) = net (dashboard ss).
Proof.
  unfold interpretError.
  pose proof (interpretGmailError_only_status msg (dashboard ss)) as H.
  pose proof (net_interpretGmailError msg (dashboard ss)) as Hn.
  destruct (interpretGmailError msg (dashboard ss)) as [message d']. simpl in *. auto.
Qed.

Lemma archiveEmail_outcome w email ss :
  action_outcome decodeBase64Url archiving trashing ModifyLabels w email ss (archiveEmail decodeBase64Url w email ss).
Proof.
  unfold action_outcome, archiveEmail. cbv zeta.
  change (googleToken (dashboard (updateMessageAction (id email) [Archiving true; ActError ""] ss)))
    with (googleToken (dashboard ss)).
  set (ss1 := updateMessageAction (id email) [Archiving true; ActError ""] ss).
  set (a0 := default (mkAction None None None) (messageActionState ss !! id email)).
  assert (H1 : messageActionState ss1
               = <[id email := fold_left assign_action [Archiving true; ActError ""] a0]>
                   (messageActionState ss)) by reflexivity.
  assert (Hend : forall p ss2,
            messageActionState ss2 = messageActionState ss1 ->
            messageActionState (updateMessageAction (id email) p ss2)
            = <[id email := fold_left assign_action ([Archiving true; ActError ""] ++ p) a0]>
                (messageActionState ss)).
  { intros p ss2 H2. unfold updateMessageAction. cbn [messageActionState].
    rewrite H2, H1, lookup_insert_eq. cbn [default]. rewrite insert_insert_eq.
    rewrite fold_left_app. reflexivity. }
  assert (Hcatch : forall msg ss2,
            messageActionState ss2 = messageActionState ss1 ->
            exists message,
              messageActionState (archiveEmail_catch email msg ss2)
              = <[id email := fold_left assign_action
                                [Archiving true; ActError ""; Archiving false; ActError message] a0]>
                  (messageActionState ss)
              /\ calls (archiveEmail_catch email msg ss2) = calls ss2
              /\ only_status_changed (dashboard ss2) (dashboard (archiveEmail_catch email msg ss2))
              /\ (interpretGmailError msg (dashboard ss2) = (msg, dashboard ss2) ->
                  message = msg /\ dashboard (archiveEmail_catch email msg ss2) = dashboard ss2)).
  { intros msg ss2 H2. unfold archiveEmail_catch.
    destruct (interpretError_frame msg ss2) as (Hc & Hm & Hd & _).
    unfold interpretError in *.
    destruct (interpretGmailError msg (dashboard ss2)) as [message d'] eqn:Hi.
    cbn [snd calls messageActionState dashboard] in Hc, Hm, Hd.
    exists message. split; [|split; [reflexivity|split; [exact Hd|]]].
    - apply (Hend [Archiving false; ActError message]). exact H2.
    - intros [= -> ->]. split; reflexivity. }
  assert (Hshape : forall ss' a,
            messageActionState ss' = <[id email := a]> (messageActionState ss) ->
            archiving a = Some false -> trashing a = trashing a0 ->
            (exists a', messageActionState ss' !! id email = Some a'
                        /\ archiving a' = Some false /\ trashing a' = trashing a0)
            /\ (forall j, j <> id email ->
                          messageActionState ss' !! j = messageActionState ss !! j)).
  { intros ss' a Hm Hf Ho. rewrite Hm. split.
    - exists a. split; [apply lookup_insert_eq | split; assumption].
    - intros j Hj. apply lookup_insert_ne. congruence. }
  destruct (Js.truthy (googleToken (dashboard ss))) eqn:Ht; simpl negb; cbv iota.
  2:{ destruct (Hcatch "Connect Gmail first." ss1 eq_refl) as (message & Hm & Hc & Hd & Hid).
      destruct (Hid eq_refl) as [-> Hdash].
      destruct (Hshape _ _ Hm eq_refl eq_refl) as [Ha Hj].
      split; [exact Ha|]. split; [exact Hj|]. split; [|discriminate].
      intros _. split; [exact Hc|]. split; [exact Hdash|].
      rewrite Hm. eexists. split; [apply lookup_insert_eq | reflexivity]. }
  set (ss2 := call (ModifyLabels (id email) (googleToken (dashboard ss))) ss1).
  destruct w as [msg|message|recovery|resync].
  - destruct (Hcatch msg ss2 eq_refl) as (m & Hm & Hc & Hd & _).
    destruct (Hshape _ _ Hm eq_refl eq_refl) as [Ha Hj].
    split; [exact Ha|]. split; [exact Hj|]. split; [discriminate|].
    intros _. exists []. split; [rewrite Hc; reflexivity|]. split; [constructor|].
    split; [reflexivity | exact Hd].
  - destruct (Hcatch (Js.or_else message "Unable to archive email.") ss2 eq_refl)
      as (m & Hm & Hc & Hd & _).
    destruct (Hshape _ _ Hm eq_refl eq_refl) as [Ha Hj].
    split; [exact Ha|]. split; [exact Hj|]. split; [discriminate|].
    intros _. exists []. split; [rewrite Hc; reflexivity|]. split; [constructor|].
    split; [reflexivity | exact Hd].
  - destruct (handle401Error_issues_sync_calls decodeBase64Url recovery (dashboard ss))
      as [cs [Hn Hcs]].
    pose proof (Hend [Archiving false]
                  (on_dashboard (handle401Error decodeBase64Url recovery) ss2) eq_refl) as Hm.
    destruct (Hshape _ _ Hm eq_refl eq_refl) as [Ha Hj].
    split; [exact Ha|]. split; [exact Hj|]. split; [discriminate|].
    intros _. exists cs. split; [|split; [exact Hcs | reflexivity]].
    change (calls (updateMessageAction ?i ?p ?x)) with (calls x).
    rewrite (on_dashboard_calls _ ss2 cs Hn). simpl. rewrite <- app_assoc. reflexivity.
  - destruct (fetchEmails_first_call decodeBase64Url resync (Some (googleToken (dashboard ss)))
                (dashboard ss)) as [rest [Hn Hrest]].
    { simpl. rewrite Ht. exact Ht. }
    simpl Js.or_else in Hn. rewrite Ht in Hn.
    pose proof (Hend [Archiving false] ss2 eq_refl) as Hm.
    match goal with
    | |- context [on_dashboard ?f ?x] =>
        change (messageActionState (on_dashboard f x)) with (messageActionState x);
        pose proof (on_dashboard_calls f x _ Hn) as Hcalls
    end.
    destruct (Hshape (updateMessageAction (id email) [Archiving false] ss2) _ Hm eq_refl eq_refl)
      as [Ha Hj].
    split; [exact Ha|]. split; [exact Hj|]. split; [discriminate|].
    intros _. eexists. split; [|split; [|split; [eexists; reflexivity|split; [reflexivity|]]]].
    + rewrite Hcalls. simpl. rewrite <- app_assoc. reflexivity.
    + constructor; [exact I | exact Hrest].
    + rewrite Hm. eexists. split; [apply lookup_insert_eq | reflexivity].
Qed.

Lemma trashEmail_outcome w email ss :
  action_outcome decodeBase64Url trashing archiving TrashMessage w email ss (trashEmail decodeBase64Url w email ss).
Proof.
  unfold action_outcome, trashEmail. cbv zeta.
  change (googleToken (dashboard (updateMessageAction (id email) [Trashing true; ActError ""] ss)))
    with (googleToken (dashboard ss)).
  set (ss1 := updateMessageAction (id email) [Trashing true; ActError ""] ss).
  set (a0 := default (mkAction None None None) (messageActionState ss !! id email)).
  assert (H1 : messageActionState ss1
               = <[id email := fold_left assign_action [Trashing true; ActError ""] a0]>
                   (messageActionState ss)) by reflexivity.
  assert (Hend : forall p ss2,
            messageActionState ss2 = messageActionState ss1 ->
            messageActionState (updateMessageAction (id email) p ss2)
            = <[id email := fold_left assign_action ([Trashing true; ActError ""] ++ p) a0]>
                (messageActionState ss)).
  { intros p ss2 H2. unfold updateMessageAction. cbn [messageActionState].
    rewrite H2, H1, lookup_insert_eq. cbn [default]. rewrite insert_insert_eq.
    rewrite fold_left_app. reflexivity. }
  assert (Hcatch : forall msg ss2,
            messageActionState ss2 = messageActionState ss1 ->
            exists message,
              messageActionState (trashEmail_catch email msg ss2)
              = <[id email := fold_left assign_action
                                [Trashing true; ActError ""; Trashing false; ActError message] a0]>
                  (messageActionState ss)
              /\ calls (trashEmail_catch email msg ss2) = calls ss2
              /\ only_status_changed (dashboard ss2) (dashboard (trashEmail_catch email msg ss2))
              /\ (interpretGmailError msg (dashboard ss2) = (msg, dashboard ss2) ->
                  message = msg /\ dashboard (trashEmail_catch email msg ss2) = dashboard ss2)).
  { intros msg ss2 H2. unfold trashEmail_catch.
    destruct (interpretError_frame msg ss2) as (Hc & Hm & Hd & _).
    unfold interpretError in *.
    destruct (interpretGmailError msg (dashboard ss2)) as [message d'] eqn:Hi.
    cbn [snd calls messageActionState dashboard] in Hc, Hm, Hd.
    exists message. split; [|split; [reflexivity|split; [exact Hd|]]].
    - apply (Hend [Trashing false; ActError message]). exact H2.
    - intros [= -> ->]. split; reflexivity. }
  assert (Hshape : forall ss' a,
            messageActionState ss' = <[id email := a]> (messageActionState ss) ->
            trashing a = Some false -> archiving a = archiving a0 ->
            (exists a', messageActionState ss' !! id email = Some a'
                        /\ trashing a' = Some false /\ archiving a' = archiving a0)
            /\ (forall j, j <> id email ->
                          messageActionState ss' !! j = messageActionState ss !! j)).
  { intros ss' a Hm Hf Ho. rewrite Hm. split.
    - exists a. split; [apply lookup_insert_eq | split; assumption].
    - intros j Hj. apply lookup_insert_ne. congruence. }
  destruct (Js.truthy (googleToken (dashboard ss))) eqn:Ht; simpl negb; cbv iota.
  2:{ destruct (Hcatch "Connect Gmail first." ss1 eq_refl) as (message & Hm & Hc & Hd & Hid).
      destruct (Hid eq_refl) as [-> Hdash].
      destruct (Hshape _ _ Hm eq_refl eq_refl) as [Ha Hj].
      split; [exact Ha|]. split; [exact Hj|]. split; [|discriminate].
      intros _. split; [exact Hc|]. split; [exact Hdash|].
      rewrite Hm. eexists. split; [apply lookup_insert_eq | reflexivity]. }
  set (ss2 := call (TrashMessage (id email) (googleToken (dashboard ss))) ss1).
  destruct w as [msg|message|recovery|resync].
  - destruct (Hcatch msg ss2 eq_refl) as (m & Hm & Hc & Hd & _).
    destruct (Hshape _ _ Hm eq_refl eq_refl) as [Ha Hj].
    split; [exact Ha|]. split; [exact Hj|]. split; [discriminate|].
    intros _. exists []. split; [rewrite Hc; reflexivity|]. split; [constructor|].
    split; [reflexivity | exact Hd].
  - destruct (Hcatch (Js.or_else message "Unable to delete email.") ss2 eq_refl)
      as (m & Hm & Hc & Hd & _).
    destruct (Hshape _ _ Hm eq_refl eq_refl) as [Ha Hj].
    split; [exact Ha|]. split; [exact Hj|]. split; [discriminate|].
    intros _. exists []. split; [rewrite Hc; reflexivity|]. split; [constructor|].
    split; [reflexivity | exact Hd].
  - destruct (handle401Error_issues_sync_calls decodeBase64Url recovery (dashboard ss))
      as [cs [Hn Hcs]].
    pose proof (Hend [Trashing false]
                  (on_dashboard (handle401Error decodeBase64Url recovery) ss2) eq_refl) as Hm.
    destruct (Hshape _ _ Hm eq_refl eq_refl) as [Ha Hj].
    split; [exact Ha|]. split; [exact Hj|]. split; [discriminate|].
    intros _. exists cs. split; [|split; [exact Hcs | reflexivity]].
    change (calls (updateMessageAction ?i ?p ?x)) with (calls x).
    rewrite (on_dashboard_calls _ ss2 cs Hn). simpl. rewrite <- app_assoc. reflexivity.
  - destruct (fetchEmails_first_call decodeBase64Url resync (Some (googleToken (dashboard ss)))
                (dashboard ss)) as [rest [Hn Hrest]].
    { simpl. rewrite Ht. exact Ht. }
    simpl Js.or_else in Hn. rewrite Ht in Hn.
    pose proof (Hend [Trashing false] ss2 eq_refl) as Hm.
    match goal with
    | |- context [on_dashboard ?f ?x] =>
        change (messageActionState (on_dashboard f x)) with (messageActionState x);
        pose proof (on_dashboard_calls f x _ Hn) as Hcalls
    end.
    destruct (Hshape (updateMessageAction (id email) [Trashing false] ss2) _ Hm eq_refl eq_refl)
      as [Ha Hj].
    split; [exact Ha|]. split; [exact Hj|]. split; [discriminate|].
    intros _. eexists. split; [|split; [|split; [eexists; reflexivity|split; [reflexivity|]]]].
    + rewrite Hcalls. simpl. rewrite <- app_assoc. reflexivity.
    + constructor; [exact I | exact Hrest].
    + rewrite Hm. eexists. split; [apply lookup_insert_eq | reflexivity].
Qed.

End SessionFacts.

Section GenerateFacts.

Variable decodeBase64Url : string -> string.
Variable OPENAI_API_KEY : option string.

Local Abbreviation generate := (generateReplyDraft decodeBase64Url OPENAI_API_KEY).

Lemma generateReplyDraft_catch_after email msg d1 (m : gmap string ReplyDraftState) ss :
  replyDrafts (dashboard ss) = <[id email := d1]> m ->
  exists message,
    replyDrafts (dashboard (generateReplyDraft_catch email msg ss))
    = <[id email := fold_left assign [Loading false; Content ""; Error message] d1]> m
    /\ calls (generateReplyDraft_catch email msg ss) = calls ss.
Proof.
  intros H. unfold generateReplyDraft_catch.
  destruct (interpretError_frame msg ss) as (Hc & _ & Hd & Hn).
  destruct (interpretError msg ss) as [message ss1]. cbn [snd] in Hc, Hd, Hn.
  exists message. split.
  - cbn [dashboard on_dashboard]. apply patch_after.
    destruct Hd as (_ & _ & _ & _ & _ & _ & -> & _). exact H.
  - rewrite on_dashboard_quiet by reflexivity. exact Hc.
Qed.

(** The record of the message and the calls after [generateReplyDraft],
    when the key is set. *)
Lemma generateReplyDraft_shape w email ss :
  Js.truthy (openAiKey OPENAI_API_KEY) = true ->
  let existing := default blankDraft (replyDrafts (dashboard ss) !! id email) in
  let started := fold_left assign generation_start existing in
  exists patch cs,
    replyDrafts (dashboard (generate w email ss))
    = <[id email := fold_left assign patch started]> (replyDrafts (dashboard ss))
    /\ calls (generate w email ss) = calls ss ++ cs
    /\ generation_calls email (googleToken (dashboard ss)) cs
    /\ ((exists message, patch = [Loading false; Content ""; Error message])
        \/ patch = [Loading false; Error "Authentication expired"]
        \/ (exists text i now,
              Js.truthy text = true /\ Js.trim text = text
              /\ patch = [ Loading false; Content text; DraftId i; SavedAt now; Error "";
                           Notice "Draft saved to Gmail."; Dirty false ])).
Proof.
  intros Hk. cbv zeta. unfold generateReplyDraft. rewrite Hk. cbn [negb]. cbv iota.
  set (existing := default blankDraft (replyDrafts (dashboard ss) !! id email)).
  set (started := fold_left assign generation_start existing).
  set (ss1 := on_dashboard (patchReplyDraft (id email) generation_start) ss).
  change (on_dashboard (patchReplyDraft (id email)
            [Loading true; Error ""; DraftId None; Notice ""; Dirty false]) ss) with ss1.
  assert (H1 : replyDrafts (dashboard ss1) = <[id email := started]> (replyDrafts (dashboard ss)))
    by reflexivity.
  assert (C1 : calls ss1 = calls ss) by (apply on_dashboard_quiet; reflexivity).
  change (googleToken (dashboard ss1)) with (googleToken (dashboard ss)).
  assert (Hfail : forall msg ss2 cs,
            replyDrafts (dashboard ss2) = replyDrafts (dashboard ss1) ->
            calls ss2 = calls ss ++ cs ->
            generation_calls email (googleToken (dashboard ss)) cs ->
            exists patch cs,
              replyDrafts (dashboard (generateReplyDraft_catch email msg ss2))
              = <[id email := fold_left assign patch started]> (replyDrafts (dashboard ss))
              /\ calls (generateReplyDraft_catch email msg ss2) = calls ss ++ cs
              /\ generation_calls email (googleToken (dashboard ss)) cs
              /\ ((exists message, patch = [Loading false; Content ""; Error message])
                  \/ patch = [Loading false; Error "Authentication expired"]
                  \/ (exists text i now,
                        Js.truthy text = true /\ Js.trim text = text
                        /\ patch = [ Loading false; Content text; DraftId i; SavedAt now;
                                     Error ""; Notice "Draft saved to Gmail."; Dirty false ]))).
  { intros msg ss2 cs H2 C2 G2. rewrite H1 in H2.
    destruct (generateReplyDraft_catch_after email msg _ _ ss2 H2) as (message & Hm & Hc).
    exists [Loading false; Content ""; Error message], cs.
    split; [exact Hm|]. split; [rewrite Hc; exact C2|]. split; [exact G2|].
    left. exists message. reflexivity. }
  destruct (Js.truthy (googleToken (dashboard ss))) eqn:Ht; cbn [negb]; cbv iota.
  2:{ apply (Hfail _ ss1 []); [reflexivity | rewrite app_nil_r; exact C1 | left; reflexivity]. }
  set (ss2 := call (DraftCompletion (id email)) ss1).
  assert (C2 : calls ss2 = calls ss ++ [DraftCompletion (id email)])
    by (unfold ss2, call; cbn [calls]; rewrite C1; reflexivity).
  assert (G2 : generation_calls email (googleToken (dashboard ss)) [DraftCompletion (id email)])
    by (right; left; reflexivity).
  destruct w as [msg|message|message created];
    [apply (Hfail _ ss2 _ eq_refl C2 G2) | apply (Hfail _ ss2 _ eq_refl C2 G2) |].
  set (draftText := Js.trim (Js.or_else (Some (extractMessageContent message)) "")).
  destruct (Js.truthy draftText) eqn:Htext; cbn [negb]; cbv iota;
    [|apply (Hfail _ ss2 _ eq_refl C2 G2)].
  destruct (getReplyEnvelope email) as [msg|envelope];
    [apply (Hfail _ ss2 _ eq_refl C2 G2)|].
  set (rfc822 := buildReplyMessage _ _ draftText _).
  set (ss3 := on_dashboard (fetch (CreateDraft (googleToken (dashboard ss)) rfc822
                                     (threadId email))) ss2).
  assert (C3 : calls ss3
               = calls ss ++ [DraftCompletion (id email);
                              Gmail (CreateDraft (googleToken (dashboard ss)) rfc822
                                       (threadId email))]).
  { unfold ss3.
    rewrite (on_dashboard_calls
               (fetch (CreateDraft (googleToken (dashboard ss)) rfc822 (threadId email))) ss2
               [CreateDraft (googleToken (dashboard ss)) rfc822 (threadId email)] eq_refl).
    rewrite C2, <- app_assoc. reflexivity. }
  assert (G3 : generation_calls email (googleToken (dashboard ss))
                 [DraftCompletion (id email);
                  Gmail (CreateDraft (googleToken (dashboard ss)) rfc822 (threadId email))]).
  { right. right. exists rfc822, []. split; [reflexivity | constructor]. }
  destruct created as [msg|msg|recovery|data_id data_message_id now];
    [apply (Hfail _ ss3 _ eq_refl C3 G3) | apply (Hfail _ ss3 _ eq_refl C3 G3) | |].
  - destruct (handle401Error_issues_sync_calls decodeBase64Url recovery (dashboard ss3))
      as [rest [Hn Hrest]].
    exists [Loading false; Error "Authentication expired"].
    exists (DraftCompletion (id email)
            :: Gmail (CreateDraft (googleToken (dashboard ss)) rfc822 (threadId email))
            :: map Gmail rest).
    split; [|split; [|split]].
    + cbn [dashboard on_dashboard]. apply patch_after.
      destruct (handle401Error_keeps_enrichment decodeBase64Url recovery (dashboard ss3))
        as (_ & _ & -> & _).
      exact H1.
    + rewrite on_dashboard_quiet by reflexivity.
      rewrite (on_dashboard_calls _ ss3 rest Hn), C3, <- app_assoc. reflexivity.
    + right. right. exists rfc822, rest. split; [reflexivity | exact Hrest].
    + right. left. reflexivity.
  - eexists. exists [DraftCompletion (id email);
                     Gmail (CreateDraft (googleToken (dashboard ss)) rfc822 (threadId email))].
    split; [|split; [|split]].
    + cbn [dashboard on_dashboard]. apply patch_after. exact H1.
    + rewrite on_dashboard_quiet by reflexivity. exact C3.
    + exact G3.
    + right. right. exists draftText. do 2 eexists.
      split; [exact Htext|]. split; [apply JsFacts.trim_idem | reflexivity].
Qed.

(** Without the key, or without a token, nothing is requested. *)
Lemma generateReplyDraft_not_ready w email ss :
  Js.truthy (openAiKey OPENAI_API_KEY) = false \/ Js.truthy (googleToken (dashboard ss)) = false ->
  calls (generate w email ss) = calls ss.
Proof.
  intros H. unfold generateReplyDraft.
  destruct (Js.truthy (openAiKey OPENAI_API_KEY)) eqn:Hk; cbn [negb]; cbv iota.
  - destruct H as [H|H]; [discriminate|].
    change (googleToken (dashboard (on_dashboard (patchReplyDraft (id email)
              [Loading true; Error ""; DraftId None; Notice ""; Dirty false]) ss)))
      with (googleToken (dashboard ss)).
    rewrite H. cbn [negb]. cbv iota.
    unfold generateReplyDraft_catch.
    match goal with
    | |- context [interpretError ?m ?x] =>
        destruct (interpretError_frame m x) as (Hc & _ & _ & Hn);
        destruct (interpretError m x) as [message ss1]
    end.
    cbn [snd] in Hc, Hn.
    rewrite on_dashboard_quiet by reflexivity. rewrite Hc.
    apply on_dashboard_quiet. reflexivity.
  - apply on_dashboard_quiet. reflexivity.
Qed.

(** The generation that goes through: text from the completion service,
    a draft created at the provider. *)
Lemma generateReplyDraft_ok message data_id data_message_id now email ss envelope :
  Js.truthy (openAiKey OPENAI_API_KEY) = true ->
  Js.truthy (googleToken (dashboard ss)) = true ->
  Js.truthy (Js.trim (Js.or_else (Some (extractMessageContent message)) "")) = true ->
  getReplyEnvelope email = inr envelope ->
  let draftText := Js.trim (Js.or_else (Some (extractMessageContent message)) "") in
  let rfc822 := buildReplyMessage (recipient envelope) (replySubject envelope) draftText
                  (messageId email) in
  let ss' := generate (DraftingOk message (DraftOk data_id data_message_id now)) email ss in
  replyDrafts (dashboard ss') !! id email
  = Some (fold_left assign
            [ Loading false; Content draftText;
              DraftId (if Js.present data_id then data_id else data_message_id);
              SavedAt now; Error ""; Notice "Draft saved to Gmail."; Dirty false ]
            (fold_left assign generation_start
               (default blankDraft (replyDrafts (dashboard ss) !! id email))))
  /\ calls ss'
     = calls ss ++ [ DraftCompletion (id email);
                     Gmail (CreateDraft (googleToken (dashboard ss)) rfc822 (threadId email)) ]
  /\ googleToken (dashboard ss') = googleToken (dashboard ss)
  /\ net (dashboard ss')
     = net (dashboard ss) ++ [CreateDraft (googleToken (dashboard ss)) rfc822 (threadId email)].
Proof.
  intros Hk Ht Htext He. cbv zeta. unfold generateReplyDraft.
  rewrite Hk. cbn [negb]. cbv iota.
  change (googleToken (dashboard (on_dashboard (patchReplyDraft (id email)
            [Loading true; Error ""; DraftId None; Notice ""; Dirty false]) ss)))
    with (googleToken (dashboard ss)).
  rewrite Ht. cbn [negb]. cbv iota. rewrite Htext. cbn [negb]. cbv iota. rewrite He.
  set (draftText := Js.trim (Js.or_else (Some (extractMessageContent message)) "")).
  set (rfc822 := buildReplyMessage _ _ draftText _).
  set (ss1 := on_dashboard (patchReplyDraft (id email)
                [Loading true; Error ""; DraftId None; Notice ""; Dirty false]) ss).
  assert (C1 : calls ss1 = calls ss) by (apply on_dashboard_quiet; reflexivity).
  set (ss2 := call (DraftCompletion (id email)) ss1).
  set (ss3 := on_dashboard (fetch (CreateDraft (googleToken (dashboard ss)) rfc822
                                     (threadId email))) ss2).
  assert (C3 : calls ss3
               = calls ss ++ [DraftCompletion (id email);
                              Gmail (CreateDraft (googleToken (dashboard ss)) rfc822
                                       (threadId email))]).
  { unfold ss3.
    rewrite (on_dashboard_calls
               (fetch (CreateDraft (googleToken (dashboard ss)) rfc822 (threadId email))) ss2
               [CreateDraft (googleToken (dashboard ss)) rfc822 (threadId email)] eq_refl).
    unfold ss2, call. cbn [calls]. rewrite C1, <- app_assoc. reflexivity. }
  split; [|split; [|split]].
  - cbn [dashboard on_dashboard]. rewrite patchReplyDraft_lookup.
    do 2 f_equal. cbn. rewrite lookup_insert_eq. reflexivity.
  - rewrite on_dashboard_quiet by reflexivity. exact C3.
  - reflexivity.
  - reflexivity.
Qed.

(** The records of the other messages are left alone. *)
Lemma generateReplyDraft_other w email ss j :
  j <> id email ->
  replyDrafts (dashboard (generate w email ss)) !! j = replyDrafts (dashboard ss) !! j.
Proof.
  intros Hj. destruct (Js.truthy (openAiKey OPENAI_API_KEY)) eqn:Hk.
  - destruct (generateReplyDraft_shape w email ss Hk) as (patch & cs & -> & _).
    apply lookup_insert_ne. congruence.
  - unfold generateReplyDraft. rewrite Hk. cbn [negb]. cbv iota.
    cbn [dashboard on_dashboard]. apply patchReplyDraft_other. congruence.
Qed.

Lemma generateReplyDraft_catch_lookup email msg ss s0 :
  replyDrafts (dashboard (generateReplyDraft_catch email msg ss)) !! id email
  = Some (fold_left assign
            [Loading false; Content ""; Error (fst (interpretGmailError msg s0))]
            (default blankDraft (replyDrafts (dashboard ss) !! id email))).
Proof.
  unfold generateReplyDraft_catch, interpretError.
  rewrite (interpretGmailError_fst msg s0 (dashboard ss)).
  pose proof (interpretGmailError_only_status msg (dashboard ss)) as Hs.
  destruct (interpretGmailError msg (dashboard ss)) as [message d1]. simpl in Hs. cbn [fst].
  cbn [dashboard on_dashboard]. rewrite patchReplyDraft_lookup.
  destruct Hs as (_ & _ & _ & _ & _ & _ & -> & _). reflexivity.
Qed.

(** The record of the message after a generation, answer by answer. *)
Lemma generateReplyDraft_record w email ss :
  Js.truthy (openAiKey OPENAI_API_KEY) = true ->
  let existing := default blankDraft (replyDrafts (dashboard ss) !! id email) in
  let failed := fun msg =>
    [Loading false; Content ""; Error (fst (interpretGmailError msg (dashboard ss)))] in
  replyDrafts (dashboard (generate w email ss)) !! id email
  = Some (fold_left assign
            (if negb (Js.truthy (googleToken (dashboard ss)))
             then failed "Connect Gmail first."
             else
               match w with
               | DraftingThrows msg => failed msg
               | DraftingNotOk message => failed (Js.or_else message "Unable to draft reply.")
               | DraftingOk message created =>
                   let draftText :=
                     Js.trim (Js.or_else (Some (extractMessageContent message)) "") in
                   if negb (Js.truthy draftText) then failed "Model returned an empty draft."
                   else
                     match getReplyEnvelope email with
                     | inl msg => failed msg
                     | inr _ =>
                         match created with
                         | DraftThrows msg => failed msg
                         | DraftNotOk message =>
                             failed (Js.or_else message "Unable to save draft in Gmail.")
                         | DraftUnauthorized _ =>
                             [Loading false; Error "Authentication expired"]
                         | DraftOk data_id data_message_id now =>
                             [ Loading false; Content draftText;
                               DraftId (if Js.present data_id then data_id
                                        else data_message_id);
                               SavedAt now; Error ""; Notice "Draft saved to Gmail.";
                               Dirty false ]
                         end
                     end
               end)
            (fold_left assign generation_start existing)).
Proof.
  intros Hk. cbv zeta. unfold generateReplyDraft. rewrite Hk. cbn [negb]. cbv iota.
  set (existing := default blankDraft (replyDrafts (dashboard ss) !! id email)).
  set (ss1 := on_dashboard (patchReplyDraft (id email)
                [Loading true; Error ""; DraftId None; Notice ""; Dirty false]) ss).
  assert (H1 : forall d2, replyDrafts d2 = replyDrafts (dashboard ss1) ->
                          default blankDraft (replyDrafts d2 !! id email)
                          = fold_left assign generation_start existing).
  { intros d2 ->. unfold ss1. cbn [dashboard on_dashboard].
    rewrite patchReplyDraft_lookup. reflexivity. }
  assert (Hcatch : forall msg ss2,
            replyDrafts (dashboard ss2) = replyDrafts (dashboard ss1) ->
            replyDrafts (dashboard (generateReplyDraft_catch email msg ss2)) !! id email
            = Some (fold_left assign
                      [Loading false; Content "";
                       Error (fst (interpretGmailError msg (dashboard ss)))]
                      (fold_left assign generation_start existing))).
  { intros msg ss2 H2.
    rewrite (generateReplyDraft_catch_lookup email msg ss2 (dashboard ss)), (H1 _ H2).
    reflexivity. }
  change (googleToken (dashboard ss1)) with (googleToken (dashboard ss)).
  destruct (Js.truthy (googleToken (dashboard ss))); cbn [negb]; cbv iota;
    [|apply Hcatch; reflexivity].
  destruct w as [msg|message|message created];
    [apply Hcatch; reflexivity | apply Hcatch; reflexivity |].
  destruct (Js.truthy (Js.trim (Js.or_else (Some (extractMessageContent message)) "")));
    cbn [negb]; cbv iota; [|apply Hcatch; reflexivity].
  destruct (getReplyEnvelope email) as [msg|envelope]; [apply Hcatch; reflexivity|].
  destruct created as [msg|msg|recovery|data_id data_message_id now].
  - apply Hcatch. reflexivity.
  - apply Hcatch. reflexivity.
  - cbn [dashboard on_dashboard]. rewrite patchReplyDraft_lookup, (H1 _); [reflexivity|].
    match goal with
    | |- replyDrafts (handle401Error _ _ ?x) = _ =>
        destruct (handle401Error_keeps_enrichment decodeBase64Url recovery x)
          as (_ & _ & -> & _)
    end.
    reflexivity.
  - cbn [dashboard on_dashboard]. rewrite patchReplyDraft_lookup, (H1 _); reflexivity.
Qed.

End GenerateFacts.

(** ** Mailbox actions *)

(** X17.  Whenever an archive or a trash comes to an end, its own flag
    of the message is off; neither touches the flag of the other action,
    nor the entry of any other message, at any time.  After a success the
    flag is cleared before the sync is started; after a 401 it is cleared
    only once the credential recovery has ended, which starts from a state
    where the flag is still on. *)
Theorem mailbox_action_flag_cleared
    (decodeBase64Url : string -> string) (w : ActionWorld) (email : GmailEmail)
    (ss : Session) :
  let before := default (mkAction None None None) (messageActionState ss !! id email) in
  let archived := archiveEmail decodeBase64Url w email ss in
  let trashed := trashEmail decodeBase64Url w email ss in
  let token := googleToken (dashboard ss) in
  let flag := fun (field : ActionState -> option bool) (state : Session) =>
    messageActionState state !! id email ≫= field in
  (exists a, messageActionState archived !! id email = Some a
             /\ archiving a = Some false /\ trashing a = trashing before)
  /\ (exists a, messageActionState trashed !! id email = Some a
                /\ trashing a = Some false /\ archiving a = archiving before)
  /\ (forall j, j <> id email ->
                messageActionState archived !! j = messageActionState ss !! j
                /\ messageActionState trashed !! j = messageActionState ss !! j)
  /\ (Js.truthy token = true ->
      match w with
      | ActionOk resync =>
          exists cleared cleared',
            archived = on_dashboard (fetchEmails decodeBase64Url resync (Some token)) cleared
            /\ flag archiving cleared = Some false
            /\ trashed = on_dashboard (fetchEmails decodeBase64Url resync (Some token)) cleared'
            /\ flag trashing cleared' = Some false
      | ActionUnauthorized recovery =>
          exists started started',
            archived
            = updateMessageAction (id email) [Archiving false]
                (on_dashboard (handle401Error decodeBase64Url recovery) started)
            /\ flag archiving started = Some true
            /\ trashed
               = updateMessageAction (id email) [Trashing false]
                   (on_dashboard (handle401Error decodeBase64Url recovery) started')
            /\ flag trashing started' = Some true
      | ActionThrows _ | ActionNotOk _ => True
      end).
Proof.
  cbv zeta.
  destruct (archiveEmail_outcome decodeBase64Url w email ss) as (Ha & Hoa & _).
  destruct (trashEmail_outcome decodeBase64Url w email ss) as (Ht & Hot & _).
  split; [exact Ha|]. split; [exact Ht|]. split.
  - intros j Hj. split; [apply Hoa, Hj | apply Hot, Hj].
  - intros Htok. unfold archiveEmail, trashEmail.
    change (googleToken (dashboard (updateMessageAction (id email)
              [Archiving true; ActError ""] ss))) with (googleToken (dashboard ss)).
    change (googleToken (dashboard (updateMessageAction (id email)
              [Trashing true; ActError ""] ss))) with (googleToken (dashboard ss)).
    rewrite Htok. cbn [negb]. cbv iota.
    destruct w as [msg|message|recovery|resync]; [exact I | exact I | |].
    + do 2 eexists. split; [reflexivity|]. split; [|split; [reflexivity|]].
      * cbn. rewrite lookup_insert_eq. reflexivity.
      * cbn. rewrite lookup_insert_eq. reflexivity.
    + do 2 eexists. split; [reflexivity|]. split; [|split; [reflexivity|]].
      * cbn. rewrite lookup_insert_eq. reflexivity.
      * cbn. rewrite lookup_insert_eq. reflexivity.
Qed.

Lemma mailbox_action_flag_cleared_witness :
  let ss := updateMessageAction "m1" [Trashing true] sample_session in
  let ss' := archiveEmail (fun x => x) (ActionThrows "Failed to fetch") sample_email ss in
  messageActionState ss' !! "m1" = messageActionState ss !! "m1".
Proof.
  intros ss ss'.
  apply (proj1 (proj2 (proj2 (mailbox_action_flag_cleared (fun x => x)
                                (ActionThrows "Failed to fetch") sample_email ss))) "m1").
  discriminate.
Defined.

(** X18.  Without a token in memory, archive and trash issue no call and
    leave the dashboard as it is; the entry of the message reports
    "Connect Gmail first.". *)
Theorem mailbox_action_needs_token
    (decodeBase64Url : string -> string) (w : ActionWorld) (email : GmailEmail)
    (ss : Session) :
  Js.truthy (googleToken (dashboard ss)) = false ->
  forall ss',
    ss' = archiveEmail decodeBase64Url w email ss
    \/ ss' = trashEmail decodeBase64Url w email ss ->
    calls ss' = calls ss
    /\ dashboard ss' = dashboard ss
    /\ exists a, messageActionState ss' !! id email = Some a
                 /\ act_error a = Some "Connect Gmail first.".
Proof.
  intros Ht ss' [->| ->].
  - destruct (archiveEmail_outcome decodeBase64Url w email ss) as (_ & _ & H & _).
    exact (H Ht).
  - destruct (trashEmail_outcome decodeBase64Url w email ss) as (_ & _ & H & _).
    exact (H Ht).
Qed.

Lemma mailbox_action_needs_token_witness :
  let ss := mkSession (setGoogleToken "" sample_state) ∅ [] in
  let ss' := archiveEmail (fun x => x) (ActionOk sample_inbox) sample_email ss in
  calls ss' = [] /\ dashboard ss' = dashboard ss.
Proof.
  intros ss ss'.
  destruct (mailbox_action_needs_token (fun x => x) (ActionOk sample_inbox) sample_email ss
              eq_refl ss' (or_introl eq_refl)) as (Hc & Hd & _).
  split; [exact Hc | exact Hd].
Defined.

(** X19.  With a token, archive and trash issue exactly one call of their
    own, for this message and with the token in memory, and nothing but
    sync and recovery calls after it.  A failure other than a 401 is
    followed by no call and changes nothing of the dashboard but the
    connection status; a success clears the error of the entry and runs
    one sync cycle with the same token, which starts by listing the
    inbox; a 401 runs the credential recovery. *)
Theorem mailbox_action_calls
    (decodeBase64Url : string -> string) (w : ActionWorld) (email : GmailEmail)
    (ss : Session) :
  Js.truthy (googleToken (dashboard ss)) = true ->
  forall mark ss',
    (mark = ModifyLabels /\ ss' = archiveEmail decodeBase64Url w email ss)
    \/ (mark = TrashMessage /\ ss' = trashEmail decodeBase64Url w email ss) ->
    let token := googleToken (dashboard ss) in
    exists rest,
      calls ss' = calls ss ++ mark (id email) token :: map Gmail rest
      /\ Forall sync_call rest
      /\ match w with
         | ActionThrows _ | ActionNotOk _ =>
             rest = [] /\ only_status_changed (dashboard ss) (dashboard ss')
         | ActionOk resync =>
             (exists rest', rest = ListInbox token :: rest')
             /\ dashboard ss' = fetchEmails decodeBase64Url resync (Some token) (dashboard ss)
             /\ exists a, messageActionState ss' !! id email = Some a
                          /\ act_error a = Some ""
         | ActionUnauthorized recovery =>
             dashboard ss' = handle401Error decodeBase64Url recovery (dashboard ss)
         end.
Proof.
  intros Ht mark ss' [[-> ->]|[-> ->]]; cbv zeta.
  - destruct (archiveEmail_outcome decodeBase64Url w email ss) as (_ & _ & _ & H).
    exact (H Ht).
  - destruct (trashEmail_outcome decodeBase64Url w email ss) as (_ & _ & _ & H).
    exact (H Ht).
Qed.

Lemma mailbox_action_calls_witness :
  let ss' := trashEmail (fun x => x) (ActionNotOk (Some "Backend Error")) sample_email
               sample_session in
  calls ss' = calls sample_session ++ [TrashMessage "m0" "token-1"]
  /\ emails (dashboard ss') = emails (dashboard sample_session).
Proof.
  intros ss'.
  destruct (mailbox_action_calls (fun x => x) (ActionNotOk (Some "Backend Error")) sample_email
              sample_session eq_refl TrashMessage ss' (or_intror (conj eq_refl eq_refl)))
    as (rest & Hc & _ & -> & Hs).
  split; [exact Hc|]. destruct Hs as (_ & _ & He & _). exact He.
Defined.

(** ** Reply generation *)

(** X20.  A generation issues at most one completion request and, after
    it, at most one creation of a draft with the token in memory, threaded
    to the original; nothing follows but the calls of a credential
    recovery.  It never updates a draft and never sends.  Without the key,
    or without a token, it issues no call at all. *)
Theorem generateReplyDraft_calls
    (decodeBase64Url : string -> string) (OPENAI_API_KEY : option string)
    (w : GenerateWorld) (email : GmailEmail) (ss : Session) :
  let ss' := generateReplyDraft decodeBase64Url OPENAI_API_KEY w email ss in
  (exists cs, calls ss' = calls ss ++ cs
              /\ generation_calls email (googleToken (dashboard ss)) cs
              /\ forallb (fun c => negb (is_draft_update c)) cs = true
              /\ Forall (fun c => forall bearer rfc822 thread,
                                    c <> Gmail (SendMessage bearer rfc822 thread)) cs)
  /\ (Js.truthy (openAiKey OPENAI_API_KEY) = false
      \/ Js.truthy (googleToken (dashboard ss)) = false ->
      calls ss' = calls ss).
Proof.
  cbv zeta. split; [|apply generateReplyDraft_not_ready].
  assert (Hsync : forall rest, Forall sync_call rest ->
            forallb (fun c => negb (is_draft_update c)) (map Gmail rest) = true
            /\ Forall (fun c => forall bearer rfc822 thread,
                                  c <> Gmail (SendMessage bearer rfc822 thread))
                 (map Gmail rest)).
  { induction 1 as [|r rest Hr _ [IH1 IH2]]; [split; [reflexivity | constructor]|].
    split.
    - simpl. rewrite IH1. destruct r; simpl in Hr; try contradiction; reflexivity.
    - constructor; [|exact IH2].
      intros bearer rfc822 thread E. destruct r; simpl in Hr; try contradiction; discriminate. }
  destruct (Js.truthy (openAiKey OPENAI_API_KEY)) eqn:Hk.
  - destruct (generateReplyDraft_shape decodeBase64Url OPENAI_API_KEY w email ss Hk)
      as (patch & cs & _ & Hc & Hg & _).
    exists cs. split; [exact Hc|]. split; [exact Hg|].
    destruct Hg as [->|[->|(rfc822 & rest & -> & Hrest)]].
    + split; [reflexivity | constructor].
    + split; [reflexivity|]. repeat constructor. discriminate.
    + destruct (Hsync rest Hrest) as [H1 H2]. split.
      * simpl. exact H1.
      * constructor; [discriminate|]. constructor; [discriminate | exact H2].
  - exists []. rewrite app_nil_r.
    split; [apply generateReplyDraft_not_ready; left; exact Hk|].
    split; [left; reflexivity|]. split; [reflexivity | constructor].
Qed.

Lemma generateReplyDraft_calls_witness :
  calls (generateReplyDraft (fun x => x) None (DraftingThrows "unused") sample_email
           sample_session)
  = calls sample_session.
Proof.
  exact (proj2 (generateReplyDraft_calls (fun x => x) None (DraftingThrows "unused") sample_email
                  sample_session) (or_introl eq_refl)).
Defined.

(** X21.  With the key set, whenever a generation comes to an end the
    record has the spinner off and is not dirty, and the draft id that it
    held is forgotten.  Without a token, when the completion or the
    creation of the draft throws or is refused otherwise than by a 401,
    when the text that came back is blank, or when the sender cannot be
    parsed, the text is emptied, no draft id is held and the error is the
    classified message.  After a 401 at the creation the text that was
    there is kept, no draft id is held and the error is "Authentication
    expired"; the spinner is cleared only once the credential recovery has
    ended.  After a creation that succeeds the record holds the trimmed
    text, which is not empty, the id that the answer carries and the save
    time, with no error.  The records of the other messages are never
    touched. *)
Theorem generateReplyDraft_outcome
    (decodeBase64Url : string -> string) (OPENAI_API_KEY : option string)
    (w : GenerateWorld) (email : GmailEmail) (ss : Session) :
  Js.truthy (openAiKey OPENAI_API_KEY) = true ->
  let before := default blankDraft (replyDrafts (dashboard ss) !! id email) in
  let ss' := generateReplyDraft decodeBase64Url OPENAI_API_KEY w email ss in
  let failed := fun (msg : string) (d : ReplyDraftState) =>
    content d = "" /\ draftId d = None /\ notice d = Some ""
    /\ savedAt d = savedAt before
    /\ d_error d = Some (fst (interpretGmailError msg (dashboard ss))) in
  (exists d, replyDrafts (dashboard ss') !! id email = Some d
             /\ d_loading d = false
             /\ dirty d = Some false
             /\ saving d = saving before /\ sending d = sending before
             /\ (if negb (Js.truthy (googleToken (dashboard ss)))
                 then failed "Connect Gmail first." d
                 else
                   match w with
                   | DraftingThrows msg => failed msg d
                   | DraftingNotOk message =>
                       failed (Js.or_else message "Unable to draft reply.") d
                   | DraftingOk message created =>
                       let draftText :=
                         Js.trim (Js.or_else (Some (extractMessageContent message)) "") in
                       if negb (Js.truthy draftText)
                       then failed "Model returned an empty draft." d
                       else
                         match getReplyEnvelope email with
                         | inl msg => failed msg d
                         | inr _ =>
                             match created with
                             | DraftThrows msg => failed msg d
                             | DraftNotOk message =>
                                 failed (Js.or_else message "Unable to save draft in Gmail.") d
                             | DraftUnauthorized _ =>
                                 content d = content before /\ draftId d = None
                                 /\ notice d = Some "" /\ savedAt d = savedAt before
                                 /\ d_error d = Some "Authentication expired"
                             | DraftOk data_id data_message_id now =>
                                 content d = draftText
                                 /\ Js.truthy (content d) = true
                                 /\ Js.trim (content d) = content d
                                 /\ draftId d
                                    = (if Js.present data_id then data_id else data_message_id)
                                 /\ savedAt d = Some now
                                 /\ d_error d = Some ""
                                 /\ notice d = Some "Draft saved to Gmail."
                             end
                         end
                   end))
  /\ (forall j, j <> id email ->
                replyDrafts (dashboard ss') !! j = replyDrafts (dashboard ss) !! j)
  /\ (forall message recovery envelope,
        Js.truthy (googleToken (dashboard ss)) = true ->
        Js.truthy (Js.trim (Js.or_else (Some (extractMessageContent message)) "")) = true ->
        getReplyEnvelope email = inr envelope ->
        exists started,
          generateReplyDraft decodeBase64Url OPENAI_API_KEY
            (DraftingOk message (DraftUnauthorized recovery)) email ss
          = on_dashboard
              (patchReplyDraft (id email) [Loading false; Error "Authentication expired"])
              (on_dashboard (handle401Error decodeBase64Url recovery) started)
          /\ d_loading <$> replyDrafts (dashboard started) !! id email = Some true).
Proof.
  intros Hk. cbv zeta.
  split; [|split; [intros j Hj; apply generateReplyDraft_other, Hj|]].
  2:{ intros message recovery envelope Ht Htext He.
      unfold generateReplyDraft. rewrite Hk. cbn [negb]. cbv iota.
      change (googleToken (dashboard (on_dashboard (patchReplyDraft (id email)
                [Loading true; Error ""; DraftId None; Notice ""; Dirty false]) ss)))
        with (googleToken (dashboard ss)).
      rewrite Ht. cbn [negb]. cbv iota. rewrite Htext. cbn [negb]. cbv iota. rewrite He.
      eexists. split; [reflexivity|].
      cbn. rewrite lookup_insert_eq. reflexivity. }
  rewrite (generateReplyDraft_record decodeBase64Url OPENAI_API_KEY w email ss Hk).
  eexists. split; [reflexivity|].
  destruct (Js.truthy (googleToken (dashboard ss))); cbn [negb]; cbv iota;
    [|repeat split; reflexivity].
  destruct w as [msg|message|message created]; [repeat split | repeat split |].
  destruct (Js.truthy (Js.trim (Js.or_else (Some (extractMessageContent message)) "")))
    eqn:Htext; cbn [negb]; cbv iota; [|repeat split; reflexivity].
  destruct (getReplyEnvelope email); [repeat split; reflexivity|].
  destruct created; try (repeat split; reflexivity).
  split; [reflexivity|]. split; [reflexivity|]. split; [reflexivity|]. split; [reflexivity|].
  split; [reflexivity|]. split; [exact Htext|]. split; [apply JsFacts.trim_idem|].
  repeat split.
Qed.

Lemma generateReplyDraft_outcome_witness :
  let ss' := generateReplyDraft (fun x => x) (Some "sk-test")
               (DraftingOk (Some (ContentString "Will do."))
                  (DraftUnauthorized TokenThrows))
               sample_email sample_session in
  exists d, replyDrafts (dashboard ss') !! "m0" = Some d
            /\ d_loading d = false
            /\ content d = "Thanks, will do." /\ draftId d = None
            /\ d_error d = Some "Authentication expired".
Proof.
  intros ss'.
  destruct (proj1 (generateReplyDraft_outcome (fun x => x) (Some "sk-test")
                     (DraftingOk (Some (ContentString "Will do."))
                        (DraftUnauthorized TokenThrows))
                     sample_email sample_session eq_refl))
    as (d & Hd & Hl & _ & _ & _ & Hc & Hi & _ & _ & He).
  exists d. split; [exact Hd|]. split; [exact Hl|]. split; [exact Hc|].
  split; [exact Hi | exact He].
Defined.

(** X22.  A generation that goes through issues the completion request
    and one creation of a draft carrying the trimmed text, and stores the
    text with the id that the provider returned.  Saving right after it
    updates that same draft with the same text, and creates no second
    one. *)
Theorem generated_draft_is_updated_by_save
    (decodeBase64Url : string -> string) (OPENAI_API_KEY : option string)
    (message : option MessageContent) (data_id data_message_id : option string)
    (now i : string) (email : GmailEmail) (ss : Session) (envelope : ReplyEnvelope) :
  Js.truthy (openAiKey OPENAI_API_KEY) = true ->
  Js.truthy (googleToken (dashboard ss)) = true ->
  Js.truthy (Js.trim (Js.or_else (Some (extractMessageContent message)) "")) = true ->
  getReplyEnvelope email = inr envelope ->
  (if Js.present data_id then data_id else data_message_id) = Some i ->
  Js.truthy i = true ->
  let token := googleToken (dashboard ss) in
  let draftText := Js.trim (Js.or_else (Some (extractMessageContent message)) "") in
  let rfc822 := buildReplyMessage (recipient envelope) (replySubject envelope) draftText
                  (messageId email) in
  let ss' := generateReplyDraft decodeBase64Url OPENAI_API_KEY
               (DraftingOk message (DraftOk data_id data_message_id now)) email ss in
  calls ss' = calls ss ++ [ DraftCompletion (id email);
                            Gmail (CreateDraft token rfc822 (threadId email)) ]
  /\ (exists d, replyDrafts (dashboard ss') !! id email = Some d
                /\ content d = draftText /\ draftId d = Some i /\ savedAt d = Some now
                /\ dirty d = Some false)
  /\ forall w, exists rest,
       net (saveDraftEdits decodeBase64Url w email (dashboard ss'))
       = net (dashboard ss') ++ UpdateDraft i token rfc822 (threadId email) :: rest
       /\ Forall sync_call rest.
Proof.
  intros Hk Ht Htext He Hi Hti. cbv zeta.
  destruct (generateReplyDraft_ok decodeBase64Url OPENAI_API_KEY message data_id data_message_id
              now email ss envelope Hk Ht Htext He) as (Hd & Hc & Hg & Hn).
  rewrite Hi in Hd.
  split; [exact Hc|]. split.
  - eexists. split; [exact Hd|]. simpl. auto.
  - intros w.
    set (ss' := generateReplyDraft decodeBase64Url OPENAI_API_KEY
                  (DraftingOk message (DraftOk data_id data_message_id now)) email ss) in *.
    destruct (saveDraftEdits_ready decodeBase64Url w email (dashboard ss') envelope)
      as (rest & Hs & Hrest); [| rewrite Hg; exact Ht | exact He |].
    + unfold draft_body. rewrite Hd. simpl. rewrite JsFacts.trim_idem. exact Htext.
    + exists rest. split; [|exact Hrest]. rewrite Hs.
      rewrite (draft_write_update (dashboard ss') email envelope _ i Hd eq_refl Hti), Hg.
      simpl. rewrite JsFacts.trim_idem. reflexivity.
Qed.

Lemma generated_draft_is_updated_by_save_witness :
  let ss' := generateReplyDraft (fun x => x) (Some "sk-test")
               (DraftingOk (Some (ContentString " Will do. "))
                  (DraftOk (Some "r-9") None "2024-01-06T00:00:00.000Z"))
               sample_email sample_session in
  exists rest,
    net (saveDraftEdits (fun x => x) (DraftThrows "Failed to fetch") sample_email (dashboard ss'))
    = net (dashboard ss')
      ++ UpdateDraft "r-9" "token-1"
           (buildReplyMessage "jane@example.com" "Re: Hello" "Will do." (Some "<m0@mail>"))
           (Some "t0") :: rest
    /\ Forall sync_call rest.
Proof.
  intros ss'.
  apply (proj2 (proj2 (generated_draft_is_updated_by_save (fun x => x) (Some "sk-test")
                         (Some (ContentString " Will do. ")) (Some "r-9") None
                         "2024-01-06T00:00:00.000Z" "r-9" sample_email sample_session
                         sample_envelope eq_refl eq_refl eq_refl eq_refl eq_refl eq_refl))).
Defined.

(** ** Start-up *)

(** X23.  At start-up a stored access token is taken up and one sync
    cycle is run with it, which starts by listing the inbox with that
    token; however the cycle ends, the spinner is off, the token in memory
    and the stored one agree, there is no token only when the session is
    disconnected, and no stored key but the two token keys is written.
    Without a stored access token nothing happens and no call is issued,
    also when a refresh token is stored. *)
Theorem startup_takes_up_stored_token
    (decodeBase64Url : string -> string) (w : InboxWorld) (s : Dashboard) :
  let s' := loadSavedToken decodeBase64Url w s in
  (Js.present (getItem "gmail_access_token" s) = false -> s' = s)
  /\ (forall savedToken,
        getItem "gmail_access_token" s = Some savedToken ->
        Js.truthy savedToken = true ->
        (exists rest, net s' = net s ++ ListInbox savedToken :: rest /\ Forall sync_call rest)
        /\ loading (gmailStatus s') = false
        /\ tokens_agree s'
        /\ token_or_disconnected s'
        /\ storage_frame s s').
Proof.
  cbv zeta. unfold loadSavedToken. split.
  - intros ->. reflexivity.
  - intros savedToken Hs Ht. rewrite Hs. simpl Js.present. rewrite Ht. simpl default.
    set (s1 := setGmailStatus _ (setGoogleToken savedToken s)).
    assert (Hor : Js.truthy (Js.or_else (Some savedToken) (googleToken s1)) = true)
      by (simpl; rewrite Ht; exact Ht).
    assert (Hval : Js.or_else (Some savedToken) (googleToken s1) = savedToken)
      by (simpl; rewrite Ht; reflexivity).
    split; [|split; [|split; [|split]]].
    + destruct (fetchEmails_first_call decodeBase64Url w (Some savedToken) s1 Hor)
        as (rest & Hn & Hrest).
      exists rest. rewrite Hval in Hn. split; [exact Hn | exact Hrest].
    + apply runs_end_idle, Hor.
    + apply runs_keep_tokens_agreeing; [|exact Ht].
      unfold tokens_agree. change (googleToken s1) with savedToken. rewrite Ht. exact Hs.
    + apply runs_keep_tokens_agreeing; [|exact Ht].
      unfold tokens_agree. change (googleToken s1) with savedToken. rewrite Ht. exact Hs.
    + apply (storage_frame_trans s s1); [apply storage_frame_refl; reflexivity|].
      apply runs_keep_storage_frame.
Qed.

Lemma startup_takes_up_stored_token_witness :
  let s := setItem "gmail_access_token" "token-7" initialDashboard in
  let s' := loadSavedToken (fun x => x) (ListNotOk None) s in
  googleToken s' = "token-7" /\ tokens_agree s' /\ loading (gmailStatus s') = false.
Proof.
  intros s s'.
  destruct (proj2 (startup_takes_up_stored_token (fun x => x) (ListNotOk None) s)
              "token-7" eq_refl eq_refl) as (_ & Hl & Ha & _).
  split; [reflexivity|]. split; [exact Ha | exact Hl].
Defined.

(** ** Digest *)

(** X24.  A digest run never changes the mode.  With no message in the
    snapshot, or without the key, it issues no call and keeps the digest
    that was shown and the spinner as they were, reporting an error (the
    empty snapshot is reported first).  Otherwise it issues exactly one
    completion request, for the mode of the render, and ends with the
    spinner off: a failure leaves the digest empty, the previous one being
    erased when the run started, and a success stores a text that is
    trimmed and never blank, with no error. *)
Theorem generateDigest_outcome
    (OPENAI_API_KEY : option string) (w : DigestWorld) (s : Dashboard)
    (digestState : DigestState) :
  let ready := (0 <? length (emails s))%nat && Js.truthy (openAiKey OPENAI_API_KEY) in
  let after := fst (generateDigest OPENAI_API_KEY w s digestState) in
  let cs := snd (generateDigest OPENAI_API_KEY w s digestState) in
  mode after = mode digestState
  /\ (ready = false ->
      cs = [] /\ dg_content after = dg_content digestState
      /\ dg_loading after = dg_loading digestState
      /\ dg_error after
         = (if (0 <? length (emails s))%nat then "Set OPENAI_API_KEY in config.ts."
            else "Import at least one email first."))
  /\ (ready = true ->
      cs = [DigestCompletion (mode digestState)]
      /\ dg_loading after = false
      /\ match w with
         | DigestOk _ =>
             dg_error after = "" /\ Js.truthy (dg_content after) = true
             /\ Js.trim (dg_content after) = dg_content after
         | DigestThrows _ | DigestNotOk _ => dg_content after = ""
         end).
Proof.
  cbv zeta. unfold generateDigest, generateDigest_start.
  destruct (0 <? length (emails s))%nat; cbn [negb andb fst snd].
  - destruct (Js.truthy (openAiKey OPENAI_API_KEY)); cbn [negb fst snd].
    + split; [destruct w; reflexivity|]. split; [discriminate|]. intros _.
      split; [reflexivity|]. split; [destruct w; reflexivity|].
      destruct w as [msg|message|message]; try reflexivity.
      cbn [generateDigest_settle dg_error dg_content mode].
      split; [reflexivity|].
      set (text := Js.trim _).
      assert (Ht : Js.trim text = text) by apply JsFacts.trim_idem.
      simpl Js.or_else. destruct (Js.truthy text) eqn:E.
      * split; [exact E | exact Ht].
      * split; reflexivity.
    + split; [reflexivity|]. split; [|discriminate]. intros _. repeat split; reflexivity.
  - split; [reflexivity|]. split; [|discriminate]. intros _. repeat split; reflexivity.
Qed.

Lemma generateDigest_outcome_witness :
  generateDigest (Some "sk-test") (DigestOk (Some (ContentString "   "))) sample_state
    (mkDigest Evening false "Yesterday's digest" "")
  = (mkDigest Evening false "No content returned." "", [DigestCompletion Evening]).
Proof.
  pose proof (generateDigest_outcome (Some "sk-test") (DigestOk (Some (ContentString "   ")))
                sample_state (mkDigest Evening false "Yesterday's digest" "")) as H.
  destruct H as (_ & _ & H). destruct (H eq_refl) as (Hc & _).
  reflexivity.
Defined.

(** ** Message bodies *)

Lemma tag_free_strip_tags in_tag s : tag_free (strip_tags in_tag s) = true.
Proof.
  revert in_tag. induction s as [|c r IH]; intros in_tag; [reflexivity|].
  cbn [strip_tags]. destruct in_tag.
  - destruct (Ascii.eqb c ">"); apply IH.
  - destruct (Ascii.eqb c "<") eqn:Hc.
    + destruct r as [|d r']; [simpl; rewrite Hc; reflexivity|].
      destruct (Ascii.eqb d ">") eqn:Hd.
      * apply Ascii.eqb_eq in Hd. subst d.
        cbn [tag_free]. rewrite Hc, (IH false), andb_true_r. reflexivity.
      * cbn [tag_free]. simpl (Ascii.eqb " " "<"). cbv iota. apply IH.
    + cbn [tag_free]. rewrite Hc. apply IH.
Qed.

Lemma space_not_lt c : Js.is_space c = true -> Ascii.eqb c "<" = false.
Proof.
  intros H. destruct (Ascii.eqb c "<") eqn:E; [|reflexivity].
  apply Ascii.eqb_eq in E. subst c. discriminate H.
Qed.

Lemma gt_not_space d : Ascii.eqb d ">" = true -> Js.is_space d = false.
Proof. intros E. apply Ascii.eqb_eq in E. subst d. reflexivity. Qed.

Lemma tag_free_tail c r : tag_free (String c r) = true -> tag_free r = true.
Proof. cbn [tag_free]. intros H. apply andb_true_iff in H. apply H. Qed.

Lemma tag_free_squeeze in_sep s : tag_free s = true -> tag_free (squeeze_spaces in_sep s) = true.
Proof.
  revert in_sep. induction s as [|c r IH]; intros in_sep H; [reflexivity|].
  pose proof (tag_free_tail _ _ H) as Hr.
  cbn [squeeze_spaces]. destruct (Js.is_space c) eqn:Hs.
  - destruct in_sep; [apply IH, Hr|].
    cbn [tag_free]. simpl (Ascii.eqb " " "<"). cbv iota. apply IH, Hr.
  - cbn [tag_free] in *. rewrite (IH false Hr), andb_true_r.
    destruct (Ascii.eqb c "<"); [|reflexivity].
    destruct r as [|d r']; [reflexivity|].
    apply andb_true_iff in H as [Hd _].
    cbn [squeeze_spaces]. rewrite (gt_not_space d Hd). exact Hd.
Qed.

Lemma tag_free_trimStart s : tag_free s = true -> tag_free (Js.trimStart s) = true.
Proof.
  induction s as [|c r IH]; intros H; [reflexivity|].
  cbn [Js.trimStart]. destruct (Js.is_space c); [apply IH, (tag_free_tail _ _ H) | exact H].
Qed.

Lemma trimEnd_head d r : Js.is_space d = false -> exists r', Js.trimEnd (String d r) = String d r'.
Proof.
  intros H. cbn [Js.trimEnd]. destruct (Js.trimEnd r); rewrite ?H; eexists; reflexivity.
Qed.

Lemma tag_free_trimEnd s : tag_free s = true -> tag_free (Js.trimEnd s) = true.
Proof.
  induction s as [|c r IH]; intros H; [reflexivity|].
  pose proof (IH (tag_free_tail _ _ H)) as Hr.
  cbn [tag_free] in H. apply andb_true_iff in H as [Hc _].
  cbn [Js.trimEnd]. destruct (Js.trimEnd r) as [|e r'] eqn:E.
  - destruct (Js.is_space c); [reflexivity|].
    cbn [tag_free]. destruct (Ascii.eqb c "<"); reflexivity.
  - cbn [tag_free]. cbn [tag_free] in Hr. rewrite Hr, andb_true_r.
    destruct (Ascii.eqb c "<"); [|reflexivity].
    destruct r as [|d r0]; [discriminate E|].
    destruct (trimEnd_head d r0 (gt_not_space d Hc)) as [x Hx].
    rewrite Hx in E. injection E as <- _. exact Hc.
Qed.

Lemma strip_tags_tag_free s : tag_free s = true -> strip_tags false s = s.
Proof.
  induction s as [|c r IH]; intros H; [reflexivity|].
  pose proof (IH (tag_free_tail _ _ H)) as Hr.
  cbn [tag_free] in H. apply andb_true_iff in H as [Hc _].
  cbn [strip_tags]. destruct (Ascii.eqb c "<").
  - destruct r as [|d r0]; [reflexivity|]. rewrite Hc, Hr. reflexivity.
  - rewrite Hr. reflexivity.
Qed.

Lemma single_spaced_squeeze in_sep s : single_spaced in_sep (squeeze_spaces in_sep s) = true.
Proof.
  revert in_sep. induction s as [|c r IH]; intros in_sep; [reflexivity|].
  cbn [squeeze_spaces]. destruct (Js.is_space c) eqn:Hs.
  - destruct in_sep; [apply IH|].
    cbn [single_spaced]. simpl (Js.is_space " "). cbv iota. simpl. apply IH.
  - cbn [single_spaced]. rewrite Hs. apply IH.
Qed.

Lemma single_spaced_weaken s : single_spaced true s = true -> single_spaced false s = true.
Proof.
  destruct s as [|c r]; [reflexivity|]. cbn [single_spaced].
  destruct (Js.is_space c); [|exact (fun H => H)].
  rewrite andb_false_r. discriminate.
Qed.

Lemma single_spaced_trimStart s :
  single_spaced false s = true -> single_spaced false (Js.trimStart s) = true.
Proof.
  induction s as [|c r IH]; intros H; [reflexivity|].
  cbn [Js.trimStart]. destruct (Js.is_space c) eqn:Hs; [|exact H].
  apply IH, single_spaced_weaken. cbn [single_spaced] in H. rewrite Hs in H.
  apply andb_true_iff in H. apply H.
Qed.

Lemma single_spaced_trimEnd b s :
  single_spaced b s = true -> single_spaced b (Js.trimEnd s) = true.
Proof.
  revert b. induction s as [|c r IH]; intros b H; [reflexivity|].
  cbn [single_spaced] in H. cbn [Js.trimEnd].
  destruct (Js.trimEnd r) as [|e r'] eqn:E.
  - destruct (Js.is_space c) eqn:Hs; [reflexivity|].
    cbn [single_spaced]. rewrite Hs. reflexivity.
  - cbn [single_spaced]. destruct (Js.is_space c).
    + apply andb_true_iff in H as [H1 H2]. rewrite H1. apply (IH true H2).
    + apply (IH false H).
Qed.

Lemma squeeze_single_spaced b s : single_spaced b s = true -> squeeze_spaces b s = s.
Proof.
  revert b. induction s as [|c r IH]; intros b H; [reflexivity|].
  cbn [single_spaced] in H. cbn [squeeze_spaces].
  destruct (Js.is_space c).
  - apply andb_true_iff in H as [H1 H2]. apply andb_true_iff in H1 as [Hc Hb].
    apply Ascii.eqb_eq in Hc. subst c.
    destruct b; [discriminate Hb|]. rewrite (IH true H2). reflexivity.
  - rewrite (IH false H). reflexivity.
Qed.

(** X25.  The text that [stripHtml] returns holds no tag (a [<] is its
    last character or is followed by [>]), holds white space only as
    single blanks between other characters, and has none at its ends;
    stripping it again changes nothing. *)
Theorem stripHtml_is_clean (html : string) :
  let text := stripHtml html in
  tag_free text = true
  /\ single_spaced false text = true
  /\ Js.trim text = text
  /\ stripHtml text = text.
Proof.
  cbv zeta.
  assert (Ht : tag_free (stripHtml html) = true).
  { unfold stripHtml, Js.trim.
    apply tag_free_trimEnd, tag_free_trimStart, tag_free_squeeze, tag_free_strip_tags. }
  assert (Hs : single_spaced false (stripHtml html) = true).
  { unfold stripHtml, Js.trim.
    apply single_spaced_trimEnd, single_spaced_trimStart, single_spaced_squeeze. }
  assert (Hi : Js.trim (stripHtml html) = stripHtml html)
    by (unfold stripHtml; apply JsFacts.trim_idem).
  split; [exact Ht|]. split; [exact Hs|]. split; [exact Hi|].
  unfold stripHtml at 1.
  rewrite (strip_tags_tag_free _ Ht), (squeeze_single_spaced _ _ Hs). exact Hi.
Qed.

(** ** Derived views *)

Lemma analyzedEmails_spec s email :
  email ∈ analyzedEmails s <-> email ∈ emails s /\ is_Some (analyses s !! id email).
Proof. unfold analyzedEmails. rewrite list_elem_of_filter. tauto. Qed.

Lemma deadlines_of_entries s email found e :
  deadlines_of s email = Some found -> e ∈ found ->
  exists analysis items,
    analyses s !! id email = Some analysis
    /\ deadlines analysis = JArray items
    /\ dl_emailId e = id email /\ dl_subject e = subject email
    /\ dl_deadline e ∈ items /\ dl_priority e = priority analysis.
Proof.
  unfold deadlines_of. destruct (analyses s !! id email) as [analysis|];
    [|intros [= <-] H; inversion H].
  destruct (has_length (deadlines analysis)); cbn [negb];
    [|intros [= <-] H; inversion H].
  destruct (deadlines analysis) as [| | | |items|] eqn:Hd; try discriminate.
  intros [= <-] He. apply list_elem_of_fmap in He as (deadline & -> & Hin).
  exists analysis, items. split; [reflexivity|]. split; [exact Hd|].
  split; [reflexivity|]. split; [reflexivity|]. split; [exact Hin | reflexivity].
Qed.

(** X26.  The deadline highlights, when they can be computed, are at
    most five, and each of them is an entry of the deadline list of the
    insight record of a message of the snapshot, with the id and the
    subject of that message and the priority of that record.  They can
    be computed whenever every record holds an array under [deadlines];
    but nothing has checked that (the record is stored as parsed): one
    record of a message of the snapshot that holds a non-empty string
    there makes the computation throw. *)
Theorem deadlineHighlights_entries (s : Dashboard) :
  (forall highlights, deadlineHighlights s = Some highlights ->
     length highlights <= 5
     /\ forall e, e ∈ highlights ->
          exists email analysis items,
            email ∈ emails s
            /\ analyses s !! id email = Some analysis
            /\ deadlines analysis = JArray items
            /\ dl_emailId e = id email /\ dl_subject e = subject email
            /\ dl_deadline e ∈ items /\ dl_priority e = priority analysis)
  /\ ((forall email analysis,
         email ∈ emails s -> analyses s !! id email = Some analysis ->
         exists items, deadlines analysis = JArray items) ->
      is_Some (deadlineHighlights s))
  /\ (forall email analysis c r,
        email ∈ emails s -> analyses s !! id email = Some analysis ->
        deadlines analysis = JString (String c r) ->
        deadlineHighlights s = None).
Proof.
  unfold deadlineHighlights. split; [|split].
  - intros highlights H.
    destruct (mapM (deadlines_of s) (analyzedEmails s)) as [found|] eqn:Hm; [|discriminate].
    injection H as <-. split; [rewrite length_take; lia|].
    intros e He. apply subseteq_take in He.
    apply list_elem_of_join in He as (part & He & Hpart).
    apply mapM_Some_1 in Hm.
    apply list_elem_of_lookup in Hpart as [i Hi].
    destruct (Forall2_lookup_r _ _ _ _ _ Hm Hi) as (email & Hemail & Hof).
    apply list_elem_of_lookup_2 in Hemail. apply analyzedEmails_spec in Hemail as [Hin _].
    destruct (deadlines_of_entries s email part e Hof He) as (analysis & items & H).
    exists email, analysis, items. tauto.
  - intros Hok.
    destruct (mapM (deadlines_of s) (analyzedEmails s)) as [found|] eqn:Hm; [eexists; reflexivity|].
    exfalso. apply mapM_None_1, Exists_exists in Hm as (email & Hemail & Hnone).
    apply analyzedEmails_spec in Hemail as [Hin [analysis Ha]].
    destruct (Hok email analysis Hin Ha) as [items Hitems].
    unfold deadlines_of in Hnone. rewrite Ha, Hitems in Hnone.
    destruct (negb _); discriminate.
  - intros email analysis c r Hin Ha Hd.
    assert (Hm : mapM (deadlines_of s) (analyzedEmails s) = None).
    { apply mapM_None_2, Exists_exists. exists email. split.
      - apply analyzedEmails_spec. split; [exact Hin | eexists; exact Ha].
      - unfold deadlines_of. rewrite Ha, Hd. reflexivity. }
    rewrite Hm. reflexivity.
Qed.

Lemma deadlineHighlights_entries_witness :
  deadlineHighlights
    (setAnalyses (insert "m0"
                    (spread_over defaultAnalysis (JObject [("deadlines", JString "Friday")])))
       sample_state)
  = None.
Proof.
  apply (proj2 (proj2 (deadlineHighlights_entries _)) sample_email
           (spread_over defaultAnalysis (JObject [("deadlines", JString "Friday")]))
           "F"%char "riday").
  - apply list_elem_of_here.
  - apply lookup_insert_eq.
  - reflexivity.
Defined.

(** ** Authorization *)

Section ConnectFacts.

Variable decodeBase64Url : string -> string.

Lemma readProfile_frame bearer w ss :
  googleToken (dashboard (readProfile bearer w ss)) = googleToken (dashboard ss)
  /\ (forall k, k <> "gmail_profile" ->
                localStorage (dashboard (readProfile bearer w ss)) !! k
                = localStorage (dashboard ss) !! k)
  /\ net (dashboard (readProfile bearer w ss)) = net (dashboard ss)
  /\ calls (readProfile bearer w ss) = calls ss ++ [UserInfo bearer].
Proof.
  unfold readProfile. destruct w as [|email name].
  - split; [reflexivity|]. split; [reflexivity|]. split; [reflexivity|].
    rewrite on_dashboard_quiet by reflexivity. reflexivity.
  - split; [reflexivity|]. split; [|split; [reflexivity|]].
    + intros k Hk. cbn. apply lookup_insert_ne. congruence.
    + rewrite !on_dashboard_quiet by reflexivity. reflexivity.
Qed.

(** The common end of both paths: the profile is read and the inbox is
    loaded with the token that was just stored. *)
Lemma sync_after_grant sync token profileReply ss0 ss1 cs fallback :
  Js.truthy token = true ->
  googleToken (dashboard ss1) = token ->
  localStorage (dashboard ss1) !! "gmail_access_token" = Some token ->
  net (dashboard ss1) = net (dashboard ss0) ->
  calls ss1 = calls ss0 ++ cs ->
  (forall k, k <> "gmail_access_token" -> k <> "gmail_refresh_token" ->
             localStorage (dashboard ss1) !! k = localStorage (dashboard ss0) !! k) ->
  let ss' := on_dashboard
               (fetchEmails decodeBase64Url sync (Some (Js.or_else (Some token) fallback)))
               (readProfile token profileReply ss1) in
  tokens_agree (dashboard ss')
  /\ token_or_disconnected (dashboard ss')
  /\ loading (gmailStatus (dashboard ss')) = false
  /\ (exists rest,
        calls ss' = calls ss0 ++ cs ++ UserInfo token :: Gmail (ListInbox token) :: map Gmail rest
        /\ Forall sync_call rest)
  /\ (forall k, k <> "gmail_access_token" -> k <> "gmail_refresh_token" ->
                k <> "gmail_profile" ->
                localStorage (dashboard ss') !! k = localStorage (dashboard ss0) !! k).
Proof.
  intros Ht Hg Hs Hn Hc Hk. cbv zeta.
  assert (Hval : Js.or_else (Some token) fallback = token) by (simpl; rewrite Ht; reflexivity).
  rewrite Hval.
  destruct (readProfile_frame token profileReply ss1) as (Pg & Pk & Pn & Pc).
  set (ss2 := readProfile token profileReply ss1) in *.
  assert (Hor : Js.truthy (Js.or_else (Some token) (googleToken (dashboard ss2))) = true)
    by (simpl; rewrite Ht; exact Ht).
  assert (Hagree : tokens_agree (dashboard ss2)).
  { unfold tokens_agree. rewrite Pg, Hg, Ht, Pk by discriminate. exact Hs. }
  assert (Htok : Js.truthy (googleToken (dashboard ss2)) = true) by (rewrite Pg, Hg; exact Ht).
  cbn [dashboard on_dashboard].
  split; [apply runs_keep_tokens_agreeing; assumption|].
  split; [apply runs_keep_tokens_agreeing; assumption|].
  split; [apply runs_end_idle; exact Hor|].
  split.
  - destruct (fetchEmails_first_call decodeBase64Url sync (Some token) (dashboard ss2) Hor)
      as (rest & Hnet & Hrest).
    exists rest. split; [|exact Hrest].
    rewrite (on_dashboard_calls _ ss2 _ Hnet), Pc, Hc.
    assert (Hval' : Js.or_else (Some token) (googleToken (dashboard ss2)) = token)
      by (simpl; rewrite Ht; reflexivity).
    rewrite Hval'. rewrite <- !app_assoc. reflexivity.
  - intros k Ka Kr Kp.
    destruct (proj1 (runs_keep_storage_frame decodeBase64Url) sync (Some token) (dashboard ss2))
      as [Hframe _].
    rewrite (Hframe k Ka Kr), (Pk k Kp). apply Hk; assumption.
Qed.

End ConnectFacts.

(** X27.  An authorization that is refused or fails (the flow or the
    exchange throws or is refused, the identity script has not loaded,
    the callback reports an error or never comes, or no client id is
    configured) issues no call but those of the authorization itself and
    changes nothing but the connection status: the token in memory, the
    stored keys, the snapshot and the drafts of the session that was there
    are kept.  One that hands over a token stores it, reads the profile
    with it and then loads the inbox with it; whenever that sync ends, the
    spinner is off and the token in memory and the stored one agree, and
    no stored key but the two tokens and the profile is touched.  A
    callback of the
    browser path that reports neither an error nor a token is taken for a
    grant all the same: the text [undefined] (or the empty token that
    came) is sent to the profile endpoint, and the sync that follows falls
    back on the token of the render.  Without such a token that sync only
    reports "Connect Gmail first.", and the session ends marked connected,
    with no token in memory and with that text stored as the access
    token: memory and storage disagree. *)
Theorem connectGmail_outcome
    (decodeBase64Url : string -> string)
    (GOOGLE_OAUTH_CLIENT_ID GOOGLE_OAUTH_DESKTOP_CLIENT_ID
       GOOGLE_OAUTH_DESKTOP_CLIENT_SECRET : option string)
    (p : Platform) (ss : Session) :
  let ss' := connectGmail decodeBase64Url GOOGLE_OAUTH_CLIENT_ID
               GOOGLE_OAUTH_DESKTOP_CLIENT_ID GOOGLE_OAUTH_DESKTOP_CLIENT_SECRET p ss in
  let clientId := gmailClientId GOOGLE_OAUTH_CLIENT_ID in
  ((granted p = None /\ answers_without_token p = false) \/ Js.truthy clientId = false ->
   only_status_changed (dashboard ss) (dashboard ss')
   /\ net (dashboard ss') = net (dashboard ss)
   /\ exists cs, calls ss' = calls ss ++ cs /\ Forall authorization_call cs)
  /\ (forall token,
        Js.truthy clientId = true -> granted p = Some token ->
        Js.truthy token = true
        /\ tokens_agree (dashboard ss')
        /\ token_or_disconnected (dashboard ss')
        /\ loading (gmailStatus (dashboard ss')) = false
        /\ (exists cs rest,
              calls ss'
              = calls ss ++ cs ++ UserInfo token :: Gmail (ListInbox token) :: map Gmail rest
              /\ Forall authorization_call cs /\ Forall sync_call rest)
        /\ (forall k, k <> "gmail_access_token" -> k <> "gmail_refresh_token" ->
                      k <> "gmail_profile" ->
                      localStorage (dashboard ss') !! k = localStorage (dashboard ss) !! k))
  /\ (forall token_error error_description access_token profileReply sync,
        Js.truthy clientId = true ->
        p = Browser true
              (WebAnswers token_error error_description access_token profileReply sync) ->
        answers_without_token p = true ->
        let stored := default "undefined" access_token in
        let renderToken := googleToken (dashboard ss) in
        exists rest,
          calls ss'
          = calls ss ++ RequestAccessToken clientId :: UserInfo stored :: map Gmail rest
          /\ Forall sync_call rest
          /\ (Js.truthy renderToken = true -> exists rest', rest = ListInbox renderToken :: rest')
          /\ (Js.truthy renderToken = false ->
              rest = []
              /\ googleToken (dashboard ss') = ""
              /\ localStorage (dashboard ss') !! "gmail_access_token" = Some stored
              /\ connected (gmailStatus (dashboard ss')) = true
              /\ loading (gmailStatus (dashboard ss')) = false
              /\ error (gmailStatus (dashboard ss')) = "Connect Gmail first."
              /\ ~ tokens_agree (dashboard ss'))).
Proof.
  cbv zeta. unfold connectGmail.
  destruct (Js.truthy (gmailClientId GOOGLE_OAUTH_CLIENT_ID)) eqn:Hid; cbn [negb]; cbv iota.
  2:{ split; [|split; discriminate]. intros _.
      split; [repeat split|]. split; [reflexivity|].
      exists []. rewrite app_nil_r. split; [apply on_dashboard_quiet; reflexivity | constructor]. }
  set (ss0 := on_dashboard (setGmailStatus _) ss).
  assert (C0 : calls ss0 = calls ss) by (apply on_dashboard_quiet; reflexivity).
  assert (Hquiet : forall st ss1,
            dashboard ss1 = dashboard ss0 ->
            (exists cs, calls ss1 = calls ss ++ cs /\ Forall authorization_call cs) ->
            let ss' := on_dashboard (setGmailStatus st) ss1 in
            only_status_changed (dashboard ss) (dashboard ss')
            /\ net (dashboard ss') = net (dashboard ss)
            /\ exists cs, calls ss' = calls ss ++ cs /\ Forall authorization_call cs).
  { intros st ss1 Hd (cs & Hc & Hcs). cbv zeta. cbn [dashboard on_dashboard]. rewrite Hd.
    split; [repeat split|]. split; [reflexivity|].
    exists cs. split; [|exact Hcs].
    rewrite on_dashboard_quiet by reflexivity. exact Hc. }
  assert (Hcalls : forall ss1 cs,
            calls ss1 = calls ss ++ cs -> Forall authorization_call cs ->
            exists cs', calls ss1 = calls ss ++ cs' /\ Forall authorization_call cs')
    by (intros ss1 cs H1 H2; exists cs; split; assumption).
  split; [|split].
  - intros [[Hg Hw]|Hg]; [|discriminate].
    destruct p as [[text|result text|result te ed au rt pr sync]|gis [|te ed au pr sync]].
    + unfold connectDesktop, connectDesktop_catch. apply Hquiet; [reflexivity|].
      eapply Hcalls; [unfold call; cbn [calls]; rewrite C0; reflexivity|].
      repeat constructor.
    + unfold connectDesktop, connectDesktop_catch. apply Hquiet; [reflexivity|].
      eapply Hcalls; [unfold call; cbn [calls]; rewrite C0, <- app_assoc; reflexivity|].
      simpl. repeat constructor.
    + unfold connectDesktop, connectDesktop_catch. simpl in Hg.
      destruct (Js.present te || negb (Js.present au)) eqn:Hc.
      * apply Hquiet; [reflexivity|].
        eapply Hcalls; [unfold call; cbn [calls]; rewrite C0, <- app_assoc; reflexivity|].
        simpl. repeat constructor.
      * apply orb_false_iff in Hc as [_ Hc]. destruct au as [t|]; [discriminate Hg|].
        discriminate Hc.
    + unfold connectWeb. destruct gis; cbn [negb]; cbv iota.
      * split; [repeat split|]. split; [reflexivity|].
        exists [RequestAccessToken (gmailClientId GOOGLE_OAUTH_CLIENT_ID)].
        split; [unfold call; cbn [calls]; rewrite C0; reflexivity | repeat constructor].
      * apply Hquiet; [reflexivity|].
        apply (Hcalls ss0 []); [rewrite app_nil_r; exact C0 | constructor].
    + unfold connectWeb. destruct gis; cbn [negb]; cbv iota.
      * simpl in Hg, Hw. destruct (Js.present te); cbn [negb orb andb] in Hg, Hw.
        2:{ destruct (Js.present au) eqn:Hau; [|discriminate Hw].
            destruct au as [t|]; [discriminate Hg | discriminate Hau]. }
        apply Hquiet; [reflexivity|].
        eapply Hcalls; [unfold call; cbn [calls]; rewrite C0; reflexivity|].
        repeat constructor.
      * apply Hquiet; [reflexivity|].
        apply (Hcalls ss0 []); [rewrite app_nil_r; exact C0 | constructor].
  - intros token _ Hg.
    assert (Ht : Js.truthy token = true).
    { destruct p as [[text|result text|result te ed au rt pr sync]|gis [|te ed au pr sync]];
        simpl in Hg; try discriminate; try (destruct gis; discriminate).
      - destruct (Js.present te); [discriminate|]. destruct au as [t|]; [|discriminate].
        cbn [Js.present orb negb] in Hg.
        destruct (Js.truthy t) eqn:E; cbn [negb] in Hg; [|discriminate].
        injection Hg as <-. exact E.
      - destruct gis; [|discriminate].
        destruct (Js.present te); [discriminate|]. destruct au as [t|]; [|discriminate].
        cbn [Js.present orb negb] in Hg.
        destruct (Js.truthy t) eqn:E; cbn [negb] in Hg; [|discriminate].
        injection Hg as <-. exact E. }
    split; [exact Ht|].
    destruct p as [[text|result text|result te ed au rt pr sync]|gis [|te ed au pr sync]];
      simpl in Hg; try discriminate.
    + unfold connectDesktop. cbv zeta.
      destruct (Js.present te || negb (Js.present au)) eqn:Hc; [discriminate|].
      subst au. change (default "" (Some token)) with token.
      set (cs := [StartOAuthFlow (Js.or_else GOOGLE_OAUTH_DESKTOP_CLIENT_ID
                                    (gmailClientId GOOGLE_OAUTH_CLIENT_ID));
                  CodeExchange (code result)
                    (Js.or_else GOOGLE_OAUTH_DESKTOP_CLIENT_ID
                       (gmailClientId GOOGLE_OAUTH_CLIENT_ID))
                    (Js.or_else GOOGLE_OAUTH_DESKTOP_CLIENT_SECRET "")
                    (redirect_uri result) (code_verifier result)]).
      match goal with
      | |- context [readProfile token pr ?x] => set (ss1 := x)
      end.
      assert (H1 : googleToken (dashboard ss1) = token
                   /\ localStorage (dashboard ss1) !! "gmail_access_token" = Some token
                   /\ net (dashboard ss1) = net (dashboard ss)
                   /\ calls ss1 = calls ss ++ cs
                   /\ forall k, k <> "gmail_access_token" -> k <> "gmail_refresh_token" ->
                                localStorage (dashboard ss1) !! k
                                = localStorage (dashboard ss) !! k).
      { unfold ss1. destruct (Js.present rt).
        - split; [reflexivity|]. split; [|split; [reflexivity|split]].
          + cbn. rewrite lookup_insert_ne by discriminate. apply lookup_insert_eq.
          + rewrite !on_dashboard_quiet by reflexivity.
            unfold call. cbn [calls]. rewrite C0, <- app_assoc. reflexivity.
          + intros k Ka Kr. cbn. rewrite !lookup_insert_ne by congruence. reflexivity.
        - split; [reflexivity|]. split; [|split; [reflexivity|split]].
          + cbn. apply lookup_insert_eq.
          + rewrite !on_dashboard_quiet by reflexivity.
            unfold call. cbn [calls]. rewrite C0, <- app_assoc. reflexivity.
          + intros k Ka Kr. cbn. rewrite lookup_insert_ne by congruence. reflexivity. }
      destruct H1 as (Hg1 & Hs1 & Hn1 & Hc1 & Hk1).
      pose proof (sync_after_grant decodeBase64Url sync token pr ss ss1 cs ""
                    Ht Hg1 Hs1 Hn1 Hc1 Hk1) as H.
      cbv zeta in H. replace (Js.or_else (Some token) "") with token in H
        by (simpl; rewrite Ht; reflexivity).
      destruct H as (A & B & C & (rest & D & E) & F).
      split; [exact A|]. split; [exact B|]. split; [exact C|]. split; [|exact F].
      exists cs, rest. split; [exact D|]. split; [repeat constructor | exact E].
    + destruct gis; discriminate.
    + destruct gis; [|discriminate]. unfold connectWeb. cbn [negb]. cbv iota.
      destruct (Js.present te); [discriminate|]. cbn [orb] in Hg.
      destruct au as [t|]; [|discriminate Hg].
      destruct (Js.present (Some t)); [|discriminate Hg]. cbn [negb] in Hg.
      injection Hg as <-.
      cbv zeta. change (default "" (Some t)) with t.
      change (default "undefined" (Some t)) with t.
      match goal with
      | |- context [readProfile t pr ?x] => set (ss1 := x)
      end.
      assert (Hc1 : calls ss1
                    = calls ss ++ [RequestAccessToken (gmailClientId GOOGLE_OAUTH_CLIENT_ID)]).
      { unfold ss1. rewrite !on_dashboard_quiet by reflexivity.
        unfold call. cbn [calls]. rewrite C0. reflexivity. }
      assert (Hs1 : localStorage (dashboard ss1) !! "gmail_access_token" = Some t)
        by (cbn; apply lookup_insert_eq).
      assert (Hk1 : forall k, k <> "gmail_access_token" -> k <> "gmail_refresh_token" ->
                              localStorage (dashboard ss1) !! k = localStorage (dashboard ss) !! k).
      { intros k Ka Kr. cbn. rewrite lookup_insert_ne by congruence. reflexivity. }
      destruct (sync_after_grant decodeBase64Url sync t pr ss ss1 _
                  (googleToken (dashboard ss0)) Ht eq_refl Hs1 eq_refl Hc1 Hk1)
        as (A & B & C & (rest & D & E) & F).
      split; [exact A|]. split; [exact B|]. split; [exact C|]. split; [|exact F].
      eexists _, rest. split; [exact D|]. split; [repeat constructor | exact E].
  - intros te ed au pr sync _ -> Hw. cbv zeta.
    simpl in Hw. apply andb_true_iff in Hw as [Hte Hau].
    apply negb_true_iff in Hte. apply negb_true_iff in Hau.
    unfold connectWeb. cbn [negb]. cbv iota. rewrite Hte.
    assert (Hmem : default "" au = "").
    { destruct au as [t|]; [|reflexivity]. destruct t; [reflexivity | discriminate Hau]. }
    assert (Hor : Js.or_else au (googleToken (dashboard ss0)) = googleToken (dashboard ss)).
    { destruct au as [t|]; [|reflexivity]. simpl in Hau |- *. rewrite Hau. reflexivity. }
    rewrite Hmem, Hor.
    set (stored := default "undefined" au).
    destruct (readProfile_frame stored pr
                (on_dashboard (setItem "gmail_access_token" stored)
                   (on_dashboard (setGoogleToken "")
                      (call (RequestAccessToken (gmailClientId GOOGLE_OAUTH_CLIENT_ID)) ss0))))
      as (Pg & Pk & Pn & Pc).
    set (ss2 := readProfile stored pr _) in *.
    assert (C2 : calls ss2
                 = calls ss ++ [RequestAccessToken (gmailClientId GOOGLE_OAUTH_CLIENT_ID);
                                UserInfo stored]).
    { rewrite Pc, !on_dashboard_quiet by reflexivity.
      unfold call. cbn [calls]. rewrite C0, <- app_assoc. reflexivity. }
    assert (G2 : googleToken (dashboard ss2) = "") by (rewrite Pg; reflexivity).
    destruct (Js.truthy (googleToken (dashboard ss))) eqn:Hrender.
    + assert (Hor' : Js.truthy (Js.or_else (Some (googleToken (dashboard ss)))
                                  (googleToken (dashboard ss2))) = true)
        by (simpl; rewrite Hrender; exact Hrender).
      destruct (fetchEmails_first_call decodeBase64Url sync
                  (Some (googleToken (dashboard ss))) (dashboard ss2) Hor')
        as (rest & Hnet & Hrest).
      assert (Hval : Js.or_else (Some (googleToken (dashboard ss)))
                       (googleToken (dashboard ss2)) = googleToken (dashboard ss))
        by (simpl; rewrite Hrender; reflexivity).
      rewrite Hval in Hnet.
      exists (ListInbox (googleToken (dashboard ss)) :: rest).
      split; [|split; [|split]].
      * rewrite (on_dashboard_calls _ ss2 _ Hnet), C2, <- app_assoc. reflexivity.
      * constructor; [exact I | exact Hrest].
      * intros _. exists rest. reflexivity.
      * discriminate.
    + assert (Hrun : fetchEmails decodeBase64Url sync (Some (googleToken (dashboard ss)))
                       (dashboard ss2)
                     = setGmailStatus (fun prev =>
                         mkStatus (loading prev) (connected prev) "Connect Gmail first."
                           (profile prev) (lastSync prev)) (dashboard ss2)).
      { destruct sync; simpl; rewrite Hrender, G2; reflexivity. }
      exists []. split; [|split; [constructor|split; [discriminate|]]].
      * rewrite (on_dashboard_calls _ ss2 []), C2; [simpl; rewrite app_nil_r; reflexivity|].
        rewrite Hrun, app_nil_r. reflexivity.
      * intros _. cbn [dashboard on_dashboard]. rewrite Hrun.
        assert (Hst : localStorage (dashboard ss2) !! "gmail_access_token" = Some stored).
        { rewrite Pk by discriminate. cbn. apply lookup_insert_eq. }
        split; [reflexivity|]. split; [exact G2|]. split; [exact Hst|].
        split; [unfold ss2, readProfile; destruct pr; reflexivity|].
        split; [unfold ss2, readProfile; destruct pr; reflexivity|].
        split; [reflexivity|].
        unfold tokens_agree. cbn [googleToken setGmailStatus]. rewrite G2.
        cbn [Js.truthy localStorage setGmailStatus]. rewrite Hst. discriminate.
Qed.

Lemma connectGmail_outcome_witness :
  let ss' := connectGmail (fun x => x) (Some "client-1") None None
               (Tauri (ExchangeReplies (mkFlow "code-1" "http://localhost:8080" "verifier-1")
                         None None (Some "token-9") (Some "refresh-9")
                         (ProfileReplies (Some "me@example.com") None)
                         (ListOk [] "2024-01-07T00:00:00.000Z")))
               (mkSession initialDashboard ∅ []) in
  let odd := connectGmail (fun x => x) (Some "client-1") None None
               (Browser true (WebAnswers None None None (ProfileReplies None None)
                                (ListThrows "unused")))
               (mkSession initialDashboard ∅ []) in
  tokens_agree (dashboard ss')
  /\ calls ss'
     = [ StartOAuthFlow "client-1";
         CodeExchange "code-1" "client-1" "" "http://localhost:8080" "verifier-1";
         UserInfo "token-9"; Gmail (ListInbox "token-9") ]
  /\ localStorage (dashboard odd) !! "gmail_access_token" = Some "undefined"
  /\ googleToken (dashboard odd) = "".
Proof.
  intros ss' odd.
  destruct (proj1 (proj2 (connectGmail_outcome (fun x => x) (Some "client-1") None None
                     (Tauri (ExchangeReplies (mkFlow "code-1" "http://localhost:8080" "verifier-1")
                               None None (Some "token-9") (Some "refresh-9")
                               (ProfileReplies (Some "me@example.com") None)
                               (ListOk [] "2024-01-07T00:00:00.000Z")))
                     (mkSession initialDashboard ∅ [])))
              "token-9" eq_refl eq_refl) as (_ & Ha & _).
  destruct (proj2 (proj2 (connectGmail_outcome (fun x => x) (Some "client-1") None None
                     (Browser true (WebAnswers None None None (ProfileReplies None None)
                                      (ListThrows "unused")))
                     (mkSession initialDashboard ∅ [])))
              None None None (ProfileReplies None None) (ListThrows "unused")
              eq_refl eq_refl eq_refl) as (rest & _ & _ & _ & Hodd).
  destruct (Hodd eq_refl) as (_ & Hg & Hs & _).
  split; [exact Ha|]. split; [reflexivity|]. split; [exact Hs | exact Hg].
Defined.
